(** * godot-lsp-stdio-bridge: frame codec, handshake reorder buffer,
      staging queue and connection callbacks

    A shallow embedding of the bridge script and of the parts of the
    Node.js runtime it relies on.  The script exists in two variants: the
    one with reconnection, warm-up and URI normalisation is modelled by the
    top-level definitions, the one without ([index.mjs]) by [Module Simple];
    both share [extractMessages].

    Conventions.
    - A [Buffer] is a list of bytes, each byte an integer in [0, 255].
    - A JavaScript string ([jsstring]) is the list of its UTF-16 code units,
      each an integer in [0, 65535]; [length] is the [.length] of the string.
      [utf8_encode] and [utf8_decode] are [Buffer.from(s)] /
      [Buffer.byteLength] and [buf.toString('utf8')].
    - Lengths parsed from a header are kept as exact natural numbers ([N]).
      The runtime holds them in a binary64 number, exact below 2^53; a
      larger value exceeds the length of every buffer, so the only test made
      on it has the same outcome.
    - Values made by [JSON.parse] are terms of [json]; numbers are binary64
      values ([spec_float]).  [JSON.parse] and [JSON.stringify] themselves
      are parameters of the development ([Section Bridge]).
    - The global variables of the script are the fields of [state].  Every
      callback is a function [state -> state]; what it writes to the socket
      or to standard output is appended to the [out] trace.  Timers are
      flags ([reconnectTimer], [warmupTimer]) and their expiry is an event.
    - Logging is left out: it has no effect on the state above. *)

From Stdlib Require Import String Ascii.
From Stdlib Require Import ZArith NArith List Bool Lia SpecFloat PeanoNat.
Import ListNotations.

Local Open Scope Z_scope.

(** ** Bytes and strings *)

Definition Buffer := list Z.
Definition jsstring := list Z.

(** ASCII literal of the source as a JavaScript string. *)
Definition str (s : string) : jsstring :=
  map (fun a => Z.of_N (N_of_ascii a)) (list_ascii_of_string s).

Definition jsstring_eqb (a b : jsstring) : bool :=
  if list_eq_dec Z.eq_dec a b then true else false.

Definition is_high_surrogate (u : Z) : bool := (0xD800 <=? u) && (u <=? 0xDBFF).
Definition is_low_surrogate (u : Z) : bool := (0xDC00 <=? u) && (u <=? 0xDFFF).

(** Well-formed text: code units in range, every surrogate paired. *)
Fixpoint well_formed (s : jsstring) : bool :=
  match s with
  | [] => true
  | u :: r =>
      if is_high_surrogate u then
        match r with
        | l :: r' => is_low_surrogate l && well_formed r'
        | [] => false
        end
      else (0 <=? u) && (u <? 0x10000) && negb (is_low_surrogate u) && well_formed r
  end.

(** ** UTF-8 (runtime: [Buffer.from(s,'utf8')], [buf.toString('utf8')]) *)

Definition REPLACEMENT : Buffer := [0xEF; 0xBF; 0xBD].

Definition utf8_2 (c : Z) : Buffer := [0xC0 + c / 64; 0x80 + c mod 64].
Definition utf8_3 (c : Z) : Buffer :=
  [0xE0 + c / 4096; 0x80 + (c / 64) mod 64; 0x80 + c mod 64].
Definition utf8_4 (c : Z) : Buffer :=
  [0xF0 + c / 262144; 0x80 + (c / 4096) mod 64; 0x80 + (c / 64) mod 64; 0x80 + c mod 64].

(** Encoding of a string: a surrogate pair is one 4-byte sequence, a lone
    surrogate is encoded as U+FFFD. *)
Fixpoint utf8_encode (s : jsstring) : Buffer :=
  match s with
  | [] => []
  | u :: r =>
      if u <? 0x80 then u :: utf8_encode r
      else if u <? 0x800 then utf8_2 u ++ utf8_encode r
      else if is_high_surrogate u then
        match r with
        | l :: r' =>
            if is_low_surrogate l
            then utf8_4 (0x10000 + (u - 0xD800) * 1024 + (l - 0xDC00)) ++ utf8_encode r'
            else REPLACEMENT ++ utf8_encode r
        | [] => REPLACEMENT
        end
      else if is_low_surrogate u then REPLACEMENT ++ utf8_encode r
      else utf8_3 u ++ utf8_encode r
  end.

(** [Buffer.byteLength(s, 'utf8')] *)
Definition byteLength (s : jsstring) : N := N.of_nat (length (utf8_encode s)).

Definition is_cont (b : Z) : bool := (0x80 <=? b) && (b <=? 0xBF).

(** Allowed range of the second byte after a 3- or 4-byte lead. *)
Definition second_lo (b1 : Z) : Z :=
  if b1 =? 0xE0 then 0xA0 else if b1 =? 0xF0 then 0x90 else 0x80.
Definition second_hi (b1 : Z) : Z :=
  if b1 =? 0xED then 0x9F else if b1 =? 0xF4 then 0x8F else 0xBF.
Definition is_second (b1 b2 : Z) : bool := (second_lo b1 <=? b2) && (b2 <=? second_hi b1).

(** The two code units of a supplementary code point. *)
Definition surrogates (c : Z) : jsstring :=
  [0xD800 + (c - 0x10000) / 1024; 0xDC00 + (c - 0x10000) mod 1024].

(** Decoding with replacement: every maximal ill-formed subsequence yields
    one U+FFFD and decoding resumes at the offending byte. *)
Fixpoint utf8_decode (bs : Buffer) : jsstring :=
  match bs with
  | [] => []
  | b1 :: r1 =>
      if b1 <? 0x80 then b1 :: utf8_decode r1
      else if (0xC2 <=? b1) && (b1 <=? 0xDF) then
        match r1 with
        | b2 :: r2 =>
            if is_cont b2 then ((b1 - 0xC0) * 64 + (b2 - 0x80)) :: utf8_decode r2
            else 0xFFFD :: utf8_decode r1
        | [] => [0xFFFD]
        end
      else if (0xE0 <=? b1) && (b1 <=? 0xEF) then
        match r1 with
        | b2 :: r2 =>
            if is_second b1 b2 then
              match r2 with
              | b3 :: r3 =>
                  if is_cont b3
                  then ((b1 - 0xE0) * 4096 + (b2 - 0x80) * 64 + (b3 - 0x80)) :: utf8_decode r3
                  else 0xFFFD :: utf8_decode r2
              | [] => [0xFFFD]
              end
            else 0xFFFD :: utf8_decode r1
        | [] => [0xFFFD]
        end
      else if (0xF0 <=? b1) && (b1 <=? 0xF4) then
        match r1 with
        | b2 :: r2 =>
            if is_second b1 b2 then
              match r2 with
              | b3 :: r3 =>
                  if is_cont b3 then
                    match r3 with
                    | b4 :: r4 =>
                        if is_cont b4
                        then surrogates ((b1 - 0xF0) * 262144 + (b2 - 0x80) * 4096
                                         + (b3 - 0x80) * 64 + (b4 - 0x80)) ++ utf8_decode r4
                        else 0xFFFD :: utf8_decode r3
                    | [] => [0xFFFD]
                    end
                  else 0xFFFD :: utf8_decode r2
              | [] => [0xFFFD]
              end
            else 0xFFFD :: utf8_decode r1
        | [] => [0xFFFD]
        end
      else 0xFFFD :: utf8_decode r1
  end.

(** ** The header regular expression [/Content-Length:\s*(\d+)/i] *)

(** Case folding of the [i] flag without the [u] flag: only ASCII letters
    fold onto the ASCII letters of the pattern. *)
Definition canonicalize (u : Z) : Z :=
  if (0x61 <=? u) && (u <=? 0x7A) then u - 32 else u.

(** [\s]: white space and line terminators of ECMAScript. *)
Definition is_space (u : Z) : bool :=
  ((0x09 <=? u) && (u <=? 0x0D)) || (u =? 0x20) || (u =? 0xA0) || (u =? 0x1680)
  || ((0x2000 <=? u) && (u <=? 0x200A)) || (u =? 0x2028) || (u =? 0x2029)
  || (u =? 0x202F) || (u =? 0x205F) || (u =? 0x3000) || (u =? 0xFEFF).

(** [\d] *)
Definition is_digit (u : Z) : bool := (0x30 <=? u) && (u <=? 0x39).

Fixpoint match_literal_ci (pat s : jsstring) : option jsstring :=
  match pat with
  | [] => Some s
  | p :: pat' =>
      match s with
      | u :: s' => if canonicalize u =? canonicalize p then match_literal_ci pat' s' else None
      | [] => None
      end
  end.

Fixpoint skip_spaces (s : jsstring) : jsstring :=
  match s with
  | u :: r => if is_space u then skip_spaces r else s
  | [] => []
  end.

Fixpoint take_digits (s : jsstring) : jsstring :=
  match s with
  | u :: r => if is_digit u then u :: take_digits r else []
  | [] => []
  end.

(** The pattern anchored at the start of [s]; the result is capture group 1. *)
Definition match_here (s : jsstring) : option jsstring :=
  match match_literal_ci (str "Content-Length:") s with
  | Some r =>
      match take_digits (skip_spaces r) with
      | [] => None
      | d => Some d
      end
  | None => None
  end.

(** [header.match(/Content-Length:\s*(\d+)/i)]: leftmost match. *)
Fixpoint content_length_match (header : jsstring) : option jsstring :=
  match match_here header with
  | Some d => Some d
  | None =>
      match header with
      | [] => None
      | _ :: r => content_length_match r
      end
  end.

(** [parseInt(digits, 10)] on a non-empty run of decimal digits.  The
    result is kept exact: a length beyond 2^53 exceeds every buffer length,
    so the rounding of the runtime cannot change the comparison below. *)
Definition parseInt (digits : jsstring) : N :=
  fold_left (fun acc d => (10 * acc + Z.to_N (d - 0x30))%N) digits 0%N.

(** Decimal printing of a non-negative integer (template literal [${n}]). *)
Fixpoint decimal_loop (fuel : nat) (n : N) (acc : jsstring) : jsstring :=
  match fuel with
  | O => acc
  | S fuel' =>
      let acc' := (0x30 + Z.of_N (n mod 10)) :: acc in
      if (n <? 10)%N then acc' else decimal_loop fuel' (n / 10)%N acc'
  end.

Definition Number_toString (n : N) : jsstring :=
  decimal_loop (S (N.to_nat (N.size n))) n [].

(** ** Frame extraction *)

Definition HEADER_DELIMITER : Buffer := [13; 10; 13; 10].

Fixpoint starts_with (needle b : Buffer) : bool :=
  match needle with
  | [] => true
  | x :: needle' =>
      match b with
      | y :: b' => (x =? y) && starts_with needle' b'
      | [] => false
      end
  end.

(** [buf.indexOf(needle)], with [None] for -1. *)
Fixpoint indexOf (b needle : Buffer) : option nat :=
  if starts_with needle b then Some O
  else
    match b with
    | [] => None
    | _ :: b' => option_map S (indexOf b' needle)
    end.

(** [buf.slice(from, to)] for [from <= to]. *)
Definition slice (from to : nat) (b : Buffer) : Buffer :=
  firstn (to - from) (skipn from b).

Section Extract.
Context {St : Type}.
Variable onMessage : jsstring -> N -> St -> St.

(** The [while (true)] loop of [extractMessages]; [fuel] bounds the
    number of iterations. *)
Fixpoint extract_loop (fuel : nat) (remaining : Buffer) (st : St) : Buffer * St :=
  match fuel with
  | O => (remaining, st)
  | S fuel' =>
      match indexOf remaining HEADER_DELIMITER with
      | None => (remaining, st)
      | Some headerEnd =>
          let header := utf8_decode (slice 0 headerEnd remaining) in
          match content_length_match header with
          | None => extract_loop fuel' (skipn (headerEnd + 4) remaining) st
          | Some digits =>
              let contentLength := parseInt digits in
              let messageStart := (headerEnd + 4)%nat in
              let messageEnd := (N.of_nat messageStart + contentLength)%N in
              if (N.of_nat (length remaining) <? messageEnd)%N then (remaining, st)
              else
                let content :=
                  utf8_decode (slice messageStart (N.to_nat messageEnd) remaining) in
                extract_loop fuel' (skipn (N.to_nat messageEnd) remaining)
                  (onMessage content contentLength st)
          end
      end
  end.

(** Every iteration that does not stop consumes at least the four
    delimiter bytes, so [length buffer + 1] iterations always suffice. *)
Definition extractMessages (buffer : Buffer) (st : St) : Buffer * St :=
  extract_loop (S (length buffer)) buffer st.
End Extract.

(** ** JSON values (results of [JSON.parse]) *)

#[local] Set Warnings "-register-all".

(** Objects list their own properties in enumeration order.  A JavaScript
    value is an [option json], with [None] for [undefined]. *)
Inductive json : Type :=
| JNull
| JBool (b : bool)
| JNum (x : spec_float)
| JStr (s : jsstring)
| JArr (items : list json)
| JObj (props : list (jsstring * json)).

Fixpoint lookup_prop (key : jsstring) (props : list (jsstring * json)) : option json :=
  match props with
  | [] => None
  | (k, v) :: rest => if jsstring_eqb k key then Some v else lookup_prop key rest
  end.

(** [msg.key] for a value other than [null] (on [null] the access throws),
    on a result of [JSON.parse]: such a value has the built-in prototype
    of its kind, and the keys read by the bridge are on no built-in
    prototype. *)
Definition get_prop (msg : json) (key : jsstring) : option json :=
  match msg with
  | JObj props => lookup_prop key props
  | _ => None
  end.

(** [a === b]: by value on primitives, by identity on arrays and objects;
    two values that come from different [JSON.parse] calls never share an
    object. *)
Definition strict_eq (a : option json) (b : json) : bool :=
  match a, b with
  | Some JNull, JNull => true
  | Some (JBool x), JBool y => Bool.eqb x y
  | Some (JNum x), JNum y => SFeqb x y
  | Some (JStr x), JStr y => jsstring_eqb x y
  | _, _ => false
  end.

Definition is_defined (v : option json) : bool :=
  match v with Some _ => true | None => false end.

(** ** URI normalisation *)

Definition FILE_PREFIX : jsstring := str "file://".

Fixpoint startsWith (s prefix : jsstring) : bool :=
  match prefix with
  | [] => true
  | p :: prefix' =>
      match s with
      | u :: s' => (u =? p) && startsWith s' prefix'
      | [] => false
      end
  end.

Definition normalizeFileUri (uri : jsstring) : jsstring :=
  if match uri with [] => true | _ => false end || negb (startsWith uri FILE_PREFIX)
  then uri
  else
    let path := skipn 7 uri in
    let path := map (fun u => if u =? 0x5C then 0x2F else u) path in
    let path :=
      match path with
      | c :: _ => if negb (c =? 0x2F) then 0x2F :: path else path
      | [] => path
      end in
    FILE_PREFIX ++ path.

(** [result[key] = ...] on a fresh object literal: the key [__proto__]
    reaches the prototype setter and leaves no own property. *)
Definition is_proto_key (k : jsstring) : bool := jsstring_eqb k (str "__proto__").

Fixpoint normalizeUrisInObject (obj : json) : json :=
  match obj with
  | JStr s => if startsWith s FILE_PREFIX then JStr (normalizeFileUri s) else JStr s
  | JArr items => JArr (map normalizeUrisInObject items)
  | JObj props =>
      JObj ((fix entries (ps : list (jsstring * json)) : list (jsstring * json) :=
               match ps with
               | [] => []
               | (k, v) :: ps' =>
                   if is_proto_key k then entries ps'
                   else (k, normalizeUrisInObject v) :: entries ps'
               end) props)
  | other => other
  end.

(** ** Global state of the script *)

Record socket := { sock_id : nat; destroyed : bool }.

Record message := { content : jsstring; contentLength : N }.

Inductive effect :=
| StdoutWrite (data : jsstring)                 (* process.stdout.write *)
| SocketWrite (sock : socket) (data : jsstring) (* tcpSocket.write *).

Record state := {
  tcpSocket : option socket;
  tcpConnected : bool;
  tcpBuffer : Buffer;
  stdinBuffer : Buffer;
  pendingMessages : list message;
  waitingForInitialize : bool;
  initializeRequestId : json;
  bufferedNotifications : list message;
  isReconnecting : bool;
  isWarmingUp : bool;
  reconnectTimer : bool;      (* a reconnect timeout is armed *)
  reconnectAttempts : nat;
  wasInitialized : bool;
  shouldKeepRunning : bool;
  (* runtime bookkeeping *)
  warmupTimer : bool;         (* the warm-up timeout is armed *)
  socketsCreated : nat;       (* number of [new net.Socket()] so far *)
  out : list effect           (* all writes so far, oldest first *)
}.

Definition initial_state : state :=
  {| tcpSocket := None; tcpConnected := false; tcpBuffer := []; stdinBuffer := [];
     pendingMessages := []; waitingForInitialize := false; initializeRequestId := JNull;
     bufferedNotifications := []; isReconnecting := false; isWarmingUp := false;
     reconnectTimer := false; reconnectAttempts := 0; wasInitialized := false;
     shouldKeepRunning := true; warmupTimer := false; socketsCreated := 0; out := [] |}.

(** One updater per variable ([x = v] in the script). *)
Definition set_tcpSocket v st :=
  {| tcpSocket := v; tcpConnected := tcpConnected st; tcpBuffer := tcpBuffer st;
     stdinBuffer := stdinBuffer st; pendingMessages := pendingMessages st;
     waitingForInitialize := waitingForInitialize st;
     initializeRequestId := initializeRequestId st;
     bufferedNotifications := bufferedNotifications st; isReconnecting := isReconnecting st;
     isWarmingUp := isWarmingUp st; reconnectTimer := reconnectTimer st;
     reconnectAttempts := reconnectAttempts st; wasInitialized := wasInitialized st;
     shouldKeepRunning := shouldKeepRunning st; warmupTimer := warmupTimer st;
     socketsCreated := socketsCreated st; out := out st |}.
Definition set_tcpConnected v st :=
  {| tcpSocket := tcpSocket st; tcpConnected := v; tcpBuffer := tcpBuffer st;
     stdinBuffer := stdinBuffer st; pendingMessages := pendingMessages st;
     waitingForInitialize := waitingForInitialize st;
     initializeRequestId := initializeRequestId st;
     bufferedNotifications := bufferedNotifications st; isReconnecting := isReconnecting st;
     isWarmingUp := isWarmingUp st; reconnectTimer := reconnectTimer st;
     reconnectAttempts := reconnectAttempts st; wasInitialized := wasInitialized st;
     shouldKeepRunning := shouldKeepRunning st; warmupTimer := warmupTimer st;
     socketsCreated := socketsCreated st; out := out st |}.
Definition set_tcpBuffer v st :=
  {| tcpSocket := tcpSocket st; tcpConnected := tcpConnected st; tcpBuffer := v;
     stdinBuffer := stdinBuffer st; pendingMessages := pendingMessages st;
     waitingForInitialize := waitingForInitialize st;
     initializeRequestId := initializeRequestId st;
     bufferedNotifications := bufferedNotifications st; isReconnecting := isReconnecting st;
     isWarmingUp := isWarmingUp st; reconnectTimer := reconnectTimer st;
     reconnectAttempts := reconnectAttempts st; wasInitialized := wasInitialized st;
     shouldKeepRunning := shouldKeepRunning st; warmupTimer := warmupTimer st;
     socketsCreated := socketsCreated st; out := out st |}.
Definition set_stdinBuffer v st :=
  {| tcpSocket := tcpSocket st; tcpConnected := tcpConnected st; tcpBuffer := tcpBuffer st;
     stdinBuffer := v; pendingMessages := pendingMessages st;
     waitingForInitialize := waitingForInitialize st;
     initializeRequestId := initializeRequestId st;
     bufferedNotifications := bufferedNotifications st; isReconnecting := isReconnecting st;
     isWarmingUp := isWarmingUp st; reconnectTimer := reconnectTimer st;
     reconnectAttempts := reconnectAttempts st; wasInitialized := wasInitialized st;
     shouldKeepRunning := shouldKeepRunning st; warmupTimer := warmupTimer st;
     socketsCreated := socketsCreated st; out := out st |}.
Definition set_pendingMessages v st :=
  {| tcpSocket := tcpSocket st; tcpConnected := tcpConnected st; tcpBuffer := tcpBuffer st;
     stdinBuffer := stdinBuffer st; pendingMessages := v;
     waitingForInitialize := waitingForInitialize st;
     initializeRequestId := initializeRequestId st;
     bufferedNotifications := bufferedNotifications st; isReconnecting := isReconnecting st;
     isWarmingUp := isWarmingUp st; reconnectTimer := reconnectTimer st;
     reconnectAttempts := reconnectAttempts st; wasInitialized := wasInitialized st;
     shouldKeepRunning := shouldKeepRunning st; warmupTimer := warmupTimer st;
     socketsCreated := socketsCreated st; out := out st |}.
Definition set_waitingForInitialize v st :=
  {| tcpSocket := tcpSocket st; tcpConnected := tcpConnected st; tcpBuffer := tcpBuffer st;
     stdinBuffer := stdinBuffer st; pendingMessages := pendingMessages st;
     waitingForInitialize := v;
     initializeRequestId := initializeRequestId st;
     bufferedNotifications := bufferedNotifications st; isReconnecting := isReconnecting st;
     isWarmingUp := isWarmingUp st; reconnectTimer := reconnectTimer st;
     reconnectAttempts := reconnectAttempts st; wasInitialized := wasInitialized st;
     shouldKeepRunning := shouldKeepRunning st; warmupTimer := warmupTimer st;
     socketsCreated := socketsCreated st; out := out st |}.
Definition set_initializeRequestId v st :=
  {| tcpSocket := tcpSocket st; tcpConnected := tcpConnected st; tcpBuffer := tcpBuffer st;
     stdinBuffer := stdinBuffer st; pendingMessages := pendingMessages st;
     waitingForInitialize := waitingForInitialize st;
     initializeRequestId := v;
     bufferedNotifications := bufferedNotifications st; isReconnecting := isReconnecting st;
     isWarmingUp := isWarmingUp st; reconnectTimer := reconnectTimer st;
     reconnectAttempts := reconnectAttempts st; wasInitialized := wasInitialized st;
     shouldKeepRunning := shouldKeepRunning st; warmupTimer := warmupTimer st;
     socketsCreated := socketsCreated st; out := out st |}.
Definition set_bufferedNotifications v st :=
  {| tcpSocket := tcpSocket st; tcpConnected := tcpConnected st; tcpBuffer := tcpBuffer st;
     stdinBuffer := stdinBuffer st; pendingMessages := pendingMessages st;
     waitingForInitialize := waitingForInitialize st;
     initializeRequestId := initializeRequestId st;
     bufferedNotifications := v; isReconnecting := isReconnecting st;
     isWarmingUp := isWarmingUp st; reconnectTimer := reconnectTimer st;
     reconnectAttempts := reconnectAttempts st; wasInitialized := wasInitialized st;
     shouldKeepRunning := shouldKeepRunning st; warmupTimer := warmupTimer st;
     socketsCreated := socketsCreated st; out := out st |}.
Definition set_isReconnecting v st :=
  {| tcpSocket := tcpSocket st; tcpConnected := tcpConnected st; tcpBuffer := tcpBuffer st;
     stdinBuffer := stdinBuffer st; pendingMessages := pendingMessages st;
     waitingForInitialize := waitingForInitialize st;
     initializeRequestId := initializeRequestId st;
     bufferedNotifications := bufferedNotifications st; isReconnecting := v;
     isWarmingUp := isWarmingUp st; reconnectTimer := reconnectTimer st;
     reconnectAttempts := reconnectAttempts st; wasInitialized := wasInitialized st;
     shouldKeepRunning := shouldKeepRunning st; warmupTimer := warmupTimer st;
     socketsCreated := socketsCreated st; out := out st |}.
Definition set_isWarmingUp v st :=
  {| tcpSocket := tcpSocket st; tcpConnected := tcpConnected st; tcpBuffer := tcpBuffer st;
     stdinBuffer := stdinBuffer st; pendingMessages := pendingMessages st;
     waitingForInitialize := waitingForInitialize st;
     initializeRequestId := initializeRequestId st;
     bufferedNotifications := bufferedNotifications st; isReconnecting := isReconnecting st;
     isWarmingUp := v; reconnectTimer := reconnectTimer st;
     reconnectAttempts := reconnectAttempts st; wasInitialized := wasInitialized st;
     shouldKeepRunning := shouldKeepRunning st; warmupTimer := warmupTimer st;
     socketsCreated := socketsCreated st; out := out st |}.
Definition set_reconnectTimer v st :=
  {| tcpSocket := tcpSocket st; tcpConnected := tcpConnected st; tcpBuffer := tcpBuffer st;
     stdinBuffer := stdinBuffer st; pendingMessages := pendingMessages st;
     waitingForInitialize := waitingForInitialize st;
     initializeRequestId := initializeRequestId st;
     bufferedNotifications := bufferedNotifications st; isReconnecting := isReconnecting st;
     isWarmingUp := isWarmingUp st; reconnectTimer := v;
     reconnectAttempts := reconnectAttempts st; wasInitialized := wasInitialized st;
     shouldKeepRunning := shouldKeepRunning st; warmupTimer := warmupTimer st;
     socketsCreated := socketsCreated st; out := out st |}.
Definition set_reconnectAttempts v st :=
  {| tcpSocket := tcpSocket st; tcpConnected := tcpConnected st; tcpBuffer := tcpBuffer st;
     stdinBuffer := stdinBuffer st; pendingMessages := pendingMessages st;
     waitingForInitialize := waitingForInitialize st;
     initializeRequestId := initializeRequestId st;
     bufferedNotifications := bufferedNotifications st; isReconnecting := isReconnecting st;
     isWarmingUp := isWarmingUp st; reconnectTimer := reconnectTimer st;
     reconnectAttempts := v; wasInitialized := wasInitialized st;
     shouldKeepRunning := shouldKeepRunning st; warmupTimer := warmupTimer st;
     socketsCreated := socketsCreated st; out := out st |}.
Definition set_wasInitialized v st :=
  {| tcpSocket := tcpSocket st; tcpConnected := tcpConnected st; tcpBuffer := tcpBuffer st;
     stdinBuffer := stdinBuffer st; pendingMessages := pendingMessages st;
     waitingForInitialize := waitingForInitialize st;
     initializeRequestId := initializeRequestId st;
     bufferedNotifications := bufferedNotifications st; isReconnecting := isReconnecting st;
     isWarmingUp := isWarmingUp st; reconnectTimer := reconnectTimer st;
     reconnectAttempts := reconnectAttempts st; wasInitialized := v;
     shouldKeepRunning := shouldKeepRunning st; warmupTimer := warmupTimer st;
     socketsCreated := socketsCreated st; out := out st |}.
Definition set_warmupTimer v st :=
  {| tcpSocket := tcpSocket st; tcpConnected := tcpConnected st; tcpBuffer := tcpBuffer st;
     stdinBuffer := stdinBuffer st; pendingMessages := pendingMessages st;
     waitingForInitialize := waitingForInitialize st;
     initializeRequestId := initializeRequestId st;
     bufferedNotifications := bufferedNotifications st; isReconnecting := isReconnecting st;
     isWarmingUp := isWarmingUp st; reconnectTimer := reconnectTimer st;
     reconnectAttempts := reconnectAttempts st; wasInitialized := wasInitialized st;
     shouldKeepRunning := shouldKeepRunning st; warmupTimer := v;
     socketsCreated := socketsCreated st; out := out st |}.
Definition set_socketsCreated v st :=
  {| tcpSocket := tcpSocket st; tcpConnected := tcpConnected st; tcpBuffer := tcpBuffer st;
     stdinBuffer := stdinBuffer st; pendingMessages := pendingMessages st;
     waitingForInitialize := waitingForInitialize st;
     initializeRequestId := initializeRequestId st;
     bufferedNotifications := bufferedNotifications st; isReconnecting := isReconnecting st;
     isWarmingUp := isWarmingUp st; reconnectTimer := reconnectTimer st;
     reconnectAttempts := reconnectAttempts st; wasInitialized := wasInitialized st;
     shouldKeepRunning := shouldKeepRunning st; warmupTimer := warmupTimer st;
     socketsCreated := v; out := out st |}.
Definition set_out v st :=
  {| tcpSocket := tcpSocket st; tcpConnected := tcpConnected st; tcpBuffer := tcpBuffer st;
     stdinBuffer := stdinBuffer st; pendingMessages := pendingMessages st;
     waitingForInitialize := waitingForInitialize st;
     initializeRequestId := initializeRequestId st;
     bufferedNotifications := bufferedNotifications st; isReconnecting := isReconnecting st;
     isWarmingUp := isWarmingUp st; reconnectTimer := reconnectTimer st;
     reconnectAttempts := reconnectAttempts st; wasInitialized := wasInitialized st;
     shouldKeepRunning := shouldKeepRunning st; warmupTimer := warmupTimer st;
     socketsCreated := socketsCreated st; out := v |}.

(** Performing a write: the effect is appended to the trace. *)
Definition emit (e : effect) (st : state) : state := set_out (out st ++ [e]) st.

(** ** Serialisation of a frame *)

Definition CRLFCRLF : jsstring := [13; 10; 13; 10].

(** The template literal [`Content-Length: ${byteLength}\r\n\r\n${content}`] *)
Definition frame (byteLen : N) (c : jsstring) : jsstring :=
  str "Content-Length: " ++ Number_toString byteLen ++ CRLFCRLF ++ c.

(** Bytes put on the wire by [write(string)]. *)
Definition wire (data : jsstring) : Buffer := utf8_encode data.

Definition writeToStdout (c : jsstring) (len : N) (st : state) : state :=
  let byteLength := byteLength c in
  emit (StdoutWrite (frame byteLength c)) st.

(** [tcpSocket.write(...)]; the callers have checked that the socket exists. *)
Definition socket_write (data : jsstring) (st : state) : state :=
  match tcpSocket st with
  | Some sock => emit (SocketWrite sock data) st
  | None => st
  end.

(** [tcpSocket && !tcpSocket.destroyed] *)
Definition socket_usable (st : state) : bool :=
  match tcpSocket st with
  | Some sock => negb (destroyed sock)
  | None => false
  end.

(** The loop [for (const msg of pendingMessages) tcpSocket.write(...)]. *)
Definition flush_pending (st : state) : state :=
  fold_left
    (fun s msg => socket_write (frame (byteLength (content msg)) (content msg)) s)
    (pendingMessages st) st.

Definition RESTART_MESSAGE : jsstring :=
  str "Godot LSP server restarted. You may need to reopen files for diagnostics.".

(** The number 2 as a binary64 value. *)
Definition two : spec_float := S754_finite false 4503599627370496 (-51).

Section Bridge.
(** [JSON.parse] ([None] when it throws) and [JSON.stringify] of the
    runtime. *)
Variable JSON_parse : jsstring -> option json.
Variable JSON_stringify : json -> jsstring.

(** [msg.method === 'initialize' && msg.id !== undefined] *)
Definition is_initialize_request (msg : json) : bool :=
  strict_eq (get_prop msg (str "method")) (JStr (str "initialize"))
  && is_defined (get_prop msg (str "id")).

Definition sendToGodot (c : jsstring) (len : N) (st : state) : state :=
  let '(normalizedContent, st) :=
    match JSON_parse c with
    | None => (c, st)            (* JSON.parse throws: caught *)
    | Some JNull => (c, st)      (* msg.method throws on null: caught *)
    | Some msg =>
        let st :=
          if is_initialize_request msg then
            set_wasInitialized false
              (set_initializeRequestId
                 (match get_prop msg (str "id") with Some i => i | None => JNull end)
                 (set_waitingForInitialize true st))
          else st in
        (JSON_stringify (normalizeUrisInObject msg), st)
    end in
  if tcpConnected st && socket_usable st then
    socket_write (frame (byteLength normalizedContent) normalizedContent) st
  else
    set_pendingMessages
      (pendingMessages st ++
         [{| content := normalizedContent; contentLength := byteLength normalizedContent |}])
      st.

(** [msg.id === initializeRequestId && msg.result !== undefined] *)
Definition is_awaited_response (msg : json) (st : state) : bool :=
  strict_eq (get_prop msg (str "id")) (initializeRequestId st)
  && is_defined (get_prop msg (str "result")).

(** [msg.method !== undefined && msg.id === undefined] *)
Definition is_notification (msg : json) : bool :=
  is_defined (get_prop msg (str "method")) && negb (is_defined (get_prop msg (str "id"))).

(** [for (const notif of bufferedNotifications) writeToStdout(...)] *)
Definition flush_notifications (st : state) : state :=
  fold_left (fun s notif => writeToStdout (content notif) (contentLength notif) s)
    (bufferedNotifications st) st.

Definition handleGodotMessage (c : jsstring) (len : N) (st : state) : state :=
  match JSON_parse c with
  | None => writeToStdout c len st           (* catch: forward anyway *)
  | Some msg =>
      if waitingForInitialize st then
        match msg with
        | JNull => writeToStdout c len st    (* msg.id throws on null: caught *)
        | _ =>
            if is_awaited_response msg st then
              let st := writeToStdout c len st in
              let st := set_waitingForInitialize false st in
              let st := set_wasInitialized true st in
              let st := flush_notifications st in
              set_bufferedNotifications [] st
            else if is_notification msg then
              set_bufferedNotifications
                (bufferedNotifications st ++ [{| content := c; contentLength := len |}]) st
            else writeToStdout c len st
        end
      else writeToStdout c len st
  end.

Definition sendNotificationToClient (method : jsstring) (params : json) (st : state) : state :=
  let notification :=
    JObj [(str "jsonrpc", JStr (str "2.0")); (str "method", JStr method);
          (str "params", params)] in
  let c := JSON_stringify notification in
  writeToStdout c (byteLength c) st.

Definition restart_notification (st : state) : state :=
  sendNotificationToClient (str "window/showMessage")
    (JObj [(str "type", JNum two); (str "message", JStr RESTART_MESSAGE)]) st.

Definition resetConnectionState (st : state) : state :=
  let st := set_tcpConnected false st in
  let st := set_tcpBuffer [] st in
  let st := set_waitingForInitialize false st in
  let st := set_initializeRequestId JNull st in
  let st := set_bufferedNotifications [] st in
  set_tcpSocket None st.

(** Body of [connectToGodot]: a fresh socket; its callbacks follow. *)
Definition connectToGodot (st : state) : state :=
  let st := set_tcpSocket (Some {| sock_id := socketsCreated st; destroyed := false |}) st in
  set_socketsCreated (S (socketsCreated st)) st.

(** Callback of [tcpSocket.connect]. *)
Definition on_connect (st : state) : state :=
  let st := set_tcpConnected true st in
  let st := set_reconnectAttempts 0 st in
  if isReconnecting st then
    let st := set_pendingMessages [] st in
    let st := set_isReconnecting false st in
    let st := set_isWarmingUp true st in
    let st := set_warmupTimer true st in        (* setTimeout(..., WARMUP_DELAY) *)
    if wasInitialized st then restart_notification st else st
  else
    let st := flush_pending st in
    set_pendingMessages [] st.

(** Callback of the warm-up timeout. *)
Definition on_warmup_elapsed (st : state) : state :=
  let st := set_warmupTimer false st in
  let st := set_isWarmingUp false st in
  let st := flush_pending st in
  set_pendingMessages [] st.

Definition scheduleReconnect (st : state) : state :=
  let st := set_reconnectTimer false st in      (* clearTimeout *)
  if negb (shouldKeepRunning st) then st
  else
    (* MAX_RECONNECT_ATTEMPTS = -1: the cap is disabled *)
    let st := set_reconnectAttempts (S (reconnectAttempts st)) st in
    let st := set_isReconnecting true st in
    set_reconnectTimer true st.

(** ['close'] listener; the runtime has destroyed the socket. *)
Definition on_close (st : state) : state :=
  let st :=
    match tcpSocket st with
    | Some sock => set_tcpSocket (Some {| sock_id := sock_id sock; destroyed := true |}) st
    | None => st
    end in
  let st := set_tcpConnected false st in
  if negb (shouldKeepRunning st) then st else scheduleReconnect st.

(** Callback of the reconnect timeout, up to the [await]. *)
Definition on_reconnect_elapsed (st : state) : state :=
  let st := set_reconnectTimer false st in
  if negb (shouldKeepRunning st) then st
  else connectToGodot (resetConnectionState st).

(** The [catch] branch after a rejected reconnect attempt. *)
Definition on_reconnect_failed (st : state) : state := scheduleReconnect st.

(** ['data'] listener of the socket. *)
Definition on_tcp_data (data : Buffer) (st : state) : state :=
  let st := set_tcpBuffer (tcpBuffer st ++ data) st in
  let '(rest, st) := extractMessages handleGodotMessage (tcpBuffer st) st in
  set_tcpBuffer rest st.

(** The per-message callback of the stdin reader. *)
Definition stdin_message (c : jsstring) (len : N) (st : state) : state :=
  if negb (tcpConnected st) || isWarmingUp st then
    set_pendingMessages (pendingMessages st ++ [{| content := c; contentLength := len |}]) st
  else sendToGodot c len st.

(** ['data'] listener of standard input. *)
Definition on_stdin_data (chunk : Buffer) (st : state) : state :=
  let st := set_stdinBuffer (stdinBuffer st ++ chunk) st in
  let '(rest, st) := extractMessages stdin_message (stdinBuffer st) st in
  set_stdinBuffer rest st.

(** Events delivered by the event loop. *)
Inductive event :=
| StdinData (chunk : Buffer)
| TcpData (data : Buffer)
| TcpConnected
| TcpClosed
| WarmupElapsed
| ReconnectElapsed
| ReconnectFailed.

Definition step (st : state) (e : event) : state :=
  match e with
  | StdinData chunk => on_stdin_data chunk st
  | TcpData data => on_tcp_data data st
  | TcpConnected => on_connect st
  | TcpClosed => on_close st
  | WarmupElapsed => on_warmup_elapsed st
  | ReconnectElapsed => on_reconnect_elapsed st
  | ReconnectFailed => on_reconnect_failed st
  end.

Definition run (evs : list event) (st : state) : state := fold_left step evs st.

End Bridge.

(** ** The variant without reconnection ([index.mjs])

    Same state variables (those of the reconnection logic stay unused),
    same [extractMessages].  This variant prints the length it was handed
    instead of recomputing it, never transforms a payload, and its stdin
    reader always goes through [sendToGodot]. *)
Module Simple.
Section Bridge.
Variable JSON_parse : jsstring -> option json.

Definition writeToStdout (c : jsstring) (len : N) (st : state) : state :=
  emit (StdoutWrite (frame len c)) st.

Definition sendToGodot (c : jsstring) (len : N) (st : state) : state :=
  let st :=
    match JSON_parse c with
    | None => st                 (* JSON.parse throws: caught *)
    | Some JNull => st           (* msg.method throws on null: caught *)
    | Some msg =>
        if is_initialize_request msg then
          set_initializeRequestId
            (match get_prop msg (str "id") with Some i => i | None => JNull end)
            (set_waitingForInitialize true st)
        else st
    end in
  if tcpConnected st && socket_usable st then socket_write (frame len c) st
  else set_pendingMessages (pendingMessages st ++ [{| content := c; contentLength := len |}]) st.

Definition flush_notifications (st : state) : state :=
  fold_left (fun s notif => writeToStdout (content notif) (contentLength notif) s)
    (bufferedNotifications st) st.

Definition handleGodotMessage (c : jsstring) (len : N) (st : state) : state :=
  match JSON_parse c with
  | None => writeToStdout c len st
  | Some msg =>
      if waitingForInitialize st then
        match msg with
        | JNull => writeToStdout c len st
        | _ =>
            if is_awaited_response msg st then
              let st := writeToStdout c len st in
              let st := set_waitingForInitialize false st in
              let st := flush_notifications st in
              set_bufferedNotifications [] st
            else if is_notification msg then
              set_bufferedNotifications
                (bufferedNotifications st ++ [{| content := c; contentLength := len |}]) st
            else writeToStdout c len st
        end
      else writeToStdout c len st
  end.

(** Callback of [tcpSocket.connect]. *)
Definition on_connect (st : state) : state :=
  let st := set_tcpConnected true st in
  let st :=
    fold_left (fun s msg => socket_write (frame (contentLength msg) (content msg)) s)
      (pendingMessages st) st in
  set_pendingMessages [] st.

Definition on_tcp_data (data : Buffer) (st : state) : state :=
  let st := set_tcpBuffer (tcpBuffer st ++ data) st in
  let '(rest, st) := extractMessages handleGodotMessage (tcpBuffer st) st in
  set_tcpBuffer rest st.

Definition on_stdin_data (chunk : Buffer) (st : state) : state :=
  let st := set_stdinBuffer (stdinBuffer st ++ chunk) st in
  let '(rest, st) := extractMessages sendToGodot (stdinBuffer st) st in
  set_stdinBuffer rest st.

End Bridge.
End Simple.

(** ** Auxiliary notions used in the statements *)

(** Strings of ASCII characters only. *)
Definition is_ascii (s : jsstring) : bool := forallb (fun u => u <? 0x80) s.

(** Incremental delivery: the ['data'] listeners append each chunk to the
    carried-over buffer and run the extraction on the result. *)
Definition feed {St : Type} (onMessage : jsstring -> N -> St -> St)
    (chunks : list Buffer) (buffer : Buffer) (st : St) : Buffer * St :=
  fold_left (fun acc chunk => extractMessages onMessage (fst acc ++ chunk) (snd acc))
    chunks (buffer, st).

(** A callback that records the decoded payloads in order of delivery. *)
Definition collect (c : jsstring) (len : N) (acc : list (jsstring * N)) :
    list (jsstring * N) := acc ++ [(c, len)].

(** The bytes of a sequence of frames as [writeToStdout] and the socket
    writers print them. *)
Definition frame_bytes (c : jsstring) : Buffer := wire (frame (byteLength c) c).

Definition frames_bytes (payloads : list jsstring) : Buffer :=
  concat (map frame_bytes payloads).

(** Delivery of decoded payloads to a callback, in order. *)
Definition deliver {St : Type} (onMessage : jsstring -> N -> St -> St)
    (payloads : list jsstring) (st : St) : St :=
  fold_left (fun s c => onMessage c (byteLength c) s) payloads st.

(** One-byte-at-a-time delivery of a buffer. *)
Definition byte_by_byte (b : Buffer) : list Buffer := map (fun x => [x]) b.

(** What [writeToStdout] prints for a payload, and what a socket write of a
    payload puts on a socket. *)
Definition relay (c : jsstring) : effect := StdoutWrite (frame (byteLength c) c).
Definition sent (sock : socket) (c : jsstring) : effect :=
  SocketWrite sock (frame (byteLength c) c).

(** [!tcpConnected || isWarmingUp]: the connection is not deliverable. *)
Definition not_deliverable (st : state) : bool := negb (tcpConnected st) || isWarmingUp st.


Section Classification.
Variable JSON_parse : jsstring -> option json.

(** The text parses to a message whose id is the tracked id [t] and that
    has a result: the awaited initialize response. *)
Definition awaited (t : json) (c : jsstring) : bool :=
  match JSON_parse c with
  | Some msg =>
      strict_eq (get_prop msg (str "id")) t && is_defined (get_prop msg (str "result"))
  | None => false
  end.

(** The text parses to a message with a method and without an id. *)
Definition notification (c : jsstring) : bool :=
  match JSON_parse c with
  | Some msg => is_notification msg
  | None => false
  end.

(** The text parses and the message carries no id. *)
Definition carries_no_id (c : jsstring) : bool :=
  match JSON_parse c with
  | Some JNull => false
  | Some msg => negb (is_defined (get_prop msg (str "id")))
  | None => false
  end.

(** The text parses to an initialize request. *)
Definition initialize_request (c : jsstring) : bool :=
  match JSON_parse c with
  | Some msg => is_initialize_request msg
  | None => false
  end.

(** Handling of a run of inbound messages, oldest first. *)
Definition handle_all (msgs : list message) (st : state) : state :=
  fold_left (fun s m => handleGodotMessage JSON_parse (content m) (contentLength m) s)
    msgs st.
End Classification.

(** The queue entry of a payload staged by the stdin reader. *)
Definition entry (c : jsstring) : message := {| content := c; contentLength := byteLength c |}.

Section Payloads.
Variable JSON_parse : jsstring -> option json.
Variable JSON_stringify : json -> jsstring.

(** [normalizedContent] of [sendToGodot]: the payload after the URI
    transform, or the payload itself when it is not a JSON value with
    properties to read. *)
Definition forwarded_payload (c : jsstring) : jsstring :=
  match JSON_parse c with
  | None => c
  | Some JNull => c
  | Some msg => JSON_stringify (normalizeUrisInObject msg)
  end.

(** The handshake tracking done by [sendToGodot] on its way. *)
Definition tracked (c : jsstring) (st : state) : state :=
  match JSON_parse c with
  | None => st
  | Some JNull => st
  | Some msg =>
      if is_initialize_request msg then
        set_wasInitialized false
          (set_initializeRequestId
             (match get_prop msg (str "id") with Some i => i | None => JNull end)
             (set_waitingForInitialize true st))
      else st
  end.

(** The payload of the restart notification. *)
Definition restart_text : jsstring :=
  JSON_stringify
    (JObj [(str "jsonrpc", JStr (str "2.0"));
           (str "method", JStr (str "window/showMessage"));
           (str "params",
            JObj [(str "type", JNum two); (str "message", JStr RESTART_MESSAGE)])]).
End Payloads.

(** ** A small runtime for the examples

    [parse] is the table of the values [JSON.parse] returns on the sample
    texts below (any other text is treated as unparseable); [stringify]
    prints values made of objects, arrays, strings without control
    characters, booleans, null and integers the way [JSON.stringify] does. *)
Module Sample.

Definition quoted (s : string) : jsstring := [0x22] ++ str s ++ [0x22].

Definition one : spec_float := S754_finite false 4503599627370496 (-52).

(** [{}] *)
Definition empty_object : jsstring := str "{}".
(** [{"id":1,"method":"initialize"}] *)
Definition initialize_text : jsstring :=
  str "{" ++ quoted "id" ++ str ":1," ++ quoted "method" ++ str ":"
  ++ quoted "initialize" ++ str "}".
(** [{"id":1,"result":{}}] *)
Definition response_text : jsstring :=
  str "{" ++ quoted "id" ++ str ":1," ++ quoted "result" ++ str ":{}}".
(** [{"id":1,"error":{}}] *)
Definition error_text : jsstring :=
  str "{" ++ quoted "id" ++ str ":1," ++ quoted "error" ++ str ":{}}".
(** [{"method":"A"}], [{"method":"B"}], [{"method":"C"}] *)
Definition notification_text (name : string) : jsstring :=
  str "{" ++ quoted "method" ++ str ":" ++ quoted name ++ str "}".
(** [{"uri":"file://C:/a"}] *)
Definition uri_text : jsstring :=
  str "{" ++ quoted "uri" ++ str ":" ++ quoted "file://C:/a" ++ str "}".

Definition table : list (jsstring * json) :=
  [ (empty_object, JObj []);
    (initialize_text, JObj [(str "id", JNum one); (str "method", JStr (str "initialize"))]);
    (response_text, JObj [(str "id", JNum one); (str "result", JObj [])]);
    (error_text, JObj [(str "id", JNum one); (str "error", JObj [])]);
    (notification_text "A", JObj [(str "method", JStr (str "A"))]);
    (notification_text "B", JObj [(str "method", JStr (str "B"))]);
    (notification_text "C", JObj [(str "method", JStr (str "C"))]);
    (uri_text, JObj [(str "uri", JStr (str "file://C:/a"))]) ].

Definition parse (text : jsstring) : option json := lookup_prop text table.

Definition quote (s : jsstring) : jsstring :=
  [0x22] ++ flat_map (fun u => if (u =? 0x22) || (u =? 0x5C) then [0x5C; u] else [u]) s
  ++ [0x22].

(** Integers only; infinities and NaN print as [null]. *)
Definition number_text (x : spec_float) : jsstring :=
  match x with
  | S754_zero _ => str "0"
  | S754_finite s m e =>
      (if s then str "-" else [])
      ++ Number_toString (Z.to_N (if 0 <=? e then Z.pos m * 2 ^ e else Z.pos m / 2 ^ (- e)))
  | _ => str "null"
  end.

Fixpoint stringify (v : json) : jsstring :=
  match v with
  | JNull => str "null"
  | JBool b => if b then str "true" else str "false"
  | JNum x => number_text x
  | JStr s => quote s
  | JArr items =>
      str "["
      ++ (fix elements (l : list json) : jsstring :=
            match l with
            | [] => []
            | x :: r =>
                match r with
                | [] => stringify x
                | _ => stringify x ++ str "," ++ elements r
                end
            end) items
      ++ str "]"
  | JObj props =>
      str "{"
      ++ (fix members (l : list (jsstring * json)) : jsstring :=
            match l with
            | [] => []
            | (k, x) :: r =>
                match r with
                | [] => quote k ++ str ":" ++ stringify x
                | _ => quote k ++ str ":" ++ stringify x ++ str "," ++ members r
                end
            end) props
      ++ str "}"
  end.

Definition a_socket : socket := {| sock_id := 0; destroyed := false |}.

(** After [main] has started the first connection attempt. *)
Definition connecting : state := connectToGodot initial_state.

(** A connected session waiting for the response to initialize request 1. *)
Definition awaiting : state :=
  set_initializeRequestId (JNum one)
    (set_waitingForInitialize true (set_tcpConnected true connecting)).

(** A connected session whose handshake has completed. *)
Definition initialized : state := set_wasInitialized true (set_tcpConnected true connecting).

End Sample.


(** The connect callback is the only event that ends a reconnection. *)
Definition is_connect (e : event) : bool :=
  match e with TcpConnected => true | _ => false end.

(** Bytes are integers in [0, 255]. *)
Definition is_bytes (b : Buffer) : bool := forallb (fun x => (0 <=? x) && (x <? 256)) b.

(** The events whose callbacks assign [bufferedNotifications]: bytes from
    the peer ([handleGodotMessage]) and the reconnect timeout
    ([resetConnectionState]). *)
Definition touches_held (e : event) : bool :=
  match e with TcpData _ | ReconnectElapsed => true | _ => false end.

(** What the variant without reconnection prints for a held or relayed
    message: the length is the one received with it. *)
Definition relay_as_received (m : message) : effect :=
  StdoutWrite (frame (contentLength m) (content m)).

(** ** Further notions used in the statements *)

(** Header lines after the length field: none, or text that starts with a
    line break. *)
Definition header_lines (extra : Buffer) : bool :=
  match extra with
  | [] => true
  | a :: b :: _ => (a =? 13) && (b =? 10)
  | _ => false
  end.

(** A frame as a sender may print it: the length field, further header
    lines, the delimiter, the bytes of the body. *)
Definition raw_frame (extra body : Buffer) : Buffer :=
  str "Content-Length: " ++ Number_toString (N.of_nat (length body)) ++ extra
  ++ HEADER_DELIMITER ++ body.

(** Delivery of collected messages to a callback. *)
Definition replay {St : Type} (onMessage : jsstring -> N -> St -> St)
    (msgs : list (jsstring * N)) (st : St) : St :=
  fold_left (fun s m => onMessage (fst m) (snd m) s) msgs st.

(** Bytes accounted for by the delivered messages: each body and its
    delimiter. *)
Definition consumed (msgs : list (jsstring * N)) : N :=
  fold_right (fun m acc => (snd m + 4 + acc)%N) 0%N msgs.

(** The bytes a trace puts on standard output, and on the sockets. *)
Definition stdout_bytes (es : list effect) : Buffer :=
  concat (map (fun e => match e with StdoutWrite d => wire d | SocketWrite _ _ => [] end) es).

Definition socket_bytes (es : list effect) : Buffer :=
  concat (map (fun e => match e with SocketWrite _ d => wire d | StdoutWrite _ => [] end) es).

(** Induction on JSON values, through arrays and objects. *)
Section JsonInduction.
Variable P : json -> Prop.
Hypothesis Hnull : P JNull.
Hypothesis Hbool : forall b, P (JBool b).
Hypothesis Hnum : forall x, P (JNum x).
Hypothesis Hstr : forall s, P (JStr s).
Hypothesis Harr : forall items, Forall P items -> P (JArr items).
Hypothesis Hobj : forall props, Forall (fun kv => P (snd kv)) props -> P (JObj props).

Fixpoint json_induction (v : json) : P v :=
  match v with
  | JNull => Hnull
  | JBool b => Hbool b
  | JNum x => Hnum x
  | JStr s => Hstr s
  | JArr items =>
      Harr items
        ((fix all (l : list json) : Forall P l :=
            match l with
            | [] => Forall_nil P
            | x :: r => Forall_cons x (json_induction x) (all r)
            end) items)
  | JObj props =>
      Hobj props
        ((fix all (l : list (jsstring * json)) : Forall (fun kv => P (snd kv)) l :=
            match l with
            | [] => Forall_nil _
            | (k, x) :: r =>
                Forall_cons (P := fun kv => P (snd kv)) (k, x) (json_induction x) (all r)
            end) props)
  end.
End JsonInduction.

(** Values the normalisation has nothing to do on: every string that
    starts with the prefix is already in normal form and no object has the
    key [__proto__]. *)
Fixpoint normal (v : json) : bool :=
  match v with
  | JStr s => negb (startsWith s FILE_PREFIX) || jsstring_eqb (normalizeFileUri s) s
  | JArr items => forallb normal items
  | JObj props =>
      forallb (fun kv => negb (is_proto_key (fst kv)) && normal (snd kv)) props
  | _ => true
  end.

(** The two rewriting steps of [normalizeFileUri] on the path:
    [path.replace(/\\/g, '/')] and the leading slash. *)
Definition to_slashes (path : jsstring) : jsstring :=
  map (fun u => if u =? 0x5C then 0x2F else u) path.

Definition with_root (path : jsstring) : jsstring :=
  match path with
  | c :: _ => if negb (c =? 0x2F) then 0x2F :: path else path
  | [] => path
  end.

(** The text is not JSON, or is JSON without properties to read: [null],
    a boolean, a number, a string or an array. *)
Definition without_properties (JSON_parse : jsstring -> option json) (c : jsstring) : bool :=
  match JSON_parse c with
  | Some (JObj _) => false
  | _ => true
  end.

(** Notifications are held back only while a handshake is open. *)
Definition held_only_in_handshake (st : state) : Prop :=
  waitingForInitialize st = true \/ bufferedNotifications st = [].

(** The variables of the connection life cycle are the same in [s'] as in
    [s]. *)
Definition same_connection (s s' : state) : Prop :=
  tcpSocket s' = tcpSocket s
  /\ tcpConnected s' = tcpConnected s
  /\ isReconnecting s' = isReconnecting s
  /\ isWarmingUp s' = isWarmingUp s
  /\ reconnectTimer s' = reconnectTimer s
  /\ reconnectAttempts s' = reconnectAttempts s
  /\ shouldKeepRunning s' = shouldKeepRunning s
  /\ warmupTimer s' = warmupTimer s
  /\ socketsCreated s' = socketsCreated s
  /\ stdinBuffer s' = stdinBuffer s.

(** Events that can occur while no connection is open. *)
Definition offline_event (e : event) : bool :=
  match e with
  | StdinData _ | TcpClosed | ReconnectElapsed | ReconnectFailed => true
  | _ => false
  end.

Definition is_expiry (e : event) : bool :=
  match e with ReconnectElapsed => true | _ => false end.

Definition is_stdin (e : event) : bool :=
  match e with StdinData _ => true | _ => false end.

(** A socket after the runtime has destroyed it. *)
Definition destroyed_socket (sock : socket) : socket :=
  {| sock_id := sock_id sock; destroyed := true |}.

(** The handshake tracking done by [sendToGodot] of the variant without
    reconnection, and the handling of a run of client messages there. *)
Definition simple_tracked (JSON_parse : jsstring -> option json) (c : jsstring)
    (st : state) : state :=
  match JSON_parse c with
  | None => st
  | Some JNull => st
  | Some msg =>
      if is_initialize_request msg then
        set_initializeRequestId
          (match get_prop msg (str "id") with Some i => i | None => JNull end)
          (set_waitingForInitialize true st)
      else st
  end.

Definition simple_send_all (JSON_parse : jsstring -> option json) (msgs : list message)
    (st : state) : state :=
  fold_left (fun s m => Simple.sendToGodot JSON_parse (content m) (contentLength m) s) msgs st.



(** * Properties *)

(** ** Boolean tests as propositions *)

Ltac bool_to_prop :=
  repeat match goal with
  | H : (_ && _) = true |- _ => apply andb_true_iff in H; destruct H
  | H : (_ || _) = false |- _ => apply orb_false_iff in H; destruct H
  | H : negb _ = true |- _ => apply negb_true_iff in H
  | H : negb _ = false |- _ => apply negb_false_iff in H
  | H : (_ <? _) = true |- _ => apply Z.ltb_lt in H
  | H : (_ <? _) = false |- _ => apply Z.ltb_ge in H
  | H : (_ <=? _) = true |- _ => apply Z.leb_le in H
  | H : (_ <=? _) = false |- _ => apply Z.leb_gt in H
  | H : (_ =? _) = true |- _ => apply Z.eqb_eq in H
  | H : (_ =? _) = false |- _ => apply Z.eqb_neq in H
  end.

Ltac split_bool :=
  repeat match goal with
  | H : (_ && _) = false |- _ => apply andb_false_iff in H; destruct H
  | H : (_ || _) = true |- _ => apply orb_true_iff in H; destruct H
  end.

Ltac arith := bool_to_prop; split_bool; bool_to_prop; Z.to_euclidean_division_equations; lia.

(** Decide a comparison on bytes from the arithmetic context. *)
Ltac test_true :=
  match goal with
  | |- (_ && _) = true => apply andb_true_iff; split; test_true
  | |- (_ <? _) = true => apply Z.ltb_lt; arith
  | |- (_ <=? _) = true => apply Z.leb_le; arith
  | |- (_ =? _) = true => apply Z.eqb_eq; arith
  end.

Ltac test_false :=
  match goal with
  | |- (_ <? _) = false => apply Z.ltb_ge; arith
  | |- (_ <=? _) = false => apply Z.leb_gt; arith
  | |- (_ =? _) = false => apply Z.eqb_neq; arith
  | |- (_ && _) = false => apply andb_false_iff; (left; test_false) || (right; test_false)
  end.

(** Projections of updated states. *)
Ltac fields :=
  cbn [tcpSocket tcpConnected tcpBuffer stdinBuffer pendingMessages waitingForInitialize
       initializeRequestId bufferedNotifications isReconnecting isWarmingUp reconnectTimer
       reconnectAttempts wasInitialized shouldKeepRunning warmupTimer socketsCreated out
       set_tcpSocket set_tcpConnected set_tcpBuffer set_stdinBuffer set_pendingMessages
       set_waitingForInitialize set_initializeRequestId set_bufferedNotifications
       set_isReconnecting set_isWarmingUp set_reconnectTimer set_reconnectAttempts
       set_wasInitialized set_warmupTimer set_socketsCreated set_out emit
       sock_id destroyed content contentLength].

(** ** UTF-8 round trip *)

Lemma decode_ascii u rest :
  u < 0x80 -> utf8_decode (u :: rest) = u :: utf8_decode rest.
Proof.
  intros H. cbn [utf8_decode]. replace (u <? 0x80) with true by (symmetry; test_true).
  reflexivity.
Qed.

Lemma decode_2 u rest :
  0x80 <= u < 0x800 -> utf8_decode (utf8_2 u ++ rest) = u :: utf8_decode rest.
Proof.
  intros H. unfold utf8_2. cbn [app utf8_decode].
  replace (0xC0 + u / 64 <? 0x80) with false by (symmetry; test_false).
  replace ((0xC2 <=? 0xC0 + u / 64) && (0xC0 + u / 64 <=? 0xDF)) with true
    by (symmetry; test_true).
  replace (is_cont (0x80 + u mod 64)) with true by (symmetry; unfold is_cont; test_true).
  f_equal. arith.
Qed.

Lemma second_3 u :
  0x800 <= u < 0x10000 -> is_high_surrogate u = false -> is_low_surrogate u = false ->
  is_second (0xE0 + u / 4096) (0x80 + (u / 64) mod 64) = true.
Proof.
  intros H Hh Hl. unfold is_second, second_lo, second_hi, is_high_surrogate, is_low_surrogate in *.
  repeat match goal with
         | |- context [if ?c then _ else _] => destruct c eqn:?
         end; test_true.
Qed.

Lemma decode_3 u rest :
  0x800 <= u < 0x10000 -> is_high_surrogate u = false -> is_low_surrogate u = false ->
  utf8_decode (utf8_3 u ++ rest) = u :: utf8_decode rest.
Proof.
  intros H Hh Hl. unfold utf8_3. cbn [app utf8_decode].
  replace (0xE0 + u / 4096 <? 0x80) with false by (symmetry; test_false).
  replace ((0xC2 <=? 0xE0 + u / 4096) && (0xE0 + u / 4096 <=? 0xDF)) with false
    by (symmetry; test_false).
  replace ((0xE0 <=? 0xE0 + u / 4096) && (0xE0 + u / 4096 <=? 0xEF)) with true
    by (symmetry; test_true).
  rewrite second_3 by assumption.
  replace (is_cont (0x80 + u mod 64)) with true by (symmetry; unfold is_cont; test_true).
  f_equal. arith.
Qed.

Lemma second_4 c :
  0x10000 <= c < 0x110000 ->
  is_second (0xF0 + c / 262144) (0x80 + (c / 4096) mod 64) = true.
Proof.
  intros H. unfold is_second, second_lo, second_hi.
  repeat match goal with
         | |- context [if ?c then _ else _] => destruct c eqn:?
         end; test_true.
Qed.

Lemma decode_4 c rest :
  0x10000 <= c < 0x110000 ->
  utf8_decode (utf8_4 c ++ rest) = surrogates c ++ utf8_decode rest.
Proof.
  intros H. unfold utf8_4. cbn [app utf8_decode].
  replace (0xF0 + c / 262144 <? 0x80) with false by (symmetry; test_false).
  replace ((0xC2 <=? 0xF0 + c / 262144) && (0xF0 + c / 262144 <=? 0xDF)) with false
    by (symmetry; test_false).
  replace ((0xE0 <=? 0xF0 + c / 262144) && (0xF0 + c / 262144 <=? 0xEF)) with false
    by (symmetry; test_false).
  replace ((0xF0 <=? 0xF0 + c / 262144) && (0xF0 + c / 262144 <=? 0xF4)) with true
    by (symmetry; test_true).
  rewrite second_4 by assumption.
  replace (is_cont (0x80 + (c / 64) mod 64)) with true by (symmetry; unfold is_cont; test_true).
  replace (is_cont (0x80 + c mod 64)) with true by (symmetry; unfold is_cont; test_true).
  f_equal. f_equal. arith.
Qed.

Lemma surrogates_pair h l :
  is_high_surrogate h = true -> is_low_surrogate l = true ->
  surrogates (0x10000 + (h - 0xD800) * 1024 + (l - 0xDC00)) = [h; l].
Proof.
  unfold is_high_surrogate, is_low_surrogate, surrogates. intros Hh Hl.
  f_equal; [|f_equal]; arith.
Qed.

Lemma utf8_roundtrip_len n :
  forall s, (length s <= n)%nat -> well_formed s = true -> utf8_decode (utf8_encode s) = s.
Proof.
  induction n as [|n IH]; intros s Hlen Hwf.
  - destruct s; [reflexivity | simpl in Hlen; lia].
  - destruct s as [|u r]; [reflexivity|].
    cbn [utf8_encode well_formed] in *.
    destruct (is_high_surrogate u) eqn:Hh.
    + destruct r as [|l r']; [discriminate|].
      apply andb_true_iff in Hwf. destruct Hwf as [Hl Hwf].
      replace (u <? 0x80) with false
        by (symmetry; unfold is_high_surrogate in Hh; test_false).
      replace (u <? 0x800) with false
        by (symmetry; unfold is_high_surrogate in Hh; test_false).
      rewrite Hl, decode_4, surrogates_pair by
        (assumption || (unfold is_high_surrogate, is_low_surrogate in *; arith)).
      cbn [app]. rewrite IH; [reflexivity | simpl in Hlen; lia | assumption].
    + apply andb_true_iff in Hwf. destruct Hwf as [Hwf Hr].
      apply andb_true_iff in Hwf. destruct Hwf as [Hrange Hl].
      apply negb_true_iff in Hl.
      assert (Hrec : utf8_decode (utf8_encode r) = r)
        by (apply IH; [simpl in Hlen; lia | assumption]).
      destruct (u <? 0x80) eqn:H1.
      * rewrite decode_ascii by arith. now rewrite Hrec.
      * destruct (u <? 0x800) eqn:H2.
        -- rewrite decode_2 by arith. now rewrite Hrec.
        -- rewrite Hl, decode_3 by (assumption || arith). now rewrite Hrec.
Qed.

Lemma utf8_roundtrip s : well_formed s = true -> utf8_decode (utf8_encode s) = s.
Proof. apply (utf8_roundtrip_len (length s)). lia. Qed.

(** *** Decoded text is always well formed *)

Lemma well_formed_bmp u r :
  0 <= u < 0x10000 -> is_high_surrogate u = false -> is_low_surrogate u = false ->
  well_formed r = true -> well_formed (u :: r) = true.
Proof.
  intros Hu Hh Hl Hr. cbn [well_formed]. rewrite Hh, Hl, Hr.
  replace (0 <=? u) with true by (symmetry; test_true).
  replace (u <? 0x10000) with true by (symmetry; test_true). reflexivity.
Qed.

Lemma well_formed_replacement r : well_formed r = true -> well_formed (0xFFFD :: r) = true.
Proof. intros Hr. cbn [well_formed]. change (is_high_surrogate 0xFFFD) with false.
  cbn iota. rewrite Hr. reflexivity.
Qed.

Lemma well_formed_surrogates c r :
  0x10000 <= c < 0x110000 -> well_formed r = true -> well_formed (surrogates c ++ r) = true.
Proof.
  intros Hc Hr. unfold surrogates. cbn [app well_formed].
  replace (is_high_surrogate (0xD800 + (c - 0x10000) / 1024)) with true
    by (symmetry; unfold is_high_surrogate; test_true).
  replace (is_low_surrogate (0xDC00 + (c - 0x10000) mod 1024)) with true
    by (symmetry; unfold is_low_surrogate; test_true).
  exact Hr.
Qed.

Lemma utf8_decode_well_formed_len n : forall bs,
  (length bs <= n)%nat ->
  is_bytes bs = true ->
  well_formed (utf8_decode bs) = true.
Proof.
  unfold is_bytes.
  induction n as [|n IH]; intros bs Hlen Hbytes.
  - destruct bs; [reflexivity | cbn [length] in Hlen; lia].
  - destruct bs as [|b1 r1]; [reflexivity|].
    cbn [length forallb] in Hlen, Hbytes.
    apply andb_true_iff in Hbytes. destruct Hbytes as [Hb1 Hr1].
    assert (W1 : well_formed (utf8_decode r1) = true) by (apply IH; [lia|assumption]).
    cbn [utf8_decode].
    destruct (b1 <? 0x80) eqn:T1.
    { apply well_formed_bmp; try assumption;
        unfold is_high_surrogate, is_low_surrogate; try test_false. arith. }
    destruct ((0xC2 <=? b1) && (b1 <=? 0xDF)) eqn:T2.
    { destruct r1 as [|b2 r2]; [reflexivity|].
      cbn [length forallb] in Hlen, Hr1.
      apply andb_true_iff in Hr1. destruct Hr1 as [Hb2 Hr2].
      destruct (is_cont b2) eqn:C2; [|now apply well_formed_replacement].
      unfold is_cont in C2.
      apply well_formed_bmp;
        [ arith
        | unfold is_high_surrogate; test_false
        | unfold is_low_surrogate; test_false
        | apply IH; [lia|assumption] ]. }
    destruct ((0xE0 <=? b1) && (b1 <=? 0xEF)) eqn:T3.
    { destruct r1 as [|b2 r2]; [reflexivity|].
      cbn [length forallb] in Hlen, Hr1.
      apply andb_true_iff in Hr1. destruct Hr1 as [Hb2 Hr2].
      destruct (is_second b1 b2) eqn:S2; [|now apply well_formed_replacement].
      destruct r2 as [|b3 r3]; [reflexivity|].
      cbn [length forallb] in Hlen, Hr2.
      apply andb_true_iff in Hr2. destruct Hr2 as [Hb3 Hr3].
      destruct (is_cont b3) eqn:C3;
        [|apply well_formed_replacement, IH; [cbn [length]; lia|];
          cbn [forallb]; now rewrite Hb3].
      unfold is_cont in C3. unfold is_second, second_lo, second_hi in S2.
      assert (Hrange : 0x800 <= (b1 - 0xE0) * 4096 + (b2 - 0x80) * 64 + (b3 - 0x80) < 0x10000
                       /\ ((b1 - 0xE0) * 4096 + (b2 - 0x80) * 64 + (b3 - 0x80) < 0xD800
                           \/ 0xE000 <= (b1 - 0xE0) * 4096 + (b2 - 0x80) * 64 + (b3 - 0x80))).
      { destruct (b1 =? 0xE0) eqn:E0; destruct (b1 =? 0xED) eqn:ED;
          destruct (b1 =? 0xF0) eqn:F0; destruct (b1 =? 0xF4) eqn:F4; arith. }
      apply well_formed_bmp;
        [ lia
        | unfold is_high_surrogate; apply andb_false_iff;
          destruct Hrange as [_ [H|H]]; [left; apply Z.leb_gt | right; apply Z.leb_gt]; lia
        | unfold is_low_surrogate; apply andb_false_iff;
          destruct Hrange as [H0 [H|H]]; [left; apply Z.leb_gt | right; apply Z.leb_gt]; lia
        | apply IH; [lia|assumption] ]. }
    destruct ((0xF0 <=? b1) && (b1 <=? 0xF4)) eqn:T4;
      [|now apply well_formed_replacement].
    destruct r1 as [|b2 r2]; [reflexivity|].
    cbn [length forallb] in Hlen, Hr1.
    apply andb_true_iff in Hr1. destruct Hr1 as [Hb2 Hr2].
    destruct (is_second b1 b2) eqn:S2; [|now apply well_formed_replacement].
    destruct r2 as [|b3 r3]; [reflexivity|].
    cbn [length forallb] in Hlen, Hr2.
    apply andb_true_iff in Hr2. destruct Hr2 as [Hb3 Hr3].
    destruct (is_cont b3) eqn:C3;
      [|apply well_formed_replacement, IH; [cbn [length]; lia|];
        cbn [forallb]; now rewrite Hb3].
    destruct r3 as [|b4 r4]; [reflexivity|].
    cbn [length forallb] in Hlen, Hr3.
    apply andb_true_iff in Hr3. destruct Hr3 as [Hb4 Hr4].
    destruct (is_cont b4) eqn:C4;
      [|apply well_formed_replacement, IH; [cbn [length]; lia|];
        cbn [forallb]; now rewrite Hb4].
    unfold is_cont in C3, C4. unfold is_second, second_lo, second_hi in S2.
    apply well_formed_surrogates; [|apply IH; [lia|assumption]].
    destruct (b1 =? 0xE0) eqn:E0; destruct (b1 =? 0xED) eqn:ED;
      destruct (b1 =? 0xF0) eqn:F0; destruct (b1 =? 0xF4) eqn:F4; arith.
Qed.

(** Whatever bytes arrive, [toString('utf8')] yields well-formed text: the
    payloads handed to the callbacks satisfy the hypothesis of the round
    trip. *)
Lemma utf8_decode_well_formed bs :
  is_bytes bs = true ->
  well_formed (utf8_decode bs) = true.
Proof. apply (utf8_decode_well_formed_len (length bs)). lia. Qed.

(** ** ASCII text *)

Lemma encode_ascii_app a s : is_ascii a = true -> utf8_encode (a ++ s) = a ++ utf8_encode s.
Proof.
  induction a as [|u a IH]; intros H; [reflexivity|].
  cbn [is_ascii forallb] in H. apply andb_true_iff in H. destruct H as [Hu Ha].
  cbn [app utf8_encode]. rewrite Hu. f_equal. now apply IH.
Qed.

Lemma decode_ascii_app a bs : is_ascii a = true -> utf8_decode (a ++ bs) = a ++ utf8_decode bs.
Proof.
  induction a as [|u a IH]; intros H; [reflexivity|].
  cbn [is_ascii forallb] in H. apply andb_true_iff in H. destruct H as [Hu Ha].
  cbn [app]. rewrite decode_ascii by arith. f_equal. now apply IH.
Qed.

Lemma is_ascii_app a b : is_ascii (a ++ b) = is_ascii a && is_ascii b.
Proof. apply forallb_app. Qed.

(** ** Decimal printing and [parseInt] *)

Lemma decimal_loop_acc fuel : forall n acc,
  decimal_loop fuel n acc = decimal_loop fuel n [] ++ acc.
Proof.
  induction fuel as [|f IH]; intros n acc; [reflexivity|].
  cbn [decimal_loop]. destruct (n <? 10)%N; [reflexivity|].
  rewrite (IH _ (_ :: acc)), (IH _ [_]), <- app_assoc. reflexivity.
Qed.

Lemma decimal_loop_digits fuel : forall n acc,
  forallb is_digit acc = true -> forallb is_digit (decimal_loop fuel n acc) = true.
Proof.
  induction fuel as [|f IH]; intros n acc H; [assumption|].
  cbn [decimal_loop].
  assert (Hd : is_digit (0x30 + Z.of_N (n mod 10)) = true).
  { unfold is_digit. assert (n mod 10 < 10)%N by (apply N.mod_upper_bound; lia).
    set (m := (n mod 10)%N) in *. clearbody m.
    apply andb_true_iff; split; apply Z.leb_le; lia. }
  destruct (n <? 10)%N; [|apply IH]; cbn [forallb]; now rewrite Hd.
Qed.

Lemma decimal_loop_nonempty fuel n : decimal_loop (S fuel) n [] <> [].
Proof.
  cbn [decimal_loop]. destruct (n <? 10)%N; [discriminate|].
  rewrite decimal_loop_acc. intros H. apply app_eq_nil in H. destruct H. discriminate.
Qed.

Lemma parse_decimal_loop fuel : forall n acc,
  (n < 2 ^ N.of_nat fuel)%N ->
  fold_left (fun a d => (10 * a + Z.to_N (d - 0x30))%N) (decimal_loop fuel n acc) 0%N
  = fold_left (fun a d => (10 * a + Z.to_N (d - 0x30))%N) acc n.
Proof.
  induction fuel as [|f IH]; intros n acc Hn.
  - cbn [decimal_loop]. change (2 ^ N.of_nat 0)%N with 1%N in Hn.
    replace n with 0%N by lia. reflexivity.
  - cbn [decimal_loop].
    assert (Hd : Z.to_N (0x30 + Z.of_N (n mod 10) - 0x30) = (n mod 10)%N).
    { generalize (n mod 10)%N. intros m. lia. }
    destruct (N.ltb_spec n 10).
    + cbn [fold_left]. rewrite Hd, N.mod_small by assumption. reflexivity.
    + rewrite IH.
      * cbn [fold_left]. rewrite Hd. f_equal.
        pose proof (N.div_mod n 10). lia.
      * rewrite Nat2N.inj_succ, N.pow_succ_r' in Hn.
        apply N.Div0.div_lt_upper_bound. lia.
Qed.

Lemma parseInt_Number_toString n : parseInt (Number_toString n) = n.
Proof.
  unfold parseInt, Number_toString. rewrite parse_decimal_loop; [reflexivity|].
  rewrite Nat2N.inj_succ, N2Nat.id, N.pow_succ_r'.
  pose proof (N.size_gt n). lia.
Qed.

Lemma Number_toString_digits n : forallb is_digit (Number_toString n) = true.
Proof. apply decimal_loop_digits. reflexivity. Qed.

Lemma Number_toString_nonempty n : Number_toString n <> [].
Proof. apply decimal_loop_nonempty. Qed.

Lemma digits_ascii s : forallb is_digit s = true -> is_ascii s = true.
Proof.
  unfold is_ascii. induction s as [|u s IH]; [reflexivity|].
  cbn [forallb]. intros H. apply andb_true_iff in H. destruct H as [Hu Hs].
  rewrite IH by assumption. unfold is_digit in Hu.
  replace (u <? 0x80) with true by (symmetry; test_true). reflexivity.
Qed.

(** ** The header pattern on a printed header *)

Lemma take_digits_all s : forallb is_digit s = true -> take_digits s = s.
Proof.
  induction s as [|u s IH]; [reflexivity|].
  cbn [forallb take_digits]. intros H. apply andb_true_iff in H. destruct H as [Hu Hs].
  rewrite Hu, IH by assumption. reflexivity.
Qed.

Lemma digit_not_space u : is_digit u = true -> is_space u = false.
Proof.
  unfold is_digit, is_space. intros H.
  repeat (apply orb_false_iff; split); test_false.
Qed.

Lemma skip_spaces_digits s : forallb is_digit s = true -> skip_spaces s = s.
Proof.
  destruct s as [|u s]; [reflexivity|].
  cbn [forallb skip_spaces]. intros H. apply andb_true_iff in H. destruct H as [Hu _].
  now rewrite digit_not_space.
Qed.

Lemma match_printed_header digits :
  forallb is_digit digits = true -> digits <> [] ->
  content_length_match (str "Content-Length: " ++ digits) = Some digits.
Proof.
  intros Hd Hne.
  assert (H : match_here (str "Content-Length: " ++ digits) = Some digits).
  { unfold match_here.
    change (match_literal_ci (str "Content-Length:") (str "Content-Length: " ++ digits))
      with (Some (0x20 :: digits)).
    cbn [skip_spaces]. change (is_space 0x20) with true. cbn iota.
    rewrite skip_spaces_digits, take_digits_all by assumption.
    destruct digits; [contradiction|reflexivity]. }
  destruct digits as [|d ds]; [contradiction|].
  change (str "Content-Length: " ++ d :: ds)
    with (0x43 :: (skipn 1 (str "Content-Length: ") ++ d :: ds)) in *.
  cbn [content_length_match]. rewrite H. reflexivity.
Qed.

(** ** Searching the delimiter *)

Lemma starts_with_length needle : forall b,
  starts_with needle b = true -> (length needle <= length b)%nat.
Proof.
  induction needle as [|x needle IH]; intros b H; cbn [length]; [lia|].
  destruct b as [|y b]; [discriminate|].
  cbn [starts_with] in H. apply andb_true_iff in H. destruct H as [_ H].
  apply IH in H. cbn [length]. lia.
Qed.

Lemma starts_with_app needle : forall b more,
  (length needle <= length b)%nat ->
  starts_with needle (b ++ more) = starts_with needle b.
Proof.
  induction needle as [|x needle IH]; intros b more H; [reflexivity|].
  destruct b as [|y b]; [cbn [length] in H; lia|].
  cbn [app starts_with]. rewrite IH; [reflexivity | cbn [length] in H; lia].
Qed.

Lemma starts_with_app_true needle b more :
  starts_with needle b = true -> starts_with needle (b ++ more) = true.
Proof.
  intros H. rewrite starts_with_app; [assumption | now apply starts_with_length].
Qed.

Lemma indexOf_bound needle : forall b i,
  indexOf b needle = Some i -> (i + length needle <= length b)%nat.
Proof.
  induction b as [|x b IH]; intros i H.
  - cbn [indexOf] in H. destruct (starts_with needle []) eqn:E; [|discriminate].
    inversion H; subst. apply starts_with_length in E. lia.
  - cbn [indexOf] in H. destruct (starts_with needle (x :: b)) eqn:E.
    + inversion H; subst. apply starts_with_length in E. lia.
    + destruct (indexOf b needle) as [j|] eqn:Ej; [|discriminate].
      inversion H; subst. specialize (IH j eq_refl). cbn [length]. lia.
Qed.

(** The first occurrence found in a buffer stays the first occurrence when
    more bytes arrive. *)
Lemma indexOf_app needle : forall b more i,
  indexOf b needle = Some i -> indexOf (b ++ more) needle = Some i.
Proof.
  induction b as [|x b IH]; intros more i H.
  - cbn [indexOf] in H. destruct (starts_with needle []) eqn:E; [|discriminate].
    inversion H; subst. destruct needle; [|discriminate].
    destruct more; reflexivity.
  - cbn [indexOf] in H. cbn [app indexOf].
    destruct (starts_with needle (x :: b)) eqn:E.
    + change (x :: b ++ more) with ((x :: b) ++ more).
      rewrite starts_with_app_true by assumption. assumption.
    + destruct (indexOf b needle) as [j|] eqn:Ej; [|discriminate].
      inversion H; subst.
      change (x :: b ++ more) with ((x :: b) ++ more).
      rewrite starts_with_app, E.
      * rewrite (IH more j eq_refl). reflexivity.
      * apply indexOf_bound in Ej. cbn [length]. lia.
Qed.

Lemma indexOf_delimiter_after h rest :
  forallb (fun b => negb (b =? 13)) h = true ->
  indexOf (h ++ HEADER_DELIMITER ++ rest) HEADER_DELIMITER = Some (length h).
Proof.
  induction h as [|x h IH]; intros H.
  - cbn [app]. unfold HEADER_DELIMITER. destruct rest; reflexivity.
  - cbn [forallb] in H. apply andb_true_iff in H. destruct H as [Hx Hh].
    apply negb_true_iff in Hx.
    cbn [app indexOf length]. unfold HEADER_DELIMITER at 1. cbn [starts_with].
    rewrite Z.eqb_sym, Hx. cbn [andb].
    rewrite (IH Hh). reflexivity.
Qed.

(** ** The extraction loop *)

Section ExtractFacts.
Context {St : Type}.
Variable onMessage : jsstring -> N -> St -> St.

(** More fuel than [length remaining] never changes the result: the loop
    has stopped by itself. *)
Lemma extract_loop_fuel : forall fuel1 fuel2 remaining st,
  (length remaining < fuel1)%nat -> (length remaining < fuel2)%nat ->
  extract_loop onMessage fuel1 remaining st = extract_loop onMessage fuel2 remaining st.
Proof.
  induction fuel1 as [|f1 IH]; intros fuel2 remaining st H1 H2; [lia|].
  destruct fuel2 as [|f2]; [lia|].
  cbn [extract_loop].
  destruct (indexOf remaining HEADER_DELIMITER) as [headerEnd|] eqn:Ei; [|reflexivity].
  apply indexOf_bound in Ei. cbn [HEADER_DELIMITER length] in Ei.
  destruct (content_length_match _) as [digits|].
  - destruct (N.ltb_spec (N.of_nat (length remaining))
                (N.of_nat (headerEnd + 4) + parseInt digits)); [reflexivity|].
    apply IH; rewrite length_skipn; lia.
  - apply IH; rewrite length_skipn; lia.
Qed.

(** The loop equation of [extractMessages]. *)
Lemma extractMessages_eq remaining st :
  extractMessages onMessage remaining st =
  match indexOf remaining HEADER_DELIMITER with
  | None => (remaining, st)
  | Some headerEnd =>
      match content_length_match (utf8_decode (slice 0 headerEnd remaining)) with
      | None => extractMessages onMessage (skipn (headerEnd + 4) remaining) st
      | Some digits =>
          let messageEnd := (N.of_nat (headerEnd + 4) + parseInt digits)%N in
          if (N.of_nat (length remaining) <? messageEnd)%N then (remaining, st)
          else
            extractMessages onMessage (skipn (N.to_nat messageEnd) remaining)
              (onMessage
                 (utf8_decode (slice (headerEnd + 4) (N.to_nat messageEnd) remaining))
                 (parseInt digits) st)
      end
  end.
Proof.
  unfold extractMessages at 1. cbn [extract_loop].
  destruct (indexOf remaining HEADER_DELIMITER) as [headerEnd|] eqn:Ei; [|reflexivity].
  apply indexOf_bound in Ei. cbn [HEADER_DELIMITER length] in Ei.
  destruct (content_length_match _) as [digits|].
  - cbv zeta.
    destruct (N.ltb_spec (N.of_nat (length remaining))
                (N.of_nat (headerEnd + 4) + parseInt digits)); [reflexivity|].
    apply extract_loop_fuel; rewrite length_skipn; lia.
  - apply extract_loop_fuel; rewrite length_skipn; lia.
Qed.

Lemma slice_app from to b more :
  (to <= length b)%nat -> slice from to (b ++ more) = slice from to b.
Proof.
  intros H. unfold slice.
  destruct (Nat.le_gt_cases from (length b)) as [Hf|Hf].
  - rewrite skipn_app.
    replace (from - length b)%nat with O by lia. cbn [skipn].
    rewrite firstn_app, length_skipn.
    replace (to - from - (length b - from))%nat with O by lia.
    cbn [firstn]. now rewrite app_nil_r.
  - replace (to - from)%nat with O by lia. reflexivity.
Qed.

Lemma skipn_app_le n b (more : Buffer) :
  (n <= length b)%nat -> skipn n (b ++ more) = skipn n b ++ more.
Proof.
  intros H. rewrite skipn_app. replace (n - length b)%nat with O by lia. reflexivity.
Qed.

Lemma slice_middle (a b c : Buffer) :
  slice (length a) (length a + length b) (a ++ b ++ c) = b.
Proof.
  unfold slice. rewrite skipn_app, skipn_all, Nat.sub_diag. cbn [skipn app].
  replace (length a + length b - length a)%nat with (length b) by lia.
  rewrite firstn_app, Nat.sub_diag, firstn_all. cbn [firstn]. apply app_nil_r.
Qed.

Lemma skipn_middle (a b c : Buffer) :
  skipn (length a + length b) (a ++ b ++ c) = c.
Proof.
  rewrite app_assoc, skipn_app, length_app, Nat.sub_diag.
  rewrite skipn_all2 by (rewrite length_app; lia). reflexivity.
Qed.

(** Bytes that arrive later do not change what has been extracted: running
    the loop on [buffer ++ more] is running it on [buffer] and then on the
    remainder followed by [more]. *)
Lemma extractMessages_app_len n : forall buffer more st,
  (length buffer <= n)%nat ->
  extractMessages onMessage (buffer ++ more) st =
  extractMessages onMessage
    (fst (extractMessages onMessage buffer st) ++ more)
    (snd (extractMessages onMessage buffer st)).
Proof.
  induction n as [|n IH]; intros buffer more st Hlen.
  - destruct buffer; [|cbn [length] in Hlen; lia].
    rewrite (extractMessages_eq []). reflexivity.
  - rewrite (extractMessages_eq buffer).
    destruct (indexOf buffer HEADER_DELIMITER) as [headerEnd|] eqn:Ei; [|reflexivity].
    pose proof (indexOf_app _ _ more _ Ei) as Ei'.
    apply indexOf_bound in Ei. cbn [HEADER_DELIMITER length] in Ei.
    destruct (content_length_match (utf8_decode (slice 0 headerEnd buffer)))
      as [digits|] eqn:Em.
    + cbv zeta.
      destruct (N.ltb_spec (N.of_nat (length buffer))
                  (N.of_nat (headerEnd + 4) + parseInt digits)) as [Hshort|Hfull];
        [reflexivity|].
      rewrite (extractMessages_eq (buffer ++ more)), Ei'.
      rewrite slice_app, Em by lia. cbv zeta.
      replace (N.of_nat (length (buffer ++ more)) <?
               N.of_nat (headerEnd + 4) + parseInt digits)%N with false
        by (symmetry; apply N.ltb_ge; rewrite length_app; lia).
      rewrite slice_app, skipn_app_le by lia.
      apply IH. rewrite length_skipn. lia.
    + rewrite (extractMessages_eq (buffer ++ more)), Ei'.
      rewrite slice_app, Em by lia.
      rewrite skipn_app_le by lia.
      apply IH. rewrite length_skipn. lia.
Qed.

Lemma extractMessages_app buffer more st :
  extractMessages onMessage (buffer ++ more) st =
  extractMessages onMessage
    (fst (extractMessages onMessage buffer st) ++ more)
    (snd (extractMessages onMessage buffer st)).
Proof. apply (extractMessages_app_len (length buffer)). lia. Qed.


Lemma feed_concat chunks : forall buffer st,
  feed onMessage chunks
    (fst (extractMessages onMessage buffer st)) (snd (extractMessages onMessage buffer st))
  = extractMessages onMessage (buffer ++ concat chunks) st.
Proof.
  unfold feed. induction chunks as [|chunk chunks IH]; intros buffer st.
  - cbn [fold_left concat]. rewrite app_nil_r.
    now destruct (extractMessages onMessage buffer st).
  - cbn [fold_left concat fst snd].
    rewrite <- extractMessages_app.
    specialize (IH (buffer ++ chunk) st).
    destruct (extractMessages onMessage (buffer ++ chunk) st) as [rest st'].
    cbn [fst snd] in IH. rewrite IH, app_assoc. reflexivity.
Qed.

(** A printed frame at the head of the buffer is delivered whole. *)
Lemma extractMessages_frame c rest st :
  well_formed c = true ->
  extractMessages onMessage (wire (frame (byteLength c) c) ++ rest) st =
  extractMessages onMessage rest (onMessage c (byteLength c) st).
Proof.
  intros Hwf. unfold wire, frame.
  set (digits := Number_toString (byteLength c)).
  assert (Hd : forallb is_digit digits = true) by apply Number_toString_digits.
  assert (Hne : digits <> []) by apply Number_toString_nonempty.
  assert (Hh : is_ascii (str "Content-Length: " ++ digits) = true)
    by (rewrite is_ascii_app, (digits_ascii _ Hd); reflexivity).
  rewrite (app_assoc (str _)), (app_assoc (_ ++ digits)).
  rewrite encode_ascii_app
    by (rewrite is_ascii_app, Hh; reflexivity).
  change CRLFCRLF with HEADER_DELIMITER.
  rewrite <- !app_assoc. rewrite (app_assoc (str _)).
  set (header := str "Content-Length: " ++ digits) in *.
  rewrite extractMessages_eq.
  assert (Hno : forallb (fun b => negb (b =? 13)) header = true).
  { subst header. rewrite forallb_app. apply andb_true_iff. split; [reflexivity|].
    clear -Hd. induction digits as [|d ds IH]; [reflexivity|].
    cbn [forallb] in *. apply andb_true_iff in Hd. destruct Hd as [H1 H2].
    rewrite IH by assumption. unfold is_digit in H1.
    replace (d =? 13) with false by (symmetry; test_false). reflexivity. }
  rewrite indexOf_delimiter_after by assumption.
  unfold slice at 1. cbn [skipn]. rewrite Nat.sub_0_r, firstn_app, Nat.sub_diag, firstn_all.
  cbn [firstn]. rewrite app_nil_r.
  rewrite <- (app_nil_r header) at 1. rewrite decode_ascii_app by assumption.
  cbn [utf8_decode]. rewrite app_nil_r.
  subst header. rewrite match_printed_header by assumption.
  cbv zeta. subst digits. rewrite parseInt_Number_toString.
  set (header := str "Content-Length: " ++ Number_toString (byteLength c)) in *.
  set (body := utf8_encode c).
  assert (Hlen : N.to_nat (N.of_nat (length header + 4) + byteLength c)
                 = (length (header ++ HEADER_DELIMITER) + length body)%nat).
  { unfold byteLength. fold body. rewrite length_app. cbn [HEADER_DELIMITER length]. lia. }
  rewrite Hlen.
  replace (N.of_nat (length (header ++ HEADER_DELIMITER ++ body ++ rest)) <?
           N.of_nat (length header + 4) + byteLength c)%N with false.
  2:{ symmetry. apply N.ltb_ge. unfold byteLength. fold body.
      rewrite !length_app. cbn [HEADER_DELIMITER length]. lia. }
  rewrite (app_assoc header).
  replace (length header + 4)%nat with (length (header ++ HEADER_DELIMITER))
    by (rewrite length_app; reflexivity).
  rewrite slice_middle, skipn_middle.
  subst body. rewrite utf8_roundtrip by assumption. reflexivity.
Qed.

End ExtractFacts.

(** ** Frame codec: claims C7 and C8 *)

Lemma extractMessages_frames {St : Type} (onMessage : jsstring -> N -> St -> St)
    payloads : forall tail st,
  forallb well_formed payloads = true ->
  extractMessages onMessage (frames_bytes payloads ++ tail) st =
  extractMessages onMessage tail (deliver onMessage payloads st).
Proof.
  unfold frames_bytes, deliver.
  induction payloads as [|c cs IH]; intros tail st Hwf; [reflexivity|].
  cbn [forallb] in Hwf. apply andb_true_iff in Hwf. destruct Hwf as [Hc Hcs].
  cbn [map concat fold_left]. rewrite <- app_assoc.
  unfold frame_bytes at 1. rewrite extractMessages_frame by assumption.
  now apply IH.
Qed.

Lemma feed_one_shot {St : Type} (onMessage : jsstring -> N -> St -> St) chunks st :
  feed onMessage chunks [] st = extractMessages onMessage (concat chunks) st.
Proof.
  exact (feed_concat onMessage chunks [] st).
Qed.

(** C7. A header that ends at the delimiter but has no match for the
    Content-Length pattern is dropped together with the delimiter, the loop
    goes on with the byte after it, and the frames that follow are
    delivered as encoded. *)
Theorem malformed_header_is_skipped {St : Type}
    (onMessage : jsstring -> N -> St -> St) (header : Buffer)
    (payloads : list jsstring) (tail : Buffer) (st : St) :
  indexOf (header ++ HEADER_DELIMITER) HEADER_DELIMITER = Some (length header) ->
  content_length_match (utf8_decode header) = None ->
  forallb well_formed payloads = true ->
  extractMessages onMessage (header ++ HEADER_DELIMITER ++ tail) st
    = extractMessages onMessage tail st
  /\ extractMessages onMessage (header ++ HEADER_DELIMITER ++ frames_bytes payloads ++ tail) st
    = extractMessages onMessage tail (deliver onMessage payloads st).
Proof.
  intros Hi Hm Hwf.
  assert (Hskip : forall rest s,
    extractMessages onMessage (header ++ HEADER_DELIMITER ++ rest) s
    = extractMessages onMessage rest s).
  { intros rest s. rewrite extractMessages_eq.
    rewrite app_assoc, (indexOf_app _ _ rest _ Hi).
    rewrite slice_app by (rewrite length_app; lia).
    unfold slice. cbn [skipn]. rewrite Nat.sub_0_r, firstn_app, Nat.sub_diag, firstn_all.
    cbn [firstn]. rewrite !app_nil_r, Hm.
    replace (length header + 4)%nat with (length (header ++ HEADER_DELIMITER))
      by (rewrite length_app; reflexivity).
    rewrite skipn_app, skipn_all, Nat.sub_diag. reflexivity. }
  split; [apply Hskip|].
  rewrite Hskip. now apply extractMessages_frames.
Qed.

Lemma malformed_header_witness :
  let header := utf8_encode (str "Content-Length: abc") in
  let payloads := [str "{}"; [0xE9]] in
  extractMessages collect (header ++ HEADER_DELIMITER ++ str "Content-Le") []
    = extractMessages collect (str "Content-Le") []
  /\ extractMessages collect
       (header ++ HEADER_DELIMITER ++ frames_bytes payloads ++ str "Content-Le") []
    = extractMessages collect (str "Content-Le") (deliver collect payloads []).
Proof.
  apply malformed_header_is_skipped; reflexivity.
Defined.

(** *** Payloads handed to the callback *)

Lemma is_bytes_firstn n b : is_bytes b = true -> is_bytes (firstn n b) = true.
Proof.
  unfold is_bytes. revert n. induction b as [|x b IH]; intros n H; [now destruct n|].
  destruct n; [reflexivity|]. cbn [firstn forallb] in *.
  apply andb_true_iff in H. destruct H as [Hx Hb]. rewrite Hx. now apply IH.
Qed.

Lemma is_bytes_skipn n b : is_bytes b = true -> is_bytes (skipn n b) = true.
Proof.
  unfold is_bytes. revert n. induction b as [|x b IH]; intros n H; [now destruct n|].
  destruct n; [exact H|]. cbn [skipn forallb] in *.
  apply andb_true_iff in H. destruct H as [Hx Hb]. now apply IH.
Qed.

(** An invariant of the callback on well-formed payloads is an invariant
    of the extraction, whatever the bytes. *)
Lemma extractMessages_preserves_wf {St : Type} (onMessage : jsstring -> N -> St -> St)
    (P : St -> Prop) :
  (forall c len s, well_formed c = true -> P s -> P (onMessage c len s)) ->
  forall buffer st, is_bytes buffer = true -> P st ->
  P (snd (extractMessages onMessage buffer st)).
Proof.
  intros Hstep buffer. unfold extractMessages.
  generalize (S (length buffer)) as fuel. intros fuel. revert buffer.
  induction fuel as [|fuel IH]; intros buffer st Hb HP; [exact HP|].
  cbn [extract_loop].
  destruct (indexOf buffer HEADER_DELIMITER); [|exact HP].
  destruct (content_length_match _).
  - destruct (_ <? _)%N; [exact HP|].
    apply IH; [now apply is_bytes_skipn|].
    apply Hstep; [|exact HP].
    apply utf8_decode_well_formed. unfold slice.
    now apply is_bytes_firstn, is_bytes_skipn.
  - apply IH; [now apply is_bytes_skipn | exact HP].
Qed.

Lemma extracted_payloads_well_formed buffer :
  is_bytes buffer = true ->
  forallb (fun m => well_formed (fst m)) (snd (extractMessages collect buffer [])) = true.
Proof.
  intros Hb.
  apply (extractMessages_preserves_wf collect
           (fun acc => forallb (fun m => well_formed (fst m)) acc = true));
    [|exact Hb|reflexivity].
  intros c len acc Hc Hacc. unfold collect. rewrite forallb_app, Hacc.
  cbn [forallb fst]. now rewrite Hc.
Qed.

(** *** Byte length against character count *)

Lemma encode_length_len n : forall s,
  (length s <= n)%nat ->
  (length s <= length (utf8_encode s))%nat
  /\ (is_ascii s = false -> (length s < length (utf8_encode s))%nat).
Proof.
  induction n as [|n IH]; intros s Hlen.
  - destruct s; [|cbn [length] in Hlen; lia]. split; [lia|discriminate].
  - destruct s as [|u r]; [split; [cbn; lia|discriminate]|].
    cbn [length] in Hlen.
    assert (Hr := IH r ltac:(lia)). destruct Hr as [Hr1 Hr2].
    cbn [utf8_encode is_ascii forallb length].
    destruct (u <? 0x80) eqn:H1.
    + cbn [length andb]. split; [lia|]. intros Ha. specialize (Hr2 Ha). lia.
    + cbn [andb]. destruct (u <? 0x800).
      { unfold utf8_2. cbn [app length]. split; [lia|intros _; lia]. }
      destruct (is_high_surrogate u).
      * destruct r as [|l r'].
        { cbn [length REPLACEMENT]. split; [lia|intros _; lia]. }
        cbn [length] in *.
        assert (Hr' := IH r' ltac:(lia)). destruct Hr' as [Hr'1 _].
        destruct (is_low_surrogate l).
        -- unfold utf8_4. cbn [app length]. split; [lia|intros _; lia].
        -- unfold REPLACEMENT. cbn [app length] in *. split; [lia|intros _; lia].
      * destruct (is_low_surrogate u).
        -- unfold REPLACEMENT. cbn [app length]. split; [lia|intros _; lia].
        -- unfold utf8_3. cbn [app length]. split; [lia|intros _; lia].
Qed.

(** The bytes of a printed frame: the header in ASCII, the delimiter, the
    UTF-8 bytes of the payload. *)
Lemma wire_frame n c :
  wire (frame n c)
  = str "Content-Length: " ++ Number_toString n ++ HEADER_DELIMITER ++ utf8_encode c.
Proof.
  unfold wire, frame. change CRLFCRLF with HEADER_DELIMITER.
  rewrite (app_assoc (str _)), (app_assoc (_ ++ Number_toString n)).
  rewrite encode_ascii_app, <- !app_assoc; [reflexivity|].
  rewrite !is_ascii_app, (digits_ascii _ (Number_toString_digits n)). reflexivity.
Qed.

(** C8. Printing a well-formed payload as [writeToStdout] does (header
    with the byte length, delimiter, the UTF-8 bytes of the payload) and
    running the extraction on the printed bytes gives back the payload and
    nothing else; the length in the header is the number of bytes of the UTF-8
    encoding, which exceeds the number of characters as soon as the payload
    has a character outside ASCII. *)
Theorem frame_roundtrip {St : Type} (onMessage : jsstring -> N -> St -> St)
    (c : jsstring) (len : N) (s : St) (st : state) :
  well_formed c = true ->
  out (writeToStdout c len st) = out st ++ [StdoutWrite (frame (byteLength c) c)]
  /\ wire (frame (byteLength c) c)
     = str "Content-Length: " ++ Number_toString (byteLength c) ++ HEADER_DELIMITER
       ++ utf8_encode c
  /\ extractMessages onMessage (wire (frame (byteLength c) c)) s
     = ([], onMessage c (byteLength c) s)
  /\ byteLength c = N.of_nat (length (utf8_encode c))
  /\ (N.of_nat (length c) <= byteLength c)%N
  /\ (is_ascii c = false -> (N.of_nat (length c) < byteLength c)%N).
Proof.
  intros Hwf. split; [reflexivity|]. split; [apply wire_frame|]. split.
  - rewrite <- (app_nil_r (wire _)). rewrite extractMessages_frame by assumption.
    reflexivity.
  - split; [reflexivity|].
    destruct (encode_length_len (length c) c (Nat.le_refl _)) as [H1 H2].
    unfold byteLength. split; [lia|]. intros Ha. specialize (H2 Ha). lia.
Qed.

Lemma frame_roundtrip_witness :
  let c := [0x68; 0xE9; 0x20AC; 0xD83D; 0xDE00] in
  out (writeToStdout c 0 initial_state)
    = out initial_state ++ [StdoutWrite (frame (byteLength c) c)]
  /\ wire (frame (byteLength c) c)
     = str "Content-Length: " ++ Number_toString (byteLength c) ++ HEADER_DELIMITER
       ++ utf8_encode c
  /\ extractMessages collect (wire (frame (byteLength c) c)) []
     = ([], collect c (byteLength c) [])
  /\ byteLength c = N.of_nat (length (utf8_encode c))
  /\ (N.of_nat (length c) <= byteLength c)%N
  /\ (is_ascii c = false -> (N.of_nat (length c) < byteLength c)%N).
Proof.
  apply frame_roundtrip. reflexivity.
Defined.

Example sample_stringify_initialize :
  Sample.stringify (JObj [(str "id", JNum Sample.one); (str "method", JStr (str "initialize"))])
  = Sample.initialize_text.
Proof. reflexivity. Qed.

Example sample_stringify_two : Sample.stringify (JNum two) = str "2".
Proof. reflexivity. Qed.

Example sample_parse_initialize :
  initialize_request Sample.parse Sample.initialize_text = true.
Proof. reflexivity. Qed.

(** ** Handshake reorder buffer: claim C1 *)

Lemma set_out_id st : set_out (out st) st = st.
Proof. now destruct st. Qed.

Lemma fold_emit {A : Type} (f : A -> effect) (l : list A) : forall st,
  fold_left (fun s a => emit (f a) s) l st = set_out (out st ++ map f l) st.
Proof.
  induction l as [|a l IH]; intros st.
  - cbn [fold_left map]. rewrite app_nil_r. symmetry. apply set_out_id.
  - cbn [fold_left map]. rewrite IH. unfold emit, set_out. cbn.
    rewrite <- app_assoc. reflexivity.
Qed.

Lemma flush_notifications_eq st :
  flush_notifications st
  = set_out (out st ++ map (fun n => relay (content n)) (bufferedNotifications st)) st.
Proof. unfold flush_notifications. apply (fold_emit (fun n => relay (content n))). Qed.

Section Handshake.
Variable JSON_parse : jsstring -> option json.

Local Notation "'handle'" := (handleGodotMessage JSON_parse).

Lemma awaited_not_notification t c :
  awaited JSON_parse t c = true -> notification JSON_parse c = false.
Proof.
  unfold awaited, notification, is_notification.
  destruct (JSON_parse c) as [msg|]; [|discriminate].
  destruct (get_prop msg (str "id")); [|discriminate].
  intros _. cbn. apply andb_false_r.
Qed.

(** The three ways of [handleGodotMessage] while the response is awaited. *)
Lemma handle_while_waiting c len st :
  waitingForInitialize st = true ->
  handle c len st =
  if awaited JSON_parse (initializeRequestId st) c then
    set_bufferedNotifications []
      (flush_notifications
         (set_wasInitialized true (set_waitingForInitialize false (writeToStdout c len st))))
  else if notification JSON_parse c then
    set_bufferedNotifications
      (bufferedNotifications st ++ [{| content := c; contentLength := len |}]) st
  else writeToStdout c len st.
Proof.
  intros Hw. unfold handleGodotMessage, awaited, notification, is_awaited_response.
  destruct (JSON_parse c) as [msg|]; [|reflexivity].
  rewrite Hw. destruct msg; reflexivity.
Qed.

Lemma handle_pass_through c len st :
  waitingForInitialize st = false -> handle c len st = writeToStdout c len st.
Proof.
  intros Hw. unfold handleGodotMessage. rewrite Hw. now destruct (JSON_parse c).
Qed.

(** Before the response: notifications pile up in arrival order, the
    other messages are relayed at once, the buffer stays armed. *)
Lemma handle_all_before_response pre : forall st,
  waitingForInitialize st = true ->
  forallb (fun m => negb (awaited JSON_parse (initializeRequestId st) (content m))) pre
    = true ->
  handle_all JSON_parse pre st =
  set_out
    (out st ++ map (fun m => relay (content m))
                 (filter (fun m => negb (notification JSON_parse (content m))) pre))
    (set_bufferedNotifications
       (bufferedNotifications st
          ++ filter (fun m => notification JSON_parse (content m)) pre) st).
Proof.
  unfold handle_all.
  induction pre as [|m pre IH]; intros st Hw Hpre.
  - cbn [fold_left filter map]. rewrite !app_nil_r. now destruct st.
  - cbn [forallb] in Hpre. apply andb_true_iff in Hpre. destruct Hpre as [Hm Hpre].
    apply negb_true_iff in Hm.
    cbn [fold_left filter]. rewrite handle_while_waiting, Hm by assumption.
    destruct m as [c len]. cbn [content contentLength] in *.
    destruct (notification JSON_parse c) eqn:Hn; cbn [negb].
    + rewrite IH by assumption. cbn. rewrite <- app_assoc. reflexivity.
    + rewrite IH by assumption. cbn. rewrite <- app_assoc. reflexivity.
Qed.

(** C1 (amended). While the response with tracked id [t] is awaited:
    among the messages that arrive before it, those with a method and no
    id are appended to the held buffer and not relayed, the others are
    relayed at once; the first message with id [t] and a result is relayed
    at once, the flag is cleared, then the held messages follow in arrival
    order and the buffer is emptied; later messages pass straight
    through.  For notifications only before the response, the output is
    the response, the notifications in arrival order, then what comes
    after. *)
Theorem handshake_reordering (st : state) (pre : list message) (r : message) :
  waitingForInitialize st = true ->
  forallb (fun m => negb (awaited JSON_parse (initializeRequestId st) (content m))) pre
    = true ->
  awaited JSON_parse (initializeRequestId st) (content r) = true ->
  let st1 := handle_all JSON_parse pre st in
  let st2 := handle (content r) (contentLength r) st1 in
  waitingForInitialize st1 = true
  /\ bufferedNotifications st1
     = bufferedNotifications st ++ filter (fun m => notification JSON_parse (content m)) pre
  /\ out st1
     = out st ++ map (fun m => relay (content m))
                   (filter (fun m => negb (notification JSON_parse (content m))) pre)
  /\ out st2
     = out st1 ++ relay (content r)
                  :: map (fun m => relay (content m)) (bufferedNotifications st1)
  /\ waitingForInitialize st2 = false
  /\ bufferedNotifications st2 = []
  /\ (forall c len, out (handle c len st2) = out st2 ++ [relay c])
  /\ (bufferedNotifications st = [] ->
      forallb (fun m => notification JSON_parse (content m)) pre = true ->
      forall c len,
        out (handle c len st2)
        = out st ++ relay (content r) :: map (fun m => relay (content m)) pre ++ [relay c]).
Proof.
  intros Hw Hpre Hr st1 st2.
  assert (E1 : st1 = _) by (apply handle_all_before_response; assumption).
  assert (Hw1 : waitingForInitialize st1 = true) by (rewrite E1; exact Hw).
  assert (Hid : initializeRequestId st1 = initializeRequestId st) by (rewrite E1; reflexivity).
  assert (E2 : st2 = _) by (apply handle_while_waiting; exact Hw1).
  rewrite Hid, Hr, flush_notifications_eq in E2.
  assert (Hout2 : out st2 = out st1 ++ relay (content r)
                    :: map (fun m => relay (content m)) (bufferedNotifications st1)).
  { rewrite E2. cbn. rewrite <- app_assoc. reflexivity. }
  assert (Hw2 : waitingForInitialize st2 = false) by (rewrite E2; reflexivity).
  assert (Hpass : forall c len, out (handle c len st2) = out st2 ++ [relay c]).
  { intros c len. rewrite handle_pass_through by assumption. reflexivity. }
  repeat split.
  - exact Hw1.
  - rewrite E1. reflexivity.
  - rewrite E1. reflexivity.
  - exact Hout2.
  - exact Hw2.
  - rewrite E2. reflexivity.
  - exact Hpass.
  - intros Hempty Hall c len. rewrite Hpass, Hout2, E1. cbn.
    rewrite Hempty. cbn [app].
    assert (Hf1 : filter (fun m => notification JSON_parse (content m)) pre = pre).
    { clear -Hall. induction pre as [|m l IH]; [reflexivity|].
      cbn [forallb filter] in *. apply andb_true_iff in Hall. destruct Hall as [Hm Hl].
      rewrite Hm, IH by assumption. reflexivity. }
    assert (Hf2 : filter (fun m => negb (notification JSON_parse (content m))) pre = []).
    { clear -Hall. induction pre as [|m l IH]; [reflexivity|].
      cbn [forallb filter] in *. apply andb_true_iff in Hall. destruct Hall as [Hm Hl].
      rewrite Hm, IH by assumption. reflexivity. }
    rewrite Hf1, Hf2. cbn [map]. rewrite app_nil_r, <- app_assoc. reflexivity.
Qed.

End Handshake.

Lemma handshake_reordering_witness :
  let st := Sample.awaiting in
  let A := {| content := Sample.notification_text "A"; contentLength := 14 |} in
  let B := {| content := Sample.notification_text "B"; contentLength := 14 |} in
  let r := {| content := Sample.response_text; contentLength := 20 |} in
  let st1 := handle_all Sample.parse [A; B] st in
  let st2 := handleGodotMessage Sample.parse (content r) (contentLength r) st1 in
  waitingForInitialize st1 = true
  /\ bufferedNotifications st1 = [A; B]
  /\ out st1 = []
  /\ out st2 = [relay (content r); relay (content A); relay (content B)]
  /\ waitingForInitialize st2 = false
  /\ bufferedNotifications st2 = []
  /\ (forall c len, out (handleGodotMessage Sample.parse c len st2) = out st2 ++ [relay c])
  /\ (bufferedNotifications st = [] ->
      forallb (fun m => notification Sample.parse (content m)) [A; B] = true ->
      forall c len,
        out (handleGodotMessage Sample.parse c len st2)
        = [relay (content r); relay (content A); relay (content B); relay c]).
Proof.
  intros st A B r.
  exact (handshake_reordering Sample.parse st [A; B] r eq_refl eq_refl eq_refl).
Defined.

(** C1 as stated fails on a message without id and without method: it is
    relayed at once and not held. *)
Lemma message_without_id_not_held :
  let st := Sample.awaiting in
  let st' := handleGodotMessage Sample.parse Sample.empty_object 2 st in
  waitingForInitialize st = true
  /\ carries_no_id Sample.parse Sample.empty_object = true
  /\ bufferedNotifications st' = bufferedNotifications st
  /\ out st' = out st ++ [relay Sample.empty_object].
Proof. repeat split. Qed.

(** ** Writes and queues *)

Lemma extractMessages_preserves {St : Type} (onMessage : jsstring -> N -> St -> St)
    (P : St -> Prop) :
  (forall c len s, P s -> P (onMessage c len s)) ->
  forall buffer st, P st -> P (snd (extractMessages onMessage buffer st)).
Proof.
  intros Hstep buffer. unfold extractMessages.
  generalize (S (length buffer)) as fuel. intros fuel. revert buffer.
  induction fuel as [|fuel IH]; intros buffer st HP; [exact HP|].
  cbn [extract_loop].
  destruct (indexOf buffer HEADER_DELIMITER); [|exact HP].
  destruct (content_length_match _).
  - destruct (_ <? _)%N; [exact HP|]. apply IH, Hstep, HP.
  - apply IH, HP.
Qed.

Lemma flush_pending_eq st sock :
  tcpSocket st = Some sock ->
  flush_pending st
  = set_out (out st ++ map (fun m => sent sock (content m)) (pendingMessages st)) st.
Proof.
  intros Hs. unfold flush_pending.
  generalize (pendingMessages st) as q. intros q.
  transitivity (fold_left (fun s m => emit (sent sock (content m)) s) q st).
  - revert st Hs. induction q as [|m q IH]; intros st Hs; [reflexivity|].
    cbn [fold_left]. unfold socket_write at 2. rewrite Hs.
    apply IH. exact Hs.
  - apply (fold_emit (fun m => sent sock (content m))).
Qed.

Lemma flush_pending_no_socket st : tcpSocket st = None -> flush_pending st = st.
Proof.
  intros Hs. unfold flush_pending. generalize (pendingMessages st) as q. intros q.
  revert st Hs. induction q as [|m q IH]; intros st Hs; [reflexivity|].
  cbn [fold_left]. unfold socket_write at 2. rewrite Hs. now apply IH.
Qed.


Section Lifecycle.
Variable JSON_parse : jsstring -> option json.
Variable JSON_stringify : json -> jsstring.

Local Notation "'stdin_cb'" := (stdin_message JSON_parse JSON_stringify).
Local Notation "'on_stdin'" := (on_stdin_data JSON_parse JSON_stringify).
Local Notation "'connected'" := (on_connect JSON_stringify).
Local Notation "'payload_of'" := (forwarded_payload JSON_parse JSON_stringify).

(** While the connection is not deliverable the stdin reader only
    appends to the staging queue. *)
Lemma stage_all payloads : forall st,
  not_deliverable st = true ->
  deliver stdin_cb payloads st
  = set_pendingMessages (pendingMessages st ++ map entry payloads) st.
Proof.
  unfold deliver.
  induction payloads as [|c cs IH]; intros st Hnd.
  - cbn [fold_left map]. rewrite app_nil_r. now destruct st.
  - cbn [fold_left map]. unfold stdin_message at 2.
    unfold not_deliverable in Hnd. rewrite Hnd.
    rewrite IH by exact Hnd. cbn. rewrite <- app_assoc. reflexivity.
Qed.

Lemma on_stdin_frames payloads st :
  stdinBuffer st = [] ->
  forallb well_formed payloads = true ->
  on_stdin (frames_bytes payloads) st
  = set_stdinBuffer []
      (deliver stdin_cb payloads (set_stdinBuffer (frames_bytes payloads) st)).
Proof.
  intros Hb Hwf.
  assert (E : forall s, extractMessages stdin_cb (frames_bytes payloads) s
                        = ([], deliver stdin_cb payloads s)).
  { intros s. rewrite <- (app_nil_r (frames_bytes payloads)).
    rewrite extractMessages_frames by assumption. reflexivity. }
  unfold on_stdin_data. rewrite Hb. cbn [app stdinBuffer set_stdinBuffer].
  rewrite E. reflexivity.
Qed.

Lemma on_stdin_staged payloads st :
  stdinBuffer st = [] ->
  forallb well_formed payloads = true ->
  not_deliverable st = true ->
  on_stdin (frames_bytes payloads) st
  = set_pendingMessages (pendingMessages st ++ map entry payloads) st.
Proof.
  intros Hb Hwf Hnd. rewrite on_stdin_frames, stage_all by assumption.
  destruct st. cbn in *. subst. reflexivity.
Qed.

(** [sendToGodot] in two steps: tracking, then a write or an entry in
    the queue. *)
Lemma sendToGodot_eq c len st :
  sendToGodot JSON_parse JSON_stringify c len st
  = if tcpConnected st && socket_usable st
    then socket_write (frame (byteLength (payload_of c)) (payload_of c))
           (tracked JSON_parse c st)
    else set_pendingMessages (pendingMessages st ++ [entry (payload_of c)])
           (tracked JSON_parse c st).
Proof.
  unfold sendToGodot, forwarded_payload, tracked.
  destruct (JSON_parse c) as [msg|]; [|reflexivity].
  destruct msg; try reflexivity; destruct (is_initialize_request _); reflexivity.
Qed.

Lemma tracked_out c st : out (tracked JSON_parse c st) = out st.
Proof.
  unfold tracked. destruct (JSON_parse c) as [msg|]; [|reflexivity].
  destruct msg; try reflexivity; destruct (is_initialize_request _); reflexivity.
Qed.

Lemma tracked_tcpSocket c st : tcpSocket (tracked JSON_parse c st) = tcpSocket st.
Proof.
  unfold tracked. destruct (JSON_parse c) as [msg|]; [|reflexivity].
  destruct msg; try reflexivity; destruct (is_initialize_request _); reflexivity.
Qed.

Lemma tracked_pendingMessages c st :
  pendingMessages (tracked JSON_parse c st) = pendingMessages st.
Proof.
  unfold tracked. destruct (JSON_parse c) as [msg|]; [|reflexivity].
  destruct msg; try reflexivity; destruct (is_initialize_request _); reflexivity.
Qed.

Lemma sendToGodot_direct c len st sock :
  tcpConnected st = true -> tcpSocket st = Some sock -> destroyed sock = false ->
  out (sendToGodot JSON_parse JSON_stringify c len st) = out st ++ [sent sock (payload_of c)]
  /\ pendingMessages (sendToGodot JSON_parse JSON_stringify c len st) = pendingMessages st.
Proof.
  intros Hc Hs Hd. rewrite sendToGodot_eq. unfold socket_usable, socket_write.
  rewrite tracked_tcpSocket, Hc, Hs, Hd. cbn.
  rewrite tracked_out, tracked_pendingMessages. split; reflexivity.
Qed.

Lemma sendToGodot_staged c len st :
  tcpConnected st && socket_usable st = false ->
  out (sendToGodot JSON_parse JSON_stringify c len st) = out st
  /\ pendingMessages (sendToGodot JSON_parse JSON_stringify c len st)
     = pendingMessages st ++ [entry (payload_of c)].
Proof.
  intros H. rewrite sendToGodot_eq, H. cbn. rewrite tracked_out. split; reflexivity.
Qed.

End Lifecycle.

(** ** The trace is append-only *)




Section Append.
Variable JSON_parse : jsstring -> option json.
Variable JSON_stringify : json -> jsstring.




(** *** A reconnection stays pending until the connect callback *)

Lemma tracked_flags c st :
  shouldKeepRunning (tracked JSON_parse c st) = shouldKeepRunning st
  /\ isReconnecting (tracked JSON_parse c st) = isReconnecting st.
Proof.
  unfold tracked. destruct (JSON_parse c) as [msg|]; [|now split].
  destruct msg; try (now split); destruct (is_initialize_request _); now split.
Qed.

Lemma stdin_message_flags c len st :
  shouldKeepRunning (stdin_message JSON_parse JSON_stringify c len st) = shouldKeepRunning st
  /\ isReconnecting (stdin_message JSON_parse JSON_stringify c len st) = isReconnecting st.
Proof.
  unfold stdin_message. destruct (negb (tcpConnected st) || isWarmingUp st); [now split|].
  rewrite sendToGodot_eq. destruct (tcpConnected st && socket_usable st).
  - unfold socket_write. destruct (tcpSocket _); cbn; apply tracked_flags.
  - cbn. apply tracked_flags.
Qed.

Lemma handleGodotMessage_flags c len st :
  shouldKeepRunning (handleGodotMessage JSON_parse c len st) = shouldKeepRunning st
  /\ isReconnecting (handleGodotMessage JSON_parse c len st) = isReconnecting st.
Proof.
  destruct (waitingForInitialize st) eqn:Hw.
  - rewrite handle_while_waiting by assumption.
    destruct (awaited _ _ _); [rewrite flush_notifications_eq; now split|].
    destruct (notification _ _); now split.
  - rewrite handle_pass_through by assumption. now split.
Qed.

Lemma step_keeps_reconnecting st e :
  is_connect e = false ->
  shouldKeepRunning st = true -> isReconnecting st = true ->
  shouldKeepRunning (step JSON_parse JSON_stringify st e) = true
  /\ isReconnecting (step JSON_parse JSON_stringify st e) = true.
Proof.
  intros He Hk Hr. destruct e; try discriminate; cbn [step].
  - unfold on_stdin_data.
    pose proof (extractMessages_preserves (stdin_message JSON_parse JSON_stringify)
                  (fun s => shouldKeepRunning s = true /\ isReconnecting s = true)
                  (fun c len s H =>
                     match stdin_message_flags c len s, H with
                     | conj E1 E2, conj H1 H2 =>
                         conj (eq_trans E1 H1) (eq_trans E2 H2)
                     end)
                  (stdinBuffer (set_stdinBuffer (stdinBuffer st ++ chunk) st))
                  (set_stdinBuffer (stdinBuffer st ++ chunk) st)
                  (conj Hk Hr)) as H.
    destruct (extractMessages _ _ _) as [rest s]. exact H.
  - unfold on_tcp_data.
    pose proof (extractMessages_preserves (handleGodotMessage JSON_parse)
                  (fun s => shouldKeepRunning s = true /\ isReconnecting s = true)
                  (fun c len s H =>
                     match handleGodotMessage_flags c len s, H with
                     | conj E1 E2, conj H1 H2 =>
                         conj (eq_trans E1 H1) (eq_trans E2 H2)
                     end)
                  (tcpBuffer (set_tcpBuffer (tcpBuffer st ++ data) st))
                  (set_tcpBuffer (tcpBuffer st ++ data) st)
                  (conj Hk Hr)) as H.
    destruct (extractMessages _ _ _) as [rest s]. exact H.
  - unfold on_close, scheduleReconnect. destruct (tcpSocket st); cbn; rewrite Hk; now split.
  - unfold on_warmup_elapsed.
    destruct (tcpSocket st) as [sock|] eqn:Hs.
    + rewrite (flush_pending_eq _ sock) by exact Hs. now split.
    + rewrite flush_pending_no_socket by exact Hs. now split.
  - unfold on_reconnect_elapsed. cbn. rewrite Hk. now split.
  - unfold on_reconnect_failed, scheduleReconnect. cbn. rewrite Hk. now split.
Qed.

Lemma run_keeps_reconnecting evs : forall st,
  forallb (fun e => negb (is_connect e)) evs = true ->
  shouldKeepRunning st = true -> isReconnecting st = true ->
  shouldKeepRunning (run JSON_parse JSON_stringify evs st) = true
  /\ isReconnecting (run JSON_parse JSON_stringify evs st) = true.
Proof.
  unfold run. induction evs as [|e evs IH]; intros st Hevs Hk Hr; [now split|].
  cbn [forallb] in Hevs. apply andb_true_iff in Hevs. destruct Hevs as [He Hevs].
  apply negb_true_iff in He.
  destruct (step_keeps_reconnecting st e He Hk Hr) as [Hk' Hr'].
  cbn [fold_left]. now apply IH.
Qed.


End Append.

(** ** Chunked delivery at the listeners *)

Lemma extractMessages_commute {St : Type} (onMessage : jsstring -> N -> St -> St)
    (g : St -> St) :
  (forall c len s, onMessage c len (g s) = g (onMessage c len s)) ->
  forall buffer st,
    extractMessages onMessage buffer (g st)
    = (fst (extractMessages onMessage buffer st), g (snd (extractMessages onMessage buffer st))).
Proof.
  intros Hg buffer. unfold extractMessages.
  generalize (S (length buffer)) as fuel. intros fuel. revert buffer.
  induction fuel as [|fuel IH]; intros buffer st; [reflexivity|].
  cbn [extract_loop].
  destruct (indexOf buffer HEADER_DELIMITER); [|reflexivity].
  destruct (content_length_match _).
  - destruct (_ <? _)%N; [reflexivity|]. rewrite Hg. apply IH.
  - apply IH.
Qed.

Section Listeners.
Variable JSON_parse : jsstring -> option json.
Variable JSON_stringify : json -> jsstring.

Lemma handleGodotMessage_set_tcpBuffer b c len st :
  handleGodotMessage JSON_parse c len (set_tcpBuffer b st)
  = set_tcpBuffer b (handleGodotMessage JSON_parse c len st).
Proof.
  destruct (waitingForInitialize st) eqn:Hw.
  - rewrite !handle_while_waiting by exact Hw.
    cbn [initializeRequestId set_tcpBuffer].
    destruct (awaited _ _ _).
    + rewrite !flush_notifications_eq. reflexivity.
    + destruct (notification _ _); reflexivity.
  - rewrite !handle_pass_through by exact Hw. reflexivity.
Qed.

Lemma tracked_set_stdinBuffer b c st :
  tracked JSON_parse c (set_stdinBuffer b st) = set_stdinBuffer b (tracked JSON_parse c st).
Proof.
  unfold tracked. destruct (JSON_parse c) as [msg|]; [|reflexivity].
  destruct msg; try reflexivity; destruct (is_initialize_request _); reflexivity.
Qed.

Lemma stdin_message_set_stdinBuffer b c len st :
  stdin_message JSON_parse JSON_stringify c len (set_stdinBuffer b st)
  = set_stdinBuffer b (stdin_message JSON_parse JSON_stringify c len st).
Proof.
  unfold stdin_message. cbn [tcpConnected isWarmingUp set_stdinBuffer].
  destruct (negb (tcpConnected st) || isWarmingUp st); [reflexivity|].
  rewrite !sendToGodot_eq, tracked_set_stdinBuffer.
  unfold socket_usable. cbn [tcpConnected tcpSocket set_stdinBuffer].
  destruct (tcpConnected st && _); [|reflexivity].
  unfold socket_write. rewrite !tracked_tcpSocket.
  cbn [tcpSocket set_stdinBuffer]. rewrite tracked_tcpSocket.
  destruct (tcpSocket st); reflexivity.
Qed.

Lemma set_tcpBuffer_twice a b st : set_tcpBuffer a (set_tcpBuffer b st) = set_tcpBuffer a st.
Proof. reflexivity. Qed.

Lemma set_stdinBuffer_twice a b st :
  set_stdinBuffer a (set_stdinBuffer b st) = set_stdinBuffer a st.
Proof. reflexivity. Qed.

(** The socket listener is one extraction on the carried-over buffer
    followed by the new bytes. *)
Lemma on_tcp_data_eq data st :
  on_tcp_data JSON_parse data st
  = set_tcpBuffer
      (fst (extractMessages (handleGodotMessage JSON_parse) (tcpBuffer st ++ data) st))
      (snd (extractMessages (handleGodotMessage JSON_parse) (tcpBuffer st ++ data) st)).
Proof.
  unfold on_tcp_data. cbn [tcpBuffer set_tcpBuffer].
  rewrite (extractMessages_commute (handleGodotMessage JSON_parse)
             (set_tcpBuffer (tcpBuffer st ++ data))
             (handleGodotMessage_set_tcpBuffer (tcpBuffer st ++ data))).
  apply set_tcpBuffer_twice.
Qed.

Lemma on_stdin_data_eq chunk st :
  on_stdin_data JSON_parse JSON_stringify chunk st
  = set_stdinBuffer
      (fst (extractMessages (stdin_message JSON_parse JSON_stringify)
              (stdinBuffer st ++ chunk) st))
      (snd (extractMessages (stdin_message JSON_parse JSON_stringify)
              (stdinBuffer st ++ chunk) st)).
Proof.
  unfold on_stdin_data. cbn [stdinBuffer set_stdinBuffer].
  rewrite (extractMessages_commute (stdin_message JSON_parse JSON_stringify)
             (set_stdinBuffer (stdinBuffer st ++ chunk))
             (stdin_message_set_stdinBuffer (stdinBuffer st ++ chunk))).
  apply set_stdinBuffer_twice.
Qed.

Lemma tcp_chunks_feed chunks : forall buffer st,
  run JSON_parse JSON_stringify (map TcpData chunks) (set_tcpBuffer buffer st)
  = set_tcpBuffer
      (fst (feed (handleGodotMessage JSON_parse) chunks buffer st))
      (snd (feed (handleGodotMessage JSON_parse) chunks buffer st)).
Proof.
  unfold run, feed. induction chunks as [|chunk chunks IH]; intros buffer st; [reflexivity|].
  cbn [map fold_left step fst snd].
  rewrite on_tcp_data_eq. cbn [tcpBuffer set_tcpBuffer].
  rewrite (extractMessages_commute (handleGodotMessage JSON_parse)
             (set_tcpBuffer buffer) (handleGodotMessage_set_tcpBuffer buffer)).
  cbn [fst snd]. rewrite set_tcpBuffer_twice.
  destruct (extractMessages (handleGodotMessage JSON_parse) (buffer ++ chunk) st)
    as [rest st'].
  apply IH.
Qed.

Lemma stdin_chunks_feed chunks : forall buffer st,
  run JSON_parse JSON_stringify (map StdinData chunks) (set_stdinBuffer buffer st)
  = set_stdinBuffer
      (fst (feed (stdin_message JSON_parse JSON_stringify) chunks buffer st))
      (snd (feed (stdin_message JSON_parse JSON_stringify) chunks buffer st)).
Proof.
  unfold run, feed. induction chunks as [|chunk chunks IH]; intros buffer st; [reflexivity|].
  cbn [map fold_left step fst snd].
  rewrite on_stdin_data_eq. cbn [stdinBuffer set_stdinBuffer].
  rewrite (extractMessages_commute (stdin_message JSON_parse JSON_stringify)
             (set_stdinBuffer buffer) (stdin_message_set_stdinBuffer buffer)).
  cbn [fst snd]. rewrite set_stdinBuffer_twice.
  destruct (extractMessages (stdin_message JSON_parse JSON_stringify) (buffer ++ chunk) st)
    as [rest st'].
  apply IH.
Qed.

Lemma set_tcpBuffer_same st : set_tcpBuffer (tcpBuffer st) st = st.
Proof. now destruct st. Qed.

Lemma set_stdinBuffer_same st : set_stdinBuffer (stdinBuffer st) st = st.
Proof. now destruct st. Qed.

(** However the peer's bytes are cut into ['data'] events, the bridge ends
    in the state of one extraction over all of them. *)
Lemma tcp_chunks_one_shot chunks st :
  tcpBuffer st = [] ->
  run JSON_parse JSON_stringify (map TcpData chunks) st
  = set_tcpBuffer
      (fst (extractMessages (handleGodotMessage JSON_parse) (concat chunks) st))
      (snd (extractMessages (handleGodotMessage JSON_parse) (concat chunks) st)).
Proof.
  intros Hb. rewrite <- (set_tcpBuffer_same st) at 1. rewrite Hb.
  rewrite tcp_chunks_feed, feed_one_shot. reflexivity.
Qed.

Lemma stdin_chunks_one_shot chunks st :
  stdinBuffer st = [] ->
  run JSON_parse JSON_stringify (map StdinData chunks) st
  = set_stdinBuffer
      (fst (extractMessages (stdin_message JSON_parse JSON_stringify) (concat chunks) st))
      (snd (extractMessages (stdin_message JSON_parse JSON_stringify) (concat chunks) st)).
Proof.
  intros Hb. rewrite <- (set_stdinBuffer_same st) at 1. rewrite Hb.
  rewrite stdin_chunks_feed, feed_one_shot. reflexivity.
Qed.


End Listeners.

(** ** Chunked delivery: claim C2 *)

Lemma concat_byte_by_byte b : concat (byte_by_byte b) = b.
Proof.
  unfold byte_by_byte. induction b as [|x b IH]; [reflexivity|].
  cbn [map concat app]. now rewrite IH.
Qed.

(** C2. For a byte sequence that encodes valid frames, cut into chunks in
    any way, feeding the chunks one after the other (each appended to the
    carried-over remainder, then extraction) gives the final state and
    remainder of one extraction over the concatenation: the callback sees
    the same payloads in the same order, namely the encoded ones, and no
    byte is left over.  The same holds for the two ['data'] listeners of
    the bridge, which carry the remainder in [tcpBuffer] and
    [stdinBuffer]. *)
Theorem chunked_extraction_equals_one_shot {St : Type}
    (onMessage : jsstring -> N -> St -> St) (payloads : list jsstring)
    (chunks : list Buffer) (st : St) :
  forallb well_formed payloads = true ->
  concat chunks = frames_bytes payloads ->
  feed onMessage chunks [] st = extractMessages onMessage (concat chunks) st
  /\ feed onMessage chunks [] st = ([], deliver onMessage payloads st)
  /\ (forall JSON_parse JSON_stringify s,
        tcpBuffer s = [] ->
        run JSON_parse JSON_stringify (map TcpData chunks) s
        = run JSON_parse JSON_stringify [TcpData (concat chunks)] s
        /\ run JSON_parse JSON_stringify (map TcpData chunks) s
           = set_tcpBuffer [] (deliver (handleGodotMessage JSON_parse) payloads s))
  /\ (forall JSON_parse JSON_stringify s,
        stdinBuffer s = [] ->
        run JSON_parse JSON_stringify (map StdinData chunks) s
        = run JSON_parse JSON_stringify [StdinData (concat chunks)] s
        /\ run JSON_parse JSON_stringify (map StdinData chunks) s
           = set_stdinBuffer []
               (deliver (stdin_message JSON_parse JSON_stringify) payloads s)).
Proof.
  intros Hwf Hcat.
  assert (Hone : forall T (f : jsstring -> N -> T -> T) t,
            extractMessages f (concat chunks) t = ([], deliver f payloads t)).
  { intros T f t. rewrite Hcat, <- (app_nil_r (frames_bytes payloads)).
    rewrite extractMessages_frames by assumption. reflexivity. }
  rewrite feed_one_shot. split; [reflexivity|]. split; [apply Hone|]. split.
  - intros JSON_parse JSON_stringify s Hb. split.
    + rewrite tcp_chunks_one_shot by exact Hb.
      unfold run. cbn [fold_left step]. rewrite on_tcp_data_eq, Hb. reflexivity.
    + rewrite tcp_chunks_one_shot, Hone by exact Hb. reflexivity.
  - intros JSON_parse JSON_stringify s Hb. split.
    + rewrite stdin_chunks_one_shot by exact Hb.
      unfold run. cbn [fold_left step]. rewrite on_stdin_data_eq, Hb. reflexivity.
    + rewrite stdin_chunks_one_shot, Hone by exact Hb. reflexivity.
Qed.

Lemma chunked_extraction_witness :
  let payloads := [str "{}"; [0x68; 0xE9; 0x20AC; 0xD83D; 0xDE00]] in
  let chunks := byte_by_byte (frames_bytes payloads) in
  feed collect chunks [] [] = extractMessages collect (concat chunks) []
  /\ feed collect chunks [] [] = ([], deliver collect payloads [])
  /\ out (run Sample.parse Sample.stringify (map TcpData chunks) Sample.initialized)
     = map relay payloads.
Proof.
  intros payloads chunks.
  destruct (chunked_extraction_equals_one_shot collect payloads chunks []
              eq_refl eq_refl) as [H1 [H2 [H3 _]]].
  split; [exact H1|]. split; [exact H2|].
  destruct (H3 Sample.parse Sample.stringify Sample.initialized eq_refl) as [_ H4].
  rewrite H4. reflexivity.
Defined.

(** ** The held messages: claim C10 *)

Section Held.
Variable JSON_parse : jsstring -> option json.
Variable JSON_stringify : json -> jsstring.

Lemma tracked_held c st :
  bufferedNotifications (tracked JSON_parse c st) = bufferedNotifications st.
Proof.
  unfold tracked. destruct (JSON_parse c) as [msg|]; [|reflexivity].
  destruct msg; try reflexivity; destruct (is_initialize_request _); reflexivity.
Qed.

Lemma stdin_message_held c len st :
  bufferedNotifications (stdin_message JSON_parse JSON_stringify c len st)
  = bufferedNotifications st.
Proof.
  unfold stdin_message. destruct (negb (tcpConnected st) || isWarmingUp st); [reflexivity|].
  rewrite sendToGodot_eq. destruct (tcpConnected st && socket_usable st).
  - unfold socket_write. destruct (tcpSocket _); fields; apply tracked_held.
  - fields. apply tracked_held.
Qed.

Lemma flush_pending_held st :
  bufferedNotifications (flush_pending st) = bufferedNotifications st.
Proof.
  destruct (tcpSocket st) as [sock|] eqn:Hs.
  - now rewrite (flush_pending_eq st sock Hs).
  - now rewrite flush_pending_no_socket.
Qed.

Lemma step_keeps_held st e :
  touches_held e = false ->
  bufferedNotifications (step JSON_parse JSON_stringify st e) = bufferedNotifications st.
Proof.
  intros He. destruct e; try discriminate; cbn [step].
  - unfold on_stdin_data.
    pose proof (extractMessages_preserves (stdin_message JSON_parse JSON_stringify)
                  (fun s => bufferedNotifications s = bufferedNotifications st)
                  (fun c len s H => eq_trans (stdin_message_held c len s) H)
                  (stdinBuffer (set_stdinBuffer (stdinBuffer st ++ chunk) st))
                  (set_stdinBuffer (stdinBuffer st ++ chunk) st)
                  eq_refl) as H.
    destruct (extractMessages _ _ _) as [rest s]. exact H.
  - unfold on_connect. fields. destruct (isReconnecting st).
    + destruct (wasInitialized st); reflexivity.
    + fields. now rewrite flush_pending_held.
  - unfold on_close, scheduleReconnect.
    destruct (tcpSocket st); fields; destruct (shouldKeepRunning st); reflexivity.
  - unfold on_warmup_elapsed. fields. now rewrite flush_pending_held.
  - unfold on_reconnect_failed, scheduleReconnect. fields.
    destruct (shouldKeepRunning st); reflexivity.
Qed.

End Held.

(** C10. While the response is awaited, a message that parses, carries
    the tracked id and has no result is relayed at once and leaves the
    buffer armed with its held messages; a message that is not the awaited
    response never releases or drops a held message; the awaited response
    releases them; resetting the connection state drops them without
    relaying them; no event other than bytes from the peer and the
    reconnect timeout changes the held messages. *)
Theorem response_without_result_keeps_buffer (JSON_parse : jsstring -> option json)
    (st : state) (c : jsstring) (len : N) (msg : json) :
  waitingForInitialize st = true ->
  JSON_parse c = Some msg ->
  strict_eq (get_prop msg (str "id")) (initializeRequestId st) = true ->
  get_prop msg (str "result") = None ->
  (out (handleGodotMessage JSON_parse c len st) = out st ++ [relay c]
   /\ waitingForInitialize (handleGodotMessage JSON_parse c len st) = true
   /\ initializeRequestId (handleGodotMessage JSON_parse c len st) = initializeRequestId st
   /\ bufferedNotifications (handleGodotMessage JSON_parse c len st) = bufferedNotifications st)
  /\ (forall c' len',
        awaited JSON_parse (initializeRequestId st) c' = false ->
        waitingForInitialize (handleGodotMessage JSON_parse c' len' st) = true
        /\ (exists more, bufferedNotifications (handleGodotMessage JSON_parse c' len' st)
                         = bufferedNotifications st ++ more)
        /\ (exists passed, out (handleGodotMessage JSON_parse c' len' st) = out st ++ passed
                           /\ (passed = [] \/ passed = [relay c'])))
  /\ (forall c' len',
        awaited JSON_parse (initializeRequestId st) c' = true ->
        out (handleGodotMessage JSON_parse c' len' st)
        = out st ++ relay c' :: map (fun m => relay (content m)) (bufferedNotifications st)
        /\ waitingForInitialize (handleGodotMessage JSON_parse c' len' st) = false
        /\ bufferedNotifications (handleGodotMessage JSON_parse c' len' st) = [])
  /\ (bufferedNotifications (resetConnectionState st) = []
      /\ waitingForInitialize (resetConnectionState st) = false
      /\ out (resetConnectionState st) = out st)
  /\ (forall JSON_stringify s e,
        touches_held e = false ->
        bufferedNotifications (step JSON_parse JSON_stringify s e)
        = bufferedNotifications s).
Proof.
  intros Hw Hp Hid Hres.
  assert (Hna : awaited JSON_parse (initializeRequestId st) c = false).
  { unfold awaited. rewrite Hp, Hres. apply andb_false_r. }
  assert (Hnn : notification JSON_parse c = false).
  { unfold notification, is_notification. rewrite Hp.
    destruct (get_prop msg (str "id")); [apply andb_false_r|discriminate]. }
  split; [|split; [|split; [|split]]].
  - rewrite handle_while_waiting, Hna, Hnn by assumption. repeat split. exact Hw.
  - intros c' len' Ha. rewrite handle_while_waiting, Ha by assumption.
    destruct (notification JSON_parse c').
    + cbn. repeat split; [assumption|eexists; reflexivity|].
      exists []. rewrite app_nil_r. split; [reflexivity|now left].
    + cbn. repeat split; [assumption|exists []; now rewrite app_nil_r|].
      eexists. split; [reflexivity|now right].
  - intros c' len' Ha. rewrite handle_while_waiting, Ha by assumption.
    rewrite flush_notifications_eq. cbn. rewrite <- app_assoc. repeat split.
  - repeat split.
  - intros JSON_stringify s e He. now apply step_keeps_held.
Qed.


Lemma response_without_result_witness :
  let st := set_bufferedNotifications
              [{| content := Sample.notification_text "A"; contentLength := 14 |}]
              Sample.awaiting in
  let c := Sample.error_text in
  (out (handleGodotMessage Sample.parse c 19 st) = out st ++ [relay c]
   /\ waitingForInitialize (handleGodotMessage Sample.parse c 19 st) = true
   /\ initializeRequestId (handleGodotMessage Sample.parse c 19 st) = initializeRequestId st
   /\ bufferedNotifications (handleGodotMessage Sample.parse c 19 st)
      = bufferedNotifications st)
  /\ (forall c' len',
        awaited Sample.parse (initializeRequestId st) c' = false ->
        waitingForInitialize (handleGodotMessage Sample.parse c' len' st) = true
        /\ (exists more, bufferedNotifications (handleGodotMessage Sample.parse c' len' st)
                         = bufferedNotifications st ++ more)
        /\ (exists passed, out (handleGodotMessage Sample.parse c' len' st) = out st ++ passed
                           /\ (passed = [] \/ passed = [relay c'])))
  /\ (forall c' len',
        awaited Sample.parse (initializeRequestId st) c' = true ->
        out (handleGodotMessage Sample.parse c' len' st)
        = out st ++ relay c' :: map (fun m => relay (content m)) (bufferedNotifications st)
        /\ waitingForInitialize (handleGodotMessage Sample.parse c' len' st) = false
        /\ bufferedNotifications (handleGodotMessage Sample.parse c' len' st) = [])
  /\ (bufferedNotifications (resetConnectionState st) = []
      /\ waitingForInitialize (resetConnectionState st) = false
      /\ out (resetConnectionState st) = out st)
  /\ (forall JSON_stringify s e,
        touches_held e = false ->
        bufferedNotifications (step Sample.parse JSON_stringify s e)
        = bufferedNotifications s).
Proof.
  intros st c.
  exact (response_without_result_keeps_buffer Sample.parse st c 19
           (JObj [(str "id", JNum Sample.one); (str "error", JObj [])])
           eq_refl eq_refl eq_refl eq_refl).
Defined.

(** ** Staging queue and connection callbacks: claims C3, C4, C5, C6, C9 *)

Section Queue.
Variable JSON_parse : jsstring -> option json.
Variable JSON_stringify : json -> jsstring.

Local Notation "'stdin_cb'" := (stdin_message JSON_parse JSON_stringify).
Local Notation "'on_stdin'" := (on_stdin_data JSON_parse JSON_stringify).
Local Notation "'connected'" := (on_connect JSON_stringify).
Local Notation "'warmed'" := on_warmup_elapsed.
Local Notation "'payload_of'" := (forwarded_payload JSON_parse JSON_stringify).
Local Notation "'restart'" := (restart_text JSON_stringify).
Local Notation "'runs'" := (run JSON_parse JSON_stringify).

(** The connect callback on a reconnect. *)
Lemma on_connect_reconnecting st :
  isReconnecting st = true ->
  connected st
  = (if wasInitialized st then emit (relay restart) else fun s => s)
      (set_warmupTimer true (set_isWarmingUp true (set_isReconnecting false
         (set_pendingMessages [] (set_reconnectAttempts 0 (set_tcpConnected true st)))))).
Proof.
  intros Hr. unfold on_connect.
  cbn [isReconnecting set_reconnectAttempts set_tcpConnected].
  rewrite Hr. cbn. destruct (wasInitialized st); reflexivity.
Qed.

(** A close while the bridge is running, then the reconnect timeout. *)
Lemma on_close_running st :
  shouldKeepRunning st = true ->
  shouldKeepRunning (on_close st) = true
  /\ tcpConnected (on_close st) = false
  /\ isReconnecting (on_close st) = true
  /\ stdinBuffer (on_close st) = stdinBuffer st
  /\ pendingMessages (on_close st) = pendingMessages st
  /\ wasInitialized (on_close st) = wasInitialized st
  /\ socketsCreated (on_close st) = socketsCreated st
  /\ out (on_close st) = out st.
Proof.
  intros Hk. unfold on_close, scheduleReconnect.
  destruct (tcpSocket st); cbn; rewrite Hk; cbn; repeat split; exact Hk.
Qed.

Lemma on_reconnect_elapsed_running st :
  shouldKeepRunning st = true ->
  tcpSocket (on_reconnect_elapsed st)
  = Some {| sock_id := socketsCreated st; destroyed := false |}
  /\ isReconnecting (on_reconnect_elapsed st) = isReconnecting st
  /\ stdinBuffer (on_reconnect_elapsed st) = stdinBuffer st
  /\ wasInitialized (on_reconnect_elapsed st) = wasInitialized st
  /\ out (on_reconnect_elapsed st) = out st.
Proof.
  intros Hk. unfold on_reconnect_elapsed. cbn. rewrite Hk. cbn. repeat split.
Qed.








(** C5. On a reconnect the staging queue is emptied in the connect
    callback: whatever had been staged has no influence on anything that
    happens from the reconnect on, while frames that arrive during the
    warm-up are written to the new socket when it ends and frames that
    arrive afterwards are written at once.  After a close, whatever
    happens before the connect callback, that callback empties the queue. *)
Theorem stale_queue_discarded_on_reconnect (st : state) (old new : list jsstring) :
  shouldKeepRunning st = true ->
  stdinBuffer st = [] ->
  forallb well_formed old = true ->
  forallb well_formed new = true ->
  (forall s, isReconnecting s = true -> pendingMessages (connected s) = [])
  /\ (forall s q evs, isReconnecting s = true ->
        runs (TcpConnected :: evs) (set_pendingMessages q s)
        = runs (TcpConnected :: evs) (set_pendingMessages [] s))
  /\ (let new_sock := {| sock_id := socketsCreated st; destroyed := false |} in
      let evs := [TcpClosed; StdinData (frames_bytes old); ReconnectElapsed;
                  TcpConnected; StdinData (frames_bytes new); WarmupElapsed] in
      out (runs evs st)
      = out st ++ (if wasInitialized st then [relay restart] else [])
               ++ map (sent new_sock) new
      /\ pendingMessages (runs evs st) = []
      /\ not_deliverable (runs evs st) = false)
  /\ (forall s sock c len,
        not_deliverable s = false -> tcpSocket s = Some sock -> destroyed sock = false ->
        out (stdin_cb c len s) = out s ++ [sent sock (payload_of c)])
  /\ (forall evs,
        forallb (fun e => negb (is_connect e)) evs = true ->
        pendingMessages (runs (TcpClosed :: evs ++ [TcpConnected]) st) = []).
Proof.
  intros Hk Hb Hold Hnew.
  split; [|split; [|split; [|split]]].
  - intros s Hr. unfold on_connect.
    cbn [isReconnecting set_reconnectAttempts set_tcpConnected]. rewrite Hr.
    cbn. destruct (wasInitialized s); reflexivity.
  - intros s q evs Hr. unfold run. cbn [fold_left step]. f_equal.
    unfold on_connect.
    cbn [isReconnecting set_reconnectAttempts set_tcpConnected set_pendingMessages].
    rewrite Hr. reflexivity.
  - intros new_sock evs. subst evs. unfold run. cbn [fold_left step].
    destruct (on_close_running st Hk) as (Hk1 & Hc1 & Hr1 & Hb1 & Hp1 & Hi1 & Hn1 & Ho1).
    remember (on_close st) as s1 eqn:E1. clear E1.
    rewrite (on_stdin_staged JSON_parse JSON_stringify old s1);
      [ | now rewrite Hb1 | exact Hold | unfold not_deliverable; now rewrite Hc1 ].
    destruct (on_reconnect_elapsed_running
                (set_pendingMessages (pendingMessages s1 ++ map entry old) s1) Hk1)
      as (Hs3 & Hr3 & Hb3 & Hi3 & Ho3).
    cbn [socketsCreated isReconnecting stdinBuffer wasInitialized out set_pendingMessages]
      in Hs3, Hr3, Hb3, Hi3, Ho3.
    remember (on_reconnect_elapsed _) as s3 eqn:E3. clear E3.
    rewrite Hn1 in Hs3. fold new_sock in Hs3.
    rewrite Hr1 in Hr3. rewrite Hb1, Hb in Hb3. rewrite Hi1 in Hi3. rewrite Ho1 in Ho3.
    clear Hk1 Hc1 Hr1 Hb1 Hp1 Hi1 Hn1 Ho1 s1.
    pose proof (on_connect_reconnecting s3 Hr3) as E4.
    rewrite on_stdin_staged;
      [ | rewrite E4; destruct (wasInitialized s3); exact Hb3 | exact Hnew
        | rewrite E4; unfold not_deliverable;
          destruct (wasInitialized s3); cbn; rewrite ?orb_true_r; reflexivity ].
    unfold on_warmup_elapsed. rewrite (flush_pending_eq _ new_sock)
      by (rewrite E4; destruct (wasInitialized s3); exact Hs3).
    rewrite E4, <- Hi3, <- Ho3. unfold not_deliverable.
    destruct (wasInitialized s3); cbn; rewrite map_map, ?app_nil_r, <- ?app_assoc;
      repeat split.
  - intros s sock c len Hnd Hs Hd. unfold stdin_message.
    unfold not_deliverable in Hnd. rewrite Hnd.
    apply orb_false_iff in Hnd. destruct Hnd as [Hc _]. apply negb_false_iff in Hc.
    apply (sendToGodot_direct JSON_parse JSON_stringify c len s sock); assumption.
  - intros evs Hevs. unfold run. cbn [fold_left]. rewrite fold_left_app. cbn [fold_left step].
    destruct (on_close_running st Hk) as (Hk1 & _ & Hr1 & _).
    destruct (run_keeps_reconnecting JSON_parse JSON_stringify evs (on_close st)
                Hevs Hk1 Hr1) as [_ Hr2].
    unfold run in Hr2. rewrite on_connect_reconnecting by exact Hr2.
    destruct (wasInitialized _); reflexivity.
Qed.

(** The two ways of an initialize request through the stdin reader: handed
    to [sendToGodot] it arms the reorder buffer; staged by the reader it
    leaves the handshake variables as they are, and so does the flush that
    later writes it. *)
Lemma direct_request_is_tracked st c len msg :
  not_deliverable st = false ->
  JSON_parse c = Some msg ->
  is_initialize_request msg = true ->
  waitingForInitialize (stdin_cb c len st) = true
  /\ Some (initializeRequestId (stdin_cb c len st)) = get_prop msg (str "id")
  /\ wasInitialized (stdin_cb c len st) = false.
Proof.
  intros Hnd Hp Hi. unfold stdin_message. unfold not_deliverable in Hnd. rewrite Hnd.
  rewrite sendToGodot_eq.
  assert (Ht : waitingForInitialize (tracked JSON_parse c st) = true
               /\ Some (initializeRequestId (tracked JSON_parse c st))
                  = get_prop msg (str "id")
               /\ wasInitialized (tracked JSON_parse c st) = false).
  { unfold tracked. rewrite Hp. destruct msg as [| | | | |props]; try discriminate.
    rewrite Hi. fields.
    unfold is_initialize_request in Hi. apply andb_true_iff in Hi. destruct Hi as [_ Hi].
    destruct (get_prop (JObj props) (str "id")); [now repeat split|discriminate]. }
  destruct Ht as (Hw & Hid & Hi').
  destruct (tcpConnected st && socket_usable st).
  - unfold socket_write. destruct (tcpSocket _); fields; now rewrite Hw, Hid, Hi'.
  - fields. now rewrite Hw, Hid, Hi'.
Qed.

Lemma staged_request_is_not_tracked st c len :
  not_deliverable st = true ->
  waitingForInitialize (stdin_cb c len st) = waitingForInitialize st
  /\ initializeRequestId (stdin_cb c len st) = initializeRequestId st
  /\ pendingMessages (stdin_cb c len st)
     = pendingMessages st ++ [{| content := c; contentLength := len |}]
  /\ waitingForInitialize (flush_pending (stdin_cb c len st)) = waitingForInitialize st
  /\ initializeRequestId (flush_pending (stdin_cb c len st)) = initializeRequestId st.
Proof.
  intros Hnd. unfold stdin_message. unfold not_deliverable in Hnd. rewrite Hnd.
  repeat split; destruct (tcpSocket st) as [sock|] eqn:Hs;
    rewrite ?(flush_pending_eq _ sock), ?flush_pending_no_socket by exact Hs; reflexivity.
Qed.

(** C9 (amended). The URI transform is applied to what [sendToGodot]
    forwards or stages for the peer: a payload that parses to a value
    other than null goes out as the serialisation of its normalised
    value, any other payload unchanged.  Messages from the peer are
    relayed to standard output as received. *)
Theorem transform_applied_to_forwarded_client_messages (st : state) (c : jsstring)
    (len : N) :
  (forall msg, JSON_parse c = Some msg -> msg <> JNull ->
     payload_of c = JSON_stringify (normalizeUrisInObject msg))
  /\ (JSON_parse c = None -> payload_of c = c)
  /\ (forall sock, tcpConnected st = true -> tcpSocket st = Some sock ->
        destroyed sock = false ->
        out (sendToGodot JSON_parse JSON_stringify c len st)
        = out st ++ [sent sock (payload_of c)])
  /\ (tcpConnected st && socket_usable st = false ->
        out (sendToGodot JSON_parse JSON_stringify c len st) = out st
        /\ pendingMessages (sendToGodot JSON_parse JSON_stringify c len st)
           = pendingMessages st ++ [entry (payload_of c)])
  /\ (not_deliverable st = false ->
        stdin_cb c len st = sendToGodot JSON_parse JSON_stringify c len st)
  /\ (waitingForInitialize st = false ->
        out (handleGodotMessage JSON_parse c len st) = out st ++ [relay c])
  /\ (exists received,
        out (handleGodotMessage JSON_parse c len st) = out st ++ map relay received
        /\ incl received (c :: map content (bufferedNotifications st))).
Proof.
  split; [|split; [|split; [|split; [|split; [|split]]]]].
  - intros msg Hp Hn. unfold forwarded_payload. rewrite Hp.
    destruct msg; try reflexivity. contradiction.
  - intros Hp. unfold forwarded_payload. now rewrite Hp.
  - intros sock Hc Hs Hd.
    apply (sendToGodot_direct JSON_parse JSON_stringify c len st sock); assumption.
  - intros H. now apply sendToGodot_staged.
  - intros Hnd. unfold stdin_message. unfold not_deliverable in Hnd. now rewrite Hnd.
  - intros Hw. rewrite handle_pass_through by assumption. reflexivity.
  - destruct (waitingForInitialize st) eqn:Hw.
    + rewrite handle_while_waiting by assumption.
      destruct (awaited _ _ _).
      * exists (c :: map content (bufferedNotifications st)). split; [|apply incl_refl].
        rewrite flush_notifications_eq. cbn. rewrite <- app_assoc, map_map. reflexivity.
      * destruct (notification _ _).
        -- exists []. split; [cbn; now rewrite app_nil_r | apply incl_nil_l].
        -- exists [c]. split; [reflexivity|]. intros x [Hx|[]]. now left.
    + exists [c]. rewrite handle_pass_through by assumption.
      split; [reflexivity|]. intros x [Hx|[]]. now left.
Qed.

End Queue.

(** *** Instances on the sample runtime *)





Lemma stale_queue_discarded_witness :
  let st := Sample.initialized in
  let old := [Sample.notification_text "A"] in
  let new := [Sample.notification_text "B"] in
  let evs := [TcpClosed; StdinData (frames_bytes old); ReconnectElapsed;
              TcpConnected; StdinData (frames_bytes new); WarmupElapsed] in
  out (run Sample.parse Sample.stringify evs st)
  = [relay (restart_text Sample.stringify);
     sent {| sock_id := 1; destroyed := false |} (Sample.notification_text "B")]
  /\ pendingMessages (run Sample.parse Sample.stringify evs st) = []
  /\ not_deliverable (run Sample.parse Sample.stringify evs st) = false.
Proof.
  intros st old new evs.
  destruct (stale_queue_discarded_on_reconnect Sample.parse Sample.stringify st old new
              eq_refl eq_refl eq_refl eq_refl) as [_ [_ [Hrun _]]].
  exact Hrun.
Defined.

(** C6 fails on the code: the same initialize request reaches the peer
    both ways, but only the direct way arms the reorder buffer; staged
    before the connection, it is written at the flush and a notification
    that overtakes the response is relayed before it. *)
Theorem staged_initialize_bypasses_tracking :
  let c := Sample.initialize_text in
  let staged := run Sample.parse Sample.stringify
                  [StdinData (frame_bytes c); TcpConnected] Sample.connecting in
  let direct := run Sample.parse Sample.stringify
                  [TcpConnected; StdinData (frame_bytes c)] Sample.connecting in
  let answer := TcpData (frames_bytes [Sample.notification_text "A"; Sample.response_text]) in
  initialize_request Sample.parse c = true
  /\ (out staged = [sent Sample.a_socket c]
      /\ waitingForInitialize staged = false
      /\ initializeRequestId staged = JNull
      /\ out (run Sample.parse Sample.stringify [answer] staged)
         = [sent Sample.a_socket c; relay (Sample.notification_text "A");
            relay Sample.response_text])
  /\ (out direct = [sent Sample.a_socket c]
      /\ waitingForInitialize direct = true
      /\ initializeRequestId direct = JNum Sample.one
      /\ out (run Sample.parse Sample.stringify [answer] direct)
         = [sent Sample.a_socket c; relay Sample.response_text;
            relay (Sample.notification_text "A")]).
Proof. vm_compute. repeat split. Qed.

Lemma transform_applied_witness :
  let st := set_tcpConnected true Sample.connecting in
  let c := Sample.uri_text in
  forwarded_payload Sample.parse Sample.stringify c
    = Sample.stringify (JObj [(str "uri", JStr (str "file:///C:/a"))])
  /\ out (sendToGodot Sample.parse Sample.stringify c 21 st)
     = [sent Sample.a_socket (Sample.stringify (JObj [(str "uri", JStr (str "file:///C:/a"))]))]
  /\ out (handleGodotMessage Sample.parse c 21 st) = [relay c].
Proof.
  intros st c.
  destruct (transform_applied_to_forwarded_client_messages Sample.parse Sample.stringify
              st c 21) as [Hp [_ [Hout [_ [_ [Hin _]]]]]].
  split; [exact (Hp _ eq_refl ltac:(discriminate))|].
  split; [exact (Hout Sample.a_socket eq_refl eq_refl eq_refl)|].
  exact (Hin eq_refl).
Defined.

(** C9 as stated fails on the direction from the peer: a message with a
    file URI that the transform would rewrite is relayed as received. *)
Lemma inbound_message_not_transformed :
  let c := Sample.uri_text in
  let st := handleGodotMessage Sample.parse c 21 Sample.initialized in
  out st = [relay c]
  /\ forwarded_payload Sample.parse Sample.stringify c
     = str "{" ++ Sample.quoted "uri" ++ str ":" ++ Sample.quoted "file:///C:/a" ++ str "}"
  /\ forwarded_payload Sample.parse Sample.stringify c <> c.
Proof. repeat split. vm_compute. discriminate. Qed.

(** ** The variant without reconnection *)

(** In [index.mjs] the stdin reader always calls [sendToGodot], which
    tracks an initialize request before it writes or stages it: staged or
    not, the request arms the reorder buffer, and the staged frame is later
    written with the very bytes of a direct send. *)
Lemma simple_initialize_tracked_when_staged JSON_parse c len st msg :
  JSON_parse c = Some msg ->
  is_initialize_request msg = true ->
  waitingForInitialize (Simple.sendToGodot JSON_parse c len st) = true
  /\ Some (initializeRequestId (Simple.sendToGodot JSON_parse c len st))
     = get_prop msg (str "id")
  /\ (tcpConnected st = false ->
      pendingMessages (Simple.sendToGodot JSON_parse c len st)
      = pendingMessages st ++ [{| content := c; contentLength := len |}])
  /\ (tcpConnected st = false -> pendingMessages st = [] ->
      forall sock, tcpSocket st = Some sock -> destroyed sock = false ->
      out (Simple.on_connect (Simple.sendToGodot JSON_parse c len st))
      = out (Simple.sendToGodot JSON_parse c len (set_tcpConnected true st))).
Proof.
  intros Hp Hi. unfold Simple.sendToGodot. rewrite Hp.
  destruct msg as [| | | | |props]; try discriminate. rewrite Hi.
  assert (Hid : exists i, get_prop (JObj props) (str "id") = Some i).
  { unfold is_initialize_request in Hi. apply andb_true_iff in Hi. destruct Hi as [_ Hi].
    destruct (get_prop (JObj props) (str "id")) as [i|]; [now exists i|discriminate]. }
  destruct Hid as [i Hid]. rewrite Hid.
  unfold socket_usable, socket_write, Simple.on_connect. fields.
  destruct (tcpConnected st); cbn [andb].
  - destruct (tcpSocket st) as [[id d]|]; fields.
    + destruct d; cbn [negb]; fields;
        (split; [reflexivity|]; split; [reflexivity|]; split; discriminate).
    + split; [reflexivity|]; split; [reflexivity|]; split; discriminate.
  - fields. split; [reflexivity|]. split; [reflexivity|]. split; [reflexivity|].
    intros _ Hq sock Hs Hd. rewrite Hq, Hs, Hd. cbn [app fold_left negb]. fields.
    unfold socket_write. fields. rewrite Hs. reflexivity.
Qed.

Example simple_staged_initialize :
  let c := Sample.initialize_text in
  let staged := Simple.on_connect
                  (Simple.on_stdin_data Sample.parse (frame_bytes c) Sample.connecting) in
  out staged = [sent Sample.a_socket c]
  /\ waitingForInitialize staged = true
  /\ initializeRequestId staged = JNum Sample.one
  /\ out (Simple.on_tcp_data Sample.parse
            (frames_bytes [Sample.notification_text "A"; Sample.response_text]) staged)
     = [sent Sample.a_socket c; relay Sample.response_text;
        relay (Sample.notification_text "A")].
Proof. vm_compute. repeat split. Qed.

(** The reorder buffer of [index.mjs] differs only in the printed length. *)
Lemma simple_flush_notifications_eq st :
  Simple.flush_notifications st
  = set_out (out st ++ map relay_as_received (bufferedNotifications st)) st.
Proof.
  unfold Simple.flush_notifications, Simple.writeToStdout.
  apply (fold_emit relay_as_received).
Qed.

Lemma simple_handle_while_waiting JSON_parse c len st :
  waitingForInitialize st = true ->
  Simple.handleGodotMessage JSON_parse c len st =
  if awaited JSON_parse (initializeRequestId st) c then
    set_bufferedNotifications []
      (Simple.flush_notifications
         (set_waitingForInitialize false (Simple.writeToStdout c len st)))
  else if notification JSON_parse c then
    set_bufferedNotifications
      (bufferedNotifications st ++ [{| content := c; contentLength := len |}]) st
  else Simple.writeToStdout c len st.
Proof.
  intros Hw. unfold Simple.handleGodotMessage, awaited, notification, is_awaited_response.
  destruct (JSON_parse c) as [msg|]; [|reflexivity].
  rewrite Hw. destruct msg; reflexivity.
Qed.

Lemma simple_handshake_reordering JSON_parse st (held : list message) (r after : message) :
  waitingForInitialize st = true ->
  bufferedNotifications st = [] ->
  forallb (fun m => notification JSON_parse (content m)) held = true ->
  awaited JSON_parse (initializeRequestId st) (content r) = true ->
  let handle := fun s m => Simple.handleGodotMessage JSON_parse (content m) (contentLength m) s in
  out (fold_left handle (held ++ [r; after]) st)
  = out st ++ relay_as_received r :: map relay_as_received held ++ [relay_as_received after].
Proof.
  intros Hw Hempty Hheld Hr handle.
  assert (H1 : forall l s,
            waitingForInitialize s = true ->
            initializeRequestId s = initializeRequestId st ->
            forallb (fun m => notification JSON_parse (content m)) l = true ->
            fold_left handle l s
            = set_bufferedNotifications (bufferedNotifications s ++ l) s).
  { induction l as [|m l IH]; intros s Hs Hid Hl.
    - cbn [fold_left]. rewrite app_nil_r. now destruct s.
    - cbn [forallb] in Hl. apply andb_true_iff in Hl. destruct Hl as [Hm Hl].
      cbn [fold_left]. unfold handle at 2.
      rewrite simple_handle_while_waiting by exact Hs.
      replace (awaited JSON_parse (initializeRequestId s) (content m)) with false.
      2:{ symmetry.
          destruct (awaited JSON_parse (initializeRequestId s) (content m)) eqn:E;
            [|reflexivity].
          apply awaited_not_notification in E. congruence. }
      rewrite Hm, IH; [|exact Hs|exact Hid|exact Hl].
      fields. rewrite <- app_assoc. destruct m. reflexivity. }
  rewrite fold_left_app, (H1 held st Hw eq_refl Hheld).
  cbn [fold_left]. unfold handle.
  rewrite (simple_handle_while_waiting JSON_parse (content r) (contentLength r)
             (set_bufferedNotifications (bufferedNotifications st ++ held) st)) by exact Hw.
  fields. rewrite Hr, simple_flush_notifications_eq.
  unfold Simple.handleGodotMessage, Simple.writeToStdout. fields.
  rewrite Hempty. cbn [app].
  destruct (JSON_parse (content after)); fields;
    unfold relay_as_received; rewrite <- !app_assoc; reflexivity.
Qed.

(** * Further properties of the code *)

(** ** Frames as a sender may print them *)

Lemma indexOf_after_prefix h x :
  forallb (fun b => negb (b =? 13)) h = true ->
  indexOf (h ++ x) HEADER_DELIMITER
  = option_map (fun i => (length h + i)%nat) (indexOf x HEADER_DELIMITER).
Proof.
  induction h as [|y h IH]; intros H.
  - cbn [app length]. destruct (indexOf x HEADER_DELIMITER); reflexivity.
  - cbn [forallb] in H. apply andb_true_iff in H. destruct H as [Hy Hh].
    apply negb_true_iff in Hy.
    cbn [app indexOf length]. unfold HEADER_DELIMITER at 1. cbn [starts_with].
    rewrite Z.eqb_sym, Hy. cbn [andb]. rewrite (IH Hh).
    destruct (indexOf x HEADER_DELIMITER); reflexivity.
Qed.

Lemma digits_no_cr digits :
  forallb is_digit digits = true -> forallb (fun b => negb (b =? 13)) digits = true.
Proof.
  induction digits as [|d ds IH]; [reflexivity|].
  cbn [forallb]. intros H. apply andb_true_iff in H. destruct H as [H1 H2].
  rewrite IH by assumption. unfold is_digit in H1.
  replace (d =? 13) with false by (symmetry; test_false). reflexivity.
Qed.

Lemma take_digits_until digits t :
  forallb is_digit digits = true ->
  match t with [] => true | u :: _ => negb (is_digit u) end = true ->
  take_digits (digits ++ t) = digits.
Proof.
  intros Hd Ht. induction digits as [|d ds IH].
  - destruct t as [|u t]; [reflexivity|]. cbn [app take_digits].
    apply negb_true_iff in Ht. now rewrite Ht.
  - cbn [forallb] in Hd. apply andb_true_iff in Hd. destruct Hd as [H1 H2].
    cbn [app take_digits]. rewrite H1, IH by assumption. reflexivity.
Qed.

Lemma match_length_field digits t :
  forallb is_digit digits = true -> digits <> [] ->
  match t with [] => true | u :: _ => negb (is_digit u) end = true ->
  content_length_match (str "Content-Length: " ++ digits ++ t) = Some digits.
Proof.
  intros Hd Hne Ht.
  assert (H : match_here (str "Content-Length: " ++ digits ++ t) = Some digits).
  { unfold match_here.
    change (match_literal_ci (str "Content-Length:") (str "Content-Length: " ++ digits ++ t))
      with (Some (0x20 :: digits ++ t)).
    cbn [skip_spaces]. change (is_space 0x20) with true. cbn iota.
    destruct digits as [|d ds]; [contradiction|].
    cbn [forallb] in Hd. apply andb_true_iff in Hd. destruct Hd as [H1 H2].
    cbn [app skip_spaces]. rewrite (digit_not_space _ H1).
    change (d :: ds ++ t) with ((d :: ds) ++ t).
    rewrite take_digits_until; [reflexivity| |assumption].
    cbn [forallb]. now rewrite H1, H2. }
  destruct digits as [|d ds]; [contradiction|].
  change (str "Content-Length: " ++ (d :: ds) ++ t)
    with (0x43 :: (skipn 1 (str "Content-Length: ") ++ (d :: ds) ++ t)) in *.
  cbn [content_length_match]. rewrite H. reflexivity.
Qed.

Lemma decode_header_lines extra :
  header_lines extra = true ->
  match utf8_decode extra with [] => true | u :: _ => negb (is_digit u) end = true.
Proof.
  destruct extra as [|a [|b line]]; try discriminate; [reflexivity|].
  cbn [header_lines]. intros H. apply andb_true_iff in H. destruct H as [Ha Hb].
  apply Z.eqb_eq in Ha. subst a. rewrite decode_ascii by lia. reflexivity.
Qed.

(** Where the header of a raw frame ends and what its length field says. *)
Lemma raw_header_parsed (extra body tail : Buffer) :
  header_lines extra = true ->
  indexOf (extra ++ HEADER_DELIMITER) HEADER_DELIMITER = Some (length extra) ->
  let header := str "Content-Length: " ++ Number_toString (N.of_nat (length body)) in
  let buffer := header ++ extra ++ HEADER_DELIMITER ++ tail in
  indexOf buffer HEADER_DELIMITER = Some (length header + length extra)%nat
  /\ content_length_match (utf8_decode (slice 0 (length header + length extra) buffer))
     = Some (Number_toString (N.of_nat (length body))).
Proof.
  intros Hx Hi header buffer.
  set (digits := Number_toString (N.of_nat (length body))) in *.
  assert (Hd : forallb is_digit digits = true) by apply Number_toString_digits.
  assert (Hne : digits <> []) by apply Number_toString_nonempty.
  assert (Ha : is_ascii header = true).
  { subst header. rewrite is_ascii_app, (digits_ascii _ Hd). reflexivity. }
  assert (Hno : forallb (fun b => negb (b =? 13)) header = true).
  { subst header. rewrite forallb_app, (digits_no_cr _ Hd). reflexivity. }
  split.
  - subst buffer. rewrite indexOf_after_prefix by exact Hno.
    rewrite (app_assoc extra), (indexOf_app _ _ tail _ Hi). reflexivity.
  - subst buffer. unfold slice. cbn [skipn]. rewrite Nat.sub_0_r.
    rewrite (app_assoc header extra), <- length_app.
    rewrite firstn_app, Nat.sub_diag, firstn_all. cbn [firstn]. rewrite app_nil_r.
    rewrite decode_ascii_app by exact Ha.
    subst header. rewrite <- app_assoc.
    apply match_length_field; [exact Hd | exact Hne | now apply decode_header_lines].
Qed.

(** A raw frame at the head of the buffer is delivered: the text decoded
    from its body, with the length the header declares. *)
Lemma extractMessages_raw_frame {St : Type} (onMessage : jsstring -> N -> St -> St)
    (extra body rest : Buffer) st :
  header_lines extra = true ->
  indexOf (extra ++ HEADER_DELIMITER) HEADER_DELIMITER = Some (length extra) ->
  extractMessages onMessage (raw_frame extra body ++ rest) st
  = extractMessages onMessage rest
      (onMessage (utf8_decode body) (N.of_nat (length body)) st).
Proof.
  intros Hx Hi.
  destruct (raw_header_parsed extra body (body ++ rest) Hx Hi) as [Hidx Hm].
  unfold raw_frame. rewrite <- !app_assoc.
  set (digits := Number_toString (N.of_nat (length body))) in *.
  rewrite (app_assoc (str _) digits).
  set (header := str "Content-Length: " ++ digits) in *.
  rewrite extractMessages_eq, Hidx, Hm. cbv zeta.
  subst digits. rewrite parseInt_Number_toString.
  set (pre := header ++ extra ++ HEADER_DELIMITER).
  assert (Hpre : length pre = (length header + length extra + 4)%nat).
  { subst pre. rewrite !length_app. cbn [HEADER_DELIMITER length]. lia. }
  replace (header ++ extra ++ HEADER_DELIMITER ++ body ++ rest) with (pre ++ body ++ rest)
    by (subst pre; now rewrite <- !app_assoc).
  rewrite <- Hpre.
  replace (N.to_nat (N.of_nat (length pre) + N.of_nat (length body)))
    with (length pre + length body)%nat by lia.
  replace (N.of_nat (length (pre ++ body ++ rest)) <?
           N.of_nat (length pre) + N.of_nat (length body))%N with false
    by (symmetry; apply N.ltb_ge; rewrite !length_app; lia).
  rewrite slice_middle, skipn_middle. reflexivity.
Qed.

(** ** The extraction loop on partial and on arbitrary input *)

(** X1. A proper prefix of a frame, cut anywhere in the header, in the
    delimiter or in the body, is kept whole and nothing is delivered. *)
Theorem partial_frame_is_retained {St : Type} (onMessage : jsstring -> N -> St -> St)
    (extra body : Buffer) (k : nat) (st : St) :
  header_lines extra = true ->
  indexOf (extra ++ HEADER_DELIMITER) HEADER_DELIMITER = Some (length extra) ->
  (k < length (raw_frame extra body))%nat ->
  extractMessages onMessage (firstn k (raw_frame extra body)) st
  = (firstn k (raw_frame extra body), st).
Proof.
  intros Hx Hi Hk.
  unfold raw_frame in *.
  set (digits := Number_toString (N.of_nat (length body))) in *.
  rewrite (app_assoc (str _) digits) in *.
  set (header := str "Content-Length: " ++ digits) in *.
  set (p := (length header + length extra)%nat).
  set (pre := header ++ extra ++ HEADER_DELIMITER).
  assert (Hpre : length pre = (p + 4)%nat).
  { subst pre p. rewrite !length_app. cbn [HEADER_DELIMITER length]. lia. }
  assert (HF : header ++ extra ++ HEADER_DELIMITER ++ body = pre ++ body)
    by (subst pre; now rewrite <- !app_assoc).
  rewrite HF in *. rewrite length_app, Hpre in Hk.
  destruct (le_lt_dec (p + 4) k) as [Hge|Hlt].
  - rewrite firstn_app, Hpre, firstn_all2 by lia.
    set (part := firstn (k - (p + 4)) body).
    assert (Hpart : length part = (k - (p + 4))%nat)
      by (subst part; rewrite length_firstn; lia).
    destruct (raw_header_parsed extra body part Hx Hi) as [Hidx Hm].
    fold digits header in Hidx, Hm.
    replace (pre ++ part) with (header ++ extra ++ HEADER_DELIMITER ++ part)
      by (subst pre; now rewrite <- !app_assoc).
    rewrite extractMessages_eq, Hidx, Hm. cbv zeta.
    subst digits. rewrite parseInt_Number_toString.
    replace (N.of_nat (length (header ++ extra ++ HEADER_DELIMITER ++ part)) <?
             N.of_nat (length header + length extra + 4) + N.of_nat (length body))%N
      with true; [reflexivity|].
    symmetry. apply N.ltb_lt. rewrite !length_app. cbn [HEADER_DELIMITER length].
    fold p. lia.
  - destruct (raw_header_parsed extra body body Hx Hi) as [Hidx _].
    fold digits header in Hidx. cbv zeta in Hidx. rewrite HF in Hidx. fold p in Hidx.
    rewrite extractMessages_eq.
    destruct (indexOf (firstn k (pre ++ body)) HEADER_DELIMITER) as [i|] eqn:Ei;
      [|reflexivity].
    exfalso.
    pose proof (indexOf_app _ _ (skipn k (pre ++ body)) _ Ei) as Ei'.
    rewrite firstn_skipn, Hidx in Ei'. inversion Ei'; subst i.
    apply indexOf_bound in Ei. cbn [HEADER_DELIMITER length] in Ei.
    rewrite length_firstn in Ei. lia.
Qed.

Lemma partial_frame_is_retained_witness :
  extractMessages collect (firstn 21 (raw_frame [] [0x7B; 0x7D])) []
  = (firstn 21 (raw_frame [] [0x7B; 0x7D]), []).
Proof.
  apply (partial_frame_is_retained collect [] [0x7B; 0x7D] 21 [] eq_refl eq_refl).
  vm_compute. lia.
Defined.

Lemma replay_collect msgs : forall acc, replay collect msgs acc = acc ++ msgs.
Proof.
  unfold replay. induction msgs as [|m msgs IH]; intros acc; cbn [fold_left].
  - now rewrite app_nil_r.
  - rewrite IH. unfold collect. rewrite <- app_assoc. now destruct m.
Qed.

(** The loop with a recording callback and the loop with any callback take
    the same branches. *)
Lemma extract_loop_factor {St : Type} (onMessage : jsstring -> N -> St -> St) fuel :
  forall remaining st acc,
  exists msgs,
    extract_loop collect fuel remaining acc
    = (fst (extract_loop onMessage fuel remaining st), acc ++ msgs)
    /\ snd (extract_loop onMessage fuel remaining st) = replay onMessage msgs st.
Proof.
  induction fuel as [|fuel IH]; intros remaining st acc.
  - exists []. cbn. now rewrite app_nil_r.
  - cbn [extract_loop].
    destruct (indexOf remaining HEADER_DELIMITER) as [headerEnd|];
      [|exists []; cbn; now rewrite app_nil_r].
    destruct (content_length_match _) as [digits|]; [|apply IH].
    cbv zeta.
    destruct (_ <? _)%N; [exists []; cbn; now rewrite app_nil_r|].
    match goal with
    | |- context [extract_loop onMessage fuel ?r (onMessage ?c ?len st)] =>
        destruct (IH r (onMessage c len st) (collect c len acc)) as [msgs [H1 H2]];
        exists ((c, len) :: msgs)
    end.
    rewrite H1, H2. unfold collect. rewrite <- app_assoc. split; reflexivity.
Qed.

(** X2. Framing does not depend on the callback: the bytes kept and the
    messages found are those a recording callback sees, and the callback
    runs once on each of them, in order. *)
Theorem extraction_factors_through_collect {St : Type}
    (onMessage : jsstring -> N -> St -> St) (buffer : Buffer) (st : St) :
  extractMessages onMessage buffer st
  = (fst (extractMessages collect buffer []),
     replay onMessage (snd (extractMessages collect buffer [])) st).
Proof.
  unfold extractMessages.
  destruct (extract_loop_factor onMessage (S (length buffer)) buffer st [])
    as [msgs [H1 H2]].
  rewrite H1. cbn [fst snd app]. rewrite <- H2.
  now destruct (extract_loop onMessage (S (length buffer)) buffer st).
Qed.

Lemma extract_loop_suffix {St : Type} (onMessage : jsstring -> N -> St -> St) fuel :
  forall remaining st,
  exists k, fst (extract_loop onMessage fuel remaining st) = skipn k remaining.
Proof.
  induction fuel as [|fuel IH]; intros remaining st; [now exists 0%nat|].
  cbn [extract_loop].
  destruct (indexOf remaining HEADER_DELIMITER) as [headerEnd|]; [|now exists 0%nat].
  destruct (content_length_match _) as [digits|].
  - cbv zeta. destruct (_ <? _)%N; [now exists 0%nat|].
    match goal with
    | |- context [extract_loop onMessage fuel (skipn ?j remaining) ?s] =>
        destruct (IH (skipn j remaining) s) as [k Hk]; exists (k + j)%nat
    end.
    rewrite Hk. apply skipn_skipn.
  - destruct (IH (skipn (headerEnd + 4) remaining) st) as [k Hk].
    exists (k + (headerEnd + 4))%nat. rewrite Hk. apply skipn_skipn.
Qed.

(** X3. What the extraction keeps is a tail of its input, and it is
    final: a further pass over it, with any callback, delivers nothing and
    keeps it as it is. *)
Theorem remainder_is_stable_suffix {St St' : Type}
    (onMessage : jsstring -> N -> St -> St) (onMessage' : jsstring -> N -> St' -> St')
    (buffer : Buffer) (st : St) (st' : St') :
  let rest := fst (extractMessages onMessage buffer st) in
  (exists k, rest = skipn k buffer)
  /\ extractMessages onMessage' rest st' = (rest, st').
Proof.
  cbv zeta. split; [apply extract_loop_suffix|].
  unfold extractMessages at 2 3.
  destruct (extract_loop_factor onMessage (S (length buffer)) buffer st [])
    as [msgs [H0 _]].
  cbn [app] in H0. fold (extractMessages collect buffer []) in H0.
  set (rest := fst (extract_loop onMessage (S (length buffer)) buffer st)) in *.
  clearbody rest.
  assert (H1 : extractMessages collect rest msgs = (rest, msgs)).
  { pose proof (extractMessages_app collect buffer [] []) as H.
    rewrite !app_nil_r, H0 in H. cbn [fst snd] in H. now rewrite <- H. }
  assert (H2 : extractMessages collect rest [] = (rest, [])).
  { unfold extractMessages in *.
    destruct (extract_loop_factor collect (S (length rest)) rest msgs []) as [m [Ha Hb]].
    rewrite H1 in Ha, Hb. cbn [fst snd app] in Ha, Hb.
    rewrite replay_collect in Hb.
    assert (m = []).
    { apply (f_equal (@length _)) in Hb. rewrite length_app in Hb.
      destruct m; [reflexivity|cbn [length] in Hb; lia]. }
    now subst m. }
  unfold extractMessages in *.
  destruct (extract_loop_factor onMessage' (S (length rest)) rest st' []) as [m [Ha Hb]].
  rewrite H2 in Ha. cbn [app] in Ha.
  destruct (extract_loop onMessage' (S (length rest)) rest st') as [r s'].
  cbn [fst snd] in Ha, Hb. inversion Ha; subst. reflexivity.
Qed.

Lemma slice_skipn (i j k : nat) (b : Buffer) :
  (i <= j)%nat -> slice i j (skipn k b) = slice (i + k) (i + k + (j - i)) b.
Proof.
  intros H. unfold slice. rewrite skipn_skipn. f_equal. lia.
Qed.

(** X4. Whatever bytes arrive, each delivered payload is well-formed text:
    the decoding of exactly as many bytes of the input as the header
    declared, all of them inside the input. *)
Theorem delivered_payload_is_decoded_body (buffer : Buffer) :
  is_bytes buffer = true ->
  Forall (fun m =>
            well_formed (fst m) = true
            /\ exists i, (i + N.to_nat (snd m) <= length buffer)%nat
                 /\ fst m = utf8_decode (slice i (i + N.to_nat (snd m)) buffer))
         (snd (extractMessages collect buffer [])).
Proof.
  intros Hb. unfold extractMessages.
  set (P := fun m : jsstring * N =>
            well_formed (fst m) = true
            /\ exists i, (i + N.to_nat (snd m) <= length buffer)%nat
                 /\ fst m = utf8_decode (slice i (i + N.to_nat (snd m)) buffer)).
  assert (H : forall fuel remaining acc k,
             remaining = skipn k buffer -> Forall P acc ->
             Forall P (snd (extract_loop collect fuel remaining acc))).
  { induction fuel as [|fuel IH]; intros remaining acc k Hr Hacc; [exact Hacc|].
    cbn [extract_loop].
    destruct (indexOf remaining HEADER_DELIMITER) as [headerEnd|]; [|exact Hacc].
    destruct (content_length_match _) as [digits|].
    - cbv zeta.
      destruct (N.ltb_spec (N.of_nat (length remaining))
                  (N.of_nat (headerEnd + 4) + parseInt digits)) as [Hshort|Hfull];
        [exact Hacc|].
      apply (IH _ _ (N.to_nat (N.of_nat (headerEnd + 4) + parseInt digits) + k)%nat).
      + subst remaining. apply skipn_skipn.
      + unfold collect. apply Forall_app. split; [exact Hacc|].
        constructor; [|constructor]. subst P. cbn [fst snd].
        subst remaining. rewrite length_skipn in Hfull.
        rewrite slice_skipn by lia.
        replace (N.to_nat (N.of_nat (headerEnd + 4) + parseInt digits) - (headerEnd + 4))%nat
          with (N.to_nat (parseInt digits)) by lia.
        split.
        * apply utf8_decode_well_formed. unfold slice.
          now apply is_bytes_firstn, is_bytes_skipn.
        * exists (headerEnd + 4 + k)%nat. split; [lia|reflexivity].
    - apply (IH _ _ (headerEnd + 4 + k)%nat); [|exact Hacc].
      subst remaining. apply skipn_skipn. }
  apply (H _ _ _ 0%nat); [reflexivity|constructor].
Qed.

Lemma delivered_payload_is_decoded_body_witness :
  Forall (fun m =>
            well_formed (fst m) = true
            /\ exists i, (i + N.to_nat (snd m) <= length (raw_frame [] [0xFF; 0x7D]%Z))%nat
                 /\ fst m = utf8_decode
                              (slice i (i + N.to_nat (snd m)) (raw_frame [] [0xFF; 0x7D])))
         (snd (extractMessages collect (raw_frame [] [0xFF; 0x7D]) [])).
Proof.
  apply (delivered_payload_is_decoded_body (raw_frame [] [0xFF; 0x7D]) eq_refl).
Defined.

Lemma consumed_app a b : consumed (a ++ b) = (consumed a + consumed b)%N.
Proof.
  unfold consumed. induction a as [|m a IH]; cbn [app fold_right]; [reflexivity|].
  rewrite IH. lia.
Qed.

(** X5. No byte is used twice: the bodies delivered, a delimiter for each
    of them and the bytes kept never add up to more than the input. *)
Theorem delivered_bytes_are_bounded (buffer : Buffer) :
  (N.of_nat (length (fst (extractMessages collect buffer [])))
   + consumed (snd (extractMessages collect buffer []))
   <= N.of_nat (length buffer))%N.
Proof.
  unfold extractMessages.
  assert (H : forall fuel remaining acc,
             (N.of_nat (length (fst (extract_loop collect fuel remaining acc)))
              + consumed (snd (extract_loop collect fuel remaining acc))
              <= N.of_nat (length remaining) + consumed acc)%N).
  { induction fuel as [|fuel IH]; intros remaining acc; [cbn [extract_loop fst snd]; lia|].
    cbn [extract_loop].
    destruct (indexOf remaining HEADER_DELIMITER) as [headerEnd|] eqn:Ei;
      [|cbn [fst snd]; lia].
    apply indexOf_bound in Ei. cbn [HEADER_DELIMITER length] in Ei.
    destruct (content_length_match _) as [digits|].
    - cbv zeta.
      destruct (N.ltb_spec (N.of_nat (length remaining))
                  (N.of_nat (headerEnd + 4) + parseInt digits)) as [Hshort|Hfull];
        [cbn [fst snd]; lia|].
      etransitivity; [apply IH|].
      unfold collect. rewrite consumed_app, length_skipn.
      cbn [consumed fold_right snd]. lia.
    - etransitivity; [apply IH|]. rewrite length_skipn. lia. }
  specialize (H (S (length buffer)) buffer []). cbn [consumed fold_right] in H. lia.
Qed.

(** ** The header pattern *)

Lemma canonicalize_idem u : canonicalize (canonicalize u) = canonicalize u.
Proof.
  unfold canonicalize.
  destruct ((0x61 <=? u) && (u <=? 0x7A)) eqn:E; [|now rewrite E].
  replace ((0x61 <=? u - 32) && (u - 32 <=? 0x7A)) with false; [reflexivity|].
  symmetry. test_false.
Qed.

Lemma is_space_canonicalize u : is_space (canonicalize u) = is_space u.
Proof.
  unfold canonicalize.
  destruct ((0x61 <=? u) && (u <=? 0x7A)) eqn:E; [|reflexivity].
  transitivity false; [|symmetry]; unfold is_space;
    repeat (apply orb_false_iff; split); test_false.
Qed.

Lemma is_digit_canonicalize u : is_digit (canonicalize u) = is_digit u.
Proof.
  unfold canonicalize.
  destruct ((0x61 <=? u) && (u <=? 0x7A)) eqn:E; [|reflexivity].
  transitivity false; [|symmetry]; unfold is_digit; test_false.
Qed.

Lemma canonicalize_digit u : is_digit u = true -> canonicalize u = u.
Proof.
  unfold is_digit, canonicalize. intros H.
  replace ((0x61 <=? u) && (u <=? 0x7A)) with false; [reflexivity|].
  symmetry. test_false.
Qed.

Lemma match_literal_ci_canonicalize pat : forall s,
  match_literal_ci pat (map canonicalize s)
  = option_map (map canonicalize) (match_literal_ci pat s).
Proof.
  induction pat as [|p pat IH]; intros s; [reflexivity|].
  destruct s as [|u s]; [reflexivity|].
  cbn [map match_literal_ci]. rewrite canonicalize_idem.
  destruct (canonicalize u =? canonicalize p); [apply IH|reflexivity].
Qed.

Lemma skip_spaces_canonicalize s :
  skip_spaces (map canonicalize s) = map canonicalize (skip_spaces s).
Proof.
  induction s as [|u s IH]; [reflexivity|].
  cbn [map skip_spaces]. rewrite is_space_canonicalize.
  destruct (is_space u); [exact IH|reflexivity].
Qed.

Lemma take_digits_canonicalize s : take_digits (map canonicalize s) = take_digits s.
Proof.
  induction s as [|u s IH]; [reflexivity|].
  cbn [map take_digits]. rewrite is_digit_canonicalize.
  destruct (is_digit u) eqn:E; [|reflexivity].
  now rewrite IH, canonicalize_digit.
Qed.

Lemma match_here_canonicalize s : match_here (map canonicalize s) = match_here s.
Proof.
  unfold match_here. rewrite match_literal_ci_canonicalize.
  destruct (match_literal_ci (str "Content-Length:") s) as [r|]; [|reflexivity].
  cbn [option_map]. now rewrite skip_spaces_canonicalize, take_digits_canonicalize.
Qed.

Lemma content_length_match_canonicalize s :
  content_length_match (map canonicalize s) = content_length_match s.
Proof.
  induction s as [|u s IH]; [reflexivity|].
  change (map canonicalize (u :: s)) with (canonicalize u :: map canonicalize s).
  cbn [content_length_match].
  change (canonicalize u :: map canonicalize s) with (map canonicalize (u :: s)).
  rewrite match_here_canonicalize.
  destruct (match_here (u :: s)); [reflexivity|exact IH].
Qed.

(** X6. The length field is found whatever the letter case of the header:
    two headers that differ only in the case of ASCII letters give the
    same match and the same digits. *)
Theorem header_match_ignores_letter_case (h h' : jsstring) :
  map canonicalize h = map canonicalize h' ->
  content_length_match h = content_length_match h'.
Proof.
  intros H.
  rewrite <- (content_length_match_canonicalize h).
  rewrite <- (content_length_match_canonicalize h').
  now rewrite H.
Qed.

Lemma header_match_ignores_letter_case_witness :
  content_length_match (str "content-LENGTH:42") = content_length_match (str "Content-Length:42").
Proof.
  apply (header_match_ignores_letter_case
           (str "content-LENGTH:42") (str "Content-Length:42") eq_refl).
Defined.

(** X7. Header lines that follow the length field do not disturb the
    framing: the payload is delivered with its byte length and the
    extraction goes on behind the body. *)
Theorem frame_with_header_lines_is_delivered {St : Type}
    (onMessage : jsstring -> N -> St -> St) (extra : Buffer) (c : jsstring)
    (rest : Buffer) (st : St) :
  well_formed c = true ->
  header_lines extra = true ->
  indexOf (extra ++ HEADER_DELIMITER) HEADER_DELIMITER = Some (length extra) ->
  extractMessages onMessage (raw_frame extra (utf8_encode c) ++ rest) st
  = extractMessages onMessage rest (onMessage c (byteLength c) st).
Proof.
  intros Hwf Hx Hi.
  rewrite (extractMessages_raw_frame onMessage extra (utf8_encode c) rest st Hx Hi).
  rewrite (utf8_roundtrip c Hwf). reflexivity.
Qed.

Lemma frame_with_header_lines_witness :
  let extra := [13; 10] ++ str "Content-Type: application/vscode-jsonrpc; charset=utf-8" in
  let c := [0x7B; 0x22; 0xE9; 0x22; 0x7D] in
  extractMessages collect (raw_frame extra (utf8_encode c) ++ str "Content-Le") []
  = extractMessages collect (str "Content-Le") (collect c (byteLength c) []).
Proof.
  intros extra c.
  apply (frame_with_header_lines_is_delivered collect extra c (str "Content-Le") []
           eq_refl eq_refl eq_refl).
Defined.

(** ** URI normalisation *)

Lemma startsWith_app p : forall x, startsWith (p ++ x) p = true.
Proof.
  induction p as [|a p IH]; intros x; [now destruct x|].
  cbn [app startsWith]. now rewrite Z.eqb_refl, IH.
Qed.

Lemma startsWith_length s p : startsWith s p = true -> (length p <= length s)%nat.
Proof.
  revert s. induction p as [|a p IH]; intros s H; [cbn [length]; lia|].
  destruct s as [|u s]; [discriminate|].
  cbn [startsWith] in H. apply andb_true_iff in H. destruct H as [_ H].
  apply IH in H. cbn [length]. lia.
Qed.

Lemma jsstring_eqb_eq a b : jsstring_eqb a b = true <-> a = b.
Proof.
  unfold jsstring_eqb. destruct (list_eq_dec Z.eq_dec a b); split; congruence.
Qed.

Lemma jsstring_eqb_refl a : jsstring_eqb a a = true.
Proof. now apply jsstring_eqb_eq. Qed.

Lemma normalizeFileUri_other u :
  startsWith u FILE_PREFIX = false -> normalizeFileUri u = u.
Proof.
  intros H. unfold normalizeFileUri. rewrite H. cbn [negb]. now rewrite orb_true_r.
Qed.

Lemma normalizeFileUri_file u :
  startsWith u FILE_PREFIX = true ->
  normalizeFileUri u = FILE_PREFIX ++ with_root (to_slashes (skipn 7 u)).
Proof.
  intros H. unfold normalizeFileUri. rewrite H.
  destruct u; [discriminate|]. reflexivity.
Qed.

Lemma slashes_idem l : to_slashes (to_slashes l) = to_slashes l.
Proof.
  unfold to_slashes. rewrite map_map. apply map_ext. intros u.
  destruct (u =? 0x5C) eqn:E; [reflexivity|now rewrite E].
Qed.

Lemma slashes_free l :
  forallb (fun x => negb (x =? 0x5C)) (to_slashes l) = true.
Proof.
  unfold to_slashes. induction l as [|u l IH]; [reflexivity|].
  cbn [map forallb]. rewrite IH.
  destruct (u =? 0x5C) eqn:E; [reflexivity|now rewrite E].
Qed.

Lemma normalizeFileUri_twice (uri : jsstring) :
  normalizeFileUri (normalizeFileUri uri) = normalizeFileUri uri.
Proof.
  destruct (startsWith uri FILE_PREFIX) eqn:E.
  - rewrite (normalizeFileUri_file uri E).
    set (m := to_slashes (skipn 7 uri)).
    assert (Hm : to_slashes m = m) by apply slashes_idem.
    rewrite normalizeFileUri_file by apply startsWith_app.
    f_equal.
    change (skipn 7 (FILE_PREFIX ++ with_root m)) with (with_root m).
    destruct m as [|c m']; [reflexivity|].
    unfold with_root at 2 3. destruct (c =? 0x2F) eqn:Ec; cbn [negb].
    + rewrite Hm. unfold with_root. now rewrite Ec.
    + change (to_slashes (0x2F :: c :: m')) with (0x2F :: to_slashes (c :: m')).
      rewrite Hm. reflexivity.
  - now rewrite !(normalizeFileUri_other uri E).
Qed.

Lemma startsWith_normalizeFileUri s :
  startsWith s FILE_PREFIX = true -> startsWith (normalizeFileUri s) FILE_PREFIX = true.
Proof.
  intros E. rewrite (normalizeFileUri_file s E). apply startsWith_app.
Qed.

(** X8. [normalizeFileUri] is idempotent, returns every string that does
    not start with the prefix as it is, and never adds or removes the
    prefix. *)
Theorem normalizeFileUri_idempotent (uri : jsstring) :
  normalizeFileUri (normalizeFileUri uri) = normalizeFileUri uri
  /\ (startsWith uri FILE_PREFIX = false -> normalizeFileUri uri = uri)
  /\ startsWith (normalizeFileUri uri) FILE_PREFIX = startsWith uri FILE_PREFIX.
Proof.
  split; [apply normalizeFileUri_twice|].
  split; [apply normalizeFileUri_other|].
  destruct (startsWith uri FILE_PREFIX) eqn:E.
  - now apply startsWith_normalizeFileUri.
  - now rewrite (normalizeFileUri_other uri E).
Qed.

(** X9. Shape of a normalised file URI: the prefix, then a path without
    backslash that starts with a slash unless the URI was the bare prefix;
    at most one character is added and none is removed. *)
Theorem normalized_uri_shape (uri : jsstring) :
  startsWith uri FILE_PREFIX = true ->
  exists path,
    normalizeFileUri uri = FILE_PREFIX ++ path
    /\ forallb (fun x => negb (x =? 0x5C)) path = true
    /\ match path with [] => length uri = 7%nat | x :: _ => x = 0x2F end
    /\ (length uri <= length (normalizeFileUri uri) <= length uri + 1)%nat.
Proof.
  intros E. rewrite (normalizeFileUri_file uri E).
  pose proof (startsWith_length _ _ E) as Hlen. cbn [FILE_PREFIX str length] in Hlen.
  change (length FILE_PREFIX) with 7%nat in Hlen.
  set (m := to_slashes (skipn 7 uri)).
  assert (Hm : length m = (length uri - 7)%nat)
    by (subst m; unfold to_slashes; now rewrite length_map, length_skipn).
  assert (Hf : forallb (fun x => negb (x =? 0x5C)) m = true) by apply slashes_free.
  exists (with_root m). split; [reflexivity|].
  rewrite length_app. change (length FILE_PREFIX) with 7%nat.
  unfold with_root. destruct m as [|c m'].
  - cbn [length] in *. repeat split; [lia|lia|lia].
  - destruct (c =? 0x2F) eqn:Ec; cbn [negb].
    + apply Z.eqb_eq in Ec. cbn [length] in *. repeat split; [exact Hf|exact Ec|lia|lia].
    + cbn [length] in *. repeat split; [|lia|lia].
      cbn [forallb] in *. exact Hf.
Qed.

Lemma normalized_uri_shape_witness :
  exists path,
    normalizeFileUri (str "file://C:\proj\main.gd") = FILE_PREFIX ++ path
    /\ forallb (fun x => negb (x =? 0x5C)) path = true
    /\ match path with
       | [] => length (str "file://C:\proj\main.gd") = 7%nat
       | x :: _ => x = 0x2F
       end
    /\ (length (str "file://C:\proj\main.gd")
        <= length (normalizeFileUri (str "file://C:\proj\main.gd"))
        <= length (str "file://C:\proj\main.gd") + 1)%nat.
Proof.
  apply (normalized_uri_shape (str "file://C:\proj\main.gd") eq_refl).
Defined.

(** X10. [normalizeUrisInObject] is idempotent on every value, through
    arrays and objects. *)
Theorem normalizeUrisInObject_idempotent (obj : json) :
  normalizeUrisInObject (normalizeUrisInObject obj) = normalizeUrisInObject obj.
Proof.
  induction obj as [| b | x | s | items IH | props IH] using json_induction;
    try reflexivity.
  - cbn [normalizeUrisInObject].
    destruct (startsWith s FILE_PREFIX) eqn:E; cbn [normalizeUrisInObject].
    + rewrite (startsWith_normalizeFileUri s E). f_equal. apply normalizeFileUri_twice.
    + now rewrite E.
  - cbn [normalizeUrisInObject]. f_equal. rewrite map_map.
    induction IH as [|v items Hv _ IHitems]; [reflexivity|].
    cbn [map]. now rewrite Hv, IHitems.
  - cbn [normalizeUrisInObject]. f_equal.
    induction IH as [|[k v] props Hv _ IHprops]; [reflexivity|].
    cbn [snd] in Hv. simpl. destruct (is_proto_key k) eqn:Ek; [exact IHprops|].
    simpl. rewrite Ek. f_equal; [now rewrite Hv|exact IHprops].
Qed.

(** X11. Values that hold no URI to rewrite and no key [__proto__] pass
    the normalisation unchanged: nothing else is touched. *)
Theorem normalizeUrisInObject_normal (obj : json) :
  normal obj = true -> normalizeUrisInObject obj = obj.
Proof.
  induction obj as [| b | x | s | items IH | props IH] using json_induction;
    try reflexivity.
  - cbn [normal normalizeUrisInObject]. intros H.
    destruct (startsWith s FILE_PREFIX); [|reflexivity].
    cbn [negb orb] in H. apply jsstring_eqb_eq in H. now rewrite H.
  - cbn [normal normalizeUrisInObject]. intros H. f_equal.
    induction IH as [|v items Hv _ IHitems]; [reflexivity|].
    cbn [forallb] in H. apply andb_true_iff in H. destruct H as [H1 H2].
    cbn [map]. now rewrite (Hv H1), (IHitems H2).
  - cbn [normal normalizeUrisInObject]. intros H. f_equal.
    induction IH as [|[k v] props Hv _ IHprops]; [reflexivity|].
    cbn [forallb fst snd] in H, Hv.
    apply andb_true_iff in H. destruct H as [H1 H2].
    apply andb_true_iff in H1. destruct H1 as [Hk Hn].
    apply negb_true_iff in Hk. simpl. rewrite Hk.
    f_equal; [now rewrite (Hv Hn)|exact (IHprops H2)].
Qed.

Lemma normalizeUrisInObject_normal_witness :
  let msg := JObj [(str "uri", JStr (str "file:///C:/proj/main.gd"));
                   (str "items", JArr [JNull; JBool true; JStr (str "file")])] in
  normalizeUrisInObject msg = msg.
Proof.
  intros msg. apply (normalizeUrisInObject_normal msg eq_refl).
Defined.

Lemma normalized_entries props :
  exists props',
    normalizeUrisInObject (JObj props) = JObj props'
    /\ (forall key, is_proto_key key = false ->
          lookup_prop key props' = option_map normalizeUrisInObject (lookup_prop key props))
    /\ lookup_prop (str "__proto__") props' = None.
Proof.
  cbn [normalizeUrisInObject]. eexists. split; [reflexivity|].
  induction props as [|[k v] props [IH1 IH2]]; [now split|].
  simpl. destruct (is_proto_key k) eqn:Ek.
  - split; [|exact IH2]. intros key Hkey.
    destruct (jsstring_eqb k key) eqn:E; [|now apply IH1].
    apply jsstring_eqb_eq in E. subst k. congruence.
  - split.
    + intros key Hkey. simpl. destruct (jsstring_eqb k key); [reflexivity|now apply IH1].
    + simpl. unfold is_proto_key in Ek. rewrite Ek. exact IH2.
Qed.

(** X12. The own properties of a normalised object, which are what
    [JSON.stringify] forwards: under every key other than [__proto__] the
    normalised value of the property the message has under that key, and
    none where the message has none; no own property [__proto__]; and,
    read on these own properties, method ['initialize'] with an id exactly
    when the message is an initialize request. *)
Theorem normalised_object_own_properties (props : list (jsstring * json)) :
  exists props',
    normalizeUrisInObject (JObj props) = JObj props'
    /\ (forall key, is_proto_key key = false ->
          lookup_prop key props' = option_map normalizeUrisInObject (lookup_prop key props))
    /\ lookup_prop (str "__proto__") props' = None
    /\ strict_eq (lookup_prop (str "method") props') (JStr (str "initialize"))
       && is_defined (lookup_prop (str "id") props')
       = is_initialize_request (JObj props).
Proof.
  destruct (normalized_entries props) as [props' [E [Hl Hp]]].
  exists props'. split; [exact E|]. split; [exact Hl|]. split; [exact Hp|].
  unfold is_initialize_request. cbn [get_prop].
  rewrite !Hl by reflexivity. f_equal.
  - destruct (lookup_prop (str "method") props) as [[| b | x | s | items | ps]|];
      try reflexivity.
    cbn [option_map normalizeUrisInObject].
    destruct (startsWith s FILE_PREFIX) eqn:Es; [|reflexivity].
    cbn [strict_eq].
    transitivity false; [|symmetry].
    + destruct (jsstring_eqb (normalizeFileUri s) (str "initialize")) eqn:E'; [|reflexivity].
      apply jsstring_eqb_eq in E'. apply startsWith_normalizeFileUri in Es.
      rewrite E' in Es. discriminate.
    + destruct (jsstring_eqb s (str "initialize")) eqn:E'; [|reflexivity].
      apply jsstring_eqb_eq in E'. subst s. discriminate.
  - now destruct (lookup_prop (str "id") props).
Qed.

(** ** What reaches standard output and the socket *)

Lemma stdout_bytes_app a b : stdout_bytes (a ++ b) = stdout_bytes a ++ stdout_bytes b.
Proof. unfold stdout_bytes. now rewrite map_app, concat_app. Qed.

Lemma socket_bytes_app a b : socket_bytes (a ++ b) = socket_bytes a ++ socket_bytes b.
Proof. unfold socket_bytes. now rewrite map_app, concat_app. Qed.

Lemma stdout_bytes_relay payloads : stdout_bytes (map relay payloads) = frames_bytes payloads.
Proof.
  unfold stdout_bytes, frames_bytes. rewrite map_map.
  rewrite (map_ext _ frame_bytes); [reflexivity|].
  intros c. unfold relay, frame_bytes. cbv beta iota. reflexivity.
Qed.

Lemma socket_bytes_sent sock payloads :
  socket_bytes (map (sent sock) payloads) = frames_bytes payloads.
Proof.
  unfold socket_bytes, frames_bytes. rewrite map_map.
  rewrite (map_ext _ frame_bytes); [reflexivity|].
  intros c. unfold sent, frame_bytes. cbv beta iota. reflexivity.
Qed.

Lemma forallb_through_map {A B : Type} (f : B -> bool) (g : A -> B) l :
  forallb f (map g l) = forallb (fun x => f (g x)) l.
Proof.
  induction l as [|x l IH]; [reflexivity|]. cbn [map forallb]. now rewrite IH.
Qed.

Lemma extractMessages_whole_frames {St : Type} (onMessage : jsstring -> N -> St -> St)
    payloads st :
  forallb well_formed payloads = true ->
  extractMessages onMessage (frames_bytes payloads) st = ([], deliver onMessage payloads st).
Proof.
  intros H. rewrite <- (app_nil_r (frames_bytes payloads)).
  rewrite (extractMessages_frames onMessage payloads [] st H). reflexivity.
Qed.

Section Transparency.
Variable JSON_parse : jsstring -> option json.
Variable JSON_stringify : json -> jsstring.

Lemma deliver_pass_through payloads : forall st,
  waitingForInitialize st = false ->
  deliver (handleGodotMessage JSON_parse) payloads st
  = set_out (out st ++ map relay payloads) st.
Proof.
  unfold deliver. induction payloads as [|c payloads IH]; intros st Hw; cbn [fold_left map].
  - now rewrite app_nil_r, set_out_id.
  - rewrite handle_pass_through by exact Hw.
    unfold writeToStdout. rewrite IH by exact Hw.
    unfold emit. fields. rewrite <- app_assoc. now destruct st.
Qed.

(** X13. Whatever bytes the peer sends, during a handshake or not, the
    bridge prints only well-formed frames: the new output is a sequence of
    payloads, each under its own byte length, and reading it back yields
    these payloads. *)
Theorem printed_frames_are_well_formed (data : Buffer) (st : state) :
  is_bytes (tcpBuffer st ++ data) = true ->
  forallb (fun m => well_formed (content m)) (bufferedNotifications st) = true ->
  exists payloads,
    out (on_tcp_data JSON_parse data st) = out st ++ map relay payloads
    /\ forallb well_formed payloads = true
    /\ extractMessages collect (stdout_bytes (map relay payloads)) []
       = ([], deliver collect payloads []).
Proof.
  intros Hb Hheld. rewrite on_tcp_data_eq.
  set (P := fun s : state =>
              forallb (fun m => well_formed (content m)) (bufferedNotifications s) = true
              /\ exists l, out s = out st ++ map relay l /\ forallb well_formed l = true).
  assert (HP : P (snd (extractMessages (handleGodotMessage JSON_parse)
                         (tcpBuffer st ++ data) st))).
  { apply extractMessages_preserves_wf; [|exact Hb|].
    - intros c len s Hc [Hh [l [Hout Hl]]].
      destruct (waitingForInitialize s) eqn:W.
      + rewrite handle_while_waiting by exact W.
        destruct (awaited JSON_parse (initializeRequestId s) c).
        * rewrite flush_notifications_eq. unfold writeToStdout, emit, P. fields.
          split; [reflexivity|].
          exists (l ++ c :: map content (bufferedNotifications s)).
          rewrite Hout, <- !app_assoc, map_app. cbn [map app]. rewrite map_map.
          split; [reflexivity|].
          rewrite forallb_app, Hl. cbn [forallb]. rewrite Hc. cbn [andb].
          rewrite forallb_through_map. exact Hh.
        * destruct (notification JSON_parse c).
          -- unfold P. fields. split.
             ++ rewrite forallb_app, Hh. cbn [forallb content]. now rewrite Hc.
             ++ exists l. now split.
          -- unfold writeToStdout, emit, P. fields. split; [exact Hh|].
             exists (l ++ [c]). rewrite Hout, <- app_assoc, map_app. split; [reflexivity|].
             rewrite forallb_app, Hl. cbn [forallb]. now rewrite Hc.
      + rewrite handle_pass_through by exact W.
        unfold writeToStdout, emit, P. fields. split; [exact Hh|].
        exists (l ++ [c]). rewrite Hout, <- app_assoc, map_app. split; [reflexivity|].
        rewrite forallb_app, Hl. cbn [forallb]. now rewrite Hc.
    - split; [exact Hheld|]. exists []. cbn [map]. now rewrite app_nil_r. }
  destruct HP as [_ [l [Hout Hl]]]. exists l. fields.
  split; [exact Hout|]. split; [exact Hl|].
  rewrite stdout_bytes_relay. now apply extractMessages_whole_frames.
Qed.

(** X14. Outside a handshake the relay from the peer is transparent on
    frames in the header form the bridge itself prints, the length field
    with the byte length of the payload and the delimiter right after it:
    the bytes of such frames with well-formed payloads, cut into chunks in
    any way, arrive on standard output as they were received. *)
Theorem peer_bytes_reach_stdout_unchanged (chunks : list Buffer) (payloads : list jsstring)
    (st : state) :
  tcpBuffer st = [] ->
  waitingForInitialize st = false ->
  forallb well_formed payloads = true ->
  concat chunks = frames_bytes payloads ->
  stdout_bytes (out (run JSON_parse JSON_stringify (map TcpData chunks) st))
  = stdout_bytes (out st) ++ concat chunks.
Proof.
  intros Hbuf Hw Hwf Hc.
  rewrite (tcp_chunks_one_shot JSON_parse JSON_stringify chunks st Hbuf), Hc.
  rewrite (extractMessages_whole_frames _ payloads st Hwf). cbn [fst snd].
  rewrite deliver_pass_through by exact Hw. fields.
  now rewrite stdout_bytes_app, stdout_bytes_relay.
Qed.

Lemma simple_deliver_to_socket payloads sock : forall st,
  tcpConnected st = true -> tcpSocket st = Some sock -> destroyed sock = false ->
  out (deliver (Simple.sendToGodot JSON_parse) payloads st)
  = out st ++ map (sent sock) payloads.
Proof.
  unfold deliver. induction payloads as [|c payloads IH]; intros st Hc Hs Hd;
    cbn [fold_left map]; [now rewrite app_nil_r|].
  assert (H : exists s, tcpConnected s = true /\ tcpSocket s = Some sock /\ out s = out st
                        /\ Simple.sendToGodot JSON_parse c (byteLength c) st
                           = emit (sent sock c) s).
  { unfold Simple.sendToGodot.
    match goal with
    | |- context [if tcpConnected ?s && socket_usable ?s then _ else _] =>
        exists s; assert (Hs' : tcpConnected s = true /\ tcpSocket s = Some sock /\ out s = out st)
    end.
    { destruct (JSON_parse c) as [[| b | x | s0 | items | props]|];
        try (now repeat split);
        destruct (is_initialize_request _); fields; now repeat split. }
    destruct Hs' as [H1 [H2 H3]]. repeat split; try assumption.
    unfold socket_usable, socket_write. rewrite H1, H2, Hd. reflexivity. }
  destruct H as [s [H1 [H2 [H3 H4]]]]. rewrite H4.
  rewrite IH; unfold emit; fields; try assumption.
  rewrite H3, <- app_assoc. reflexivity.
Qed.

Lemma simple_deliver_to_stdout payloads : forall st,
  waitingForInitialize st = false ->
  out (deliver (Simple.handleGodotMessage JSON_parse) payloads st)
  = out st ++ map relay payloads.
Proof.
  unfold deliver. induction payloads as [|c payloads IH]; intros st Hw;
    cbn [fold_left map]; [now rewrite app_nil_r|].
  assert (H : Simple.handleGodotMessage JSON_parse c (byteLength c) st = emit (relay c) st).
  { unfold Simple.handleGodotMessage. rewrite Hw. now destruct (JSON_parse c). }
  rewrite H, IH; unfold emit; fields; [|exact Hw].
  now rewrite <- app_assoc.
Qed.

(** X15. The variant without reconnection is transparent in both
    directions on frames in the header form the bridge itself prints, the
    length field with the byte length of the payload and the delimiter
    right after it: for such frames with well-formed payloads, outside a
    handshake the bytes from the peer arrive on standard output as
    received, and on an open connection the bytes from the client arrive
    on the socket as received. *)
Theorem simple_relay_is_byte_transparent (payloads : list jsstring) (st : state)
    (sock : socket) :
  forallb well_formed payloads = true ->
  tcpBuffer st = [] -> waitingForInitialize st = false ->
  stdinBuffer st = [] -> tcpConnected st = true -> tcpSocket st = Some sock ->
  destroyed sock = false ->
  stdout_bytes (out (Simple.on_tcp_data JSON_parse (frames_bytes payloads) st))
  = stdout_bytes (out st) ++ frames_bytes payloads
  /\ socket_bytes (out (Simple.on_stdin_data JSON_parse (frames_bytes payloads) st))
     = socket_bytes (out st) ++ frames_bytes payloads.
Proof.
  intros Hwf Htcp Hw Hin Hc Hs Hd. split.
  - unfold Simple.on_tcp_data. fields. rewrite Htcp. cbn [app].
    rewrite (extractMessages_whole_frames _ payloads _ Hwf). fields.
    rewrite simple_deliver_to_stdout by (fields; exact Hw). fields.
    now rewrite stdout_bytes_app, stdout_bytes_relay.
  - unfold Simple.on_stdin_data. fields. rewrite Hin. cbn [app].
    rewrite (extractMessages_whole_frames _ payloads _ Hwf). fields.
    rewrite (simple_deliver_to_socket payloads sock) by (fields; assumption). fields.
    now rewrite socket_bytes_app, socket_bytes_sent.
Qed.

(** X16. On a body that need not be valid UTF-8 the two variants print
    different headers: the variant without reconnection repeats the byte
    count it received, the other one counts the bytes of the text it
    decoded. *)
Theorem declared_length_of_relayed_body (body : Buffer) (st : state) :
  tcpBuffer st = [] ->
  waitingForInitialize st = false ->
  out (Simple.on_tcp_data JSON_parse (raw_frame [] body) st)
  = out st ++ [StdoutWrite (frame (N.of_nat (length body)) (utf8_decode body))]
  /\ out (on_tcp_data JSON_parse (raw_frame [] body) st)
     = out st ++ [StdoutWrite (frame (byteLength (utf8_decode body)) (utf8_decode body))].
Proof.
  intros Hbuf Hw.
  assert (He : forall St (f : jsstring -> N -> St -> St) s,
             extractMessages f (raw_frame [] body) s
             = ([], f (utf8_decode body) (N.of_nat (length body)) s)).
  { intros St f s. rewrite <- (app_nil_r (raw_frame [] body)).
    now rewrite (extractMessages_raw_frame f [] body [] s eq_refl eq_refl). }
  split.
  - unfold Simple.on_tcp_data. fields. rewrite Hbuf. cbn [app]. rewrite He. fields.
    unfold Simple.handleGodotMessage. fields. rewrite Hw.
    now destruct (JSON_parse (utf8_decode body)).
  - rewrite on_tcp_data_eq, Hbuf. cbn [app]. rewrite He. fields.
    rewrite handle_pass_through by exact Hw. reflexivity.
Qed.

End Transparency.

Lemma printed_frames_are_well_formed_witness :
  exists payloads,
    out (on_tcp_data Sample.parse (raw_frame [] [0xFF; 0x7D]) initial_state)
    = out initial_state ++ map relay payloads
    /\ forallb well_formed payloads = true
    /\ extractMessages collect (stdout_bytes (map relay payloads)) []
       = ([], deliver collect payloads []).
Proof.
  apply (printed_frames_are_well_formed Sample.parse (raw_frame [] [0xFF; 0x7D])
           initial_state eq_refl eq_refl).
Defined.

Lemma peer_bytes_reach_stdout_witness :
  let payloads := [Sample.response_text; [0x22; 0xE9; 0x22]] in
  let chunks := byte_by_byte (frames_bytes payloads) in
  stdout_bytes (out (run Sample.parse Sample.stringify (map TcpData chunks) initial_state))
  = stdout_bytes (out initial_state) ++ concat chunks.
Proof.
  intros payloads chunks.
  apply (peer_bytes_reach_stdout_unchanged Sample.parse Sample.stringify chunks payloads
           initial_state eq_refl eq_refl eq_refl eq_refl).
Defined.

Lemma simple_relay_is_byte_transparent_witness :
  let payloads := [Sample.initialize_text; [0x22; 0xE9; 0x22]] in
  let st := Sample.initialized in
  stdout_bytes (out (Simple.on_tcp_data Sample.parse (frames_bytes payloads) st))
  = stdout_bytes (out st) ++ frames_bytes payloads
  /\ socket_bytes (out (Simple.on_stdin_data Sample.parse (frames_bytes payloads) st))
     = socket_bytes (out st) ++ frames_bytes payloads.
Proof.
  intros payloads st.
  apply (simple_relay_is_byte_transparent Sample.parse payloads st Sample.a_socket
           eq_refl eq_refl eq_refl eq_refl eq_refl eq_refl eq_refl).
Defined.

Lemma declared_length_of_relayed_body_witness :
  out (Simple.on_tcp_data Sample.parse (raw_frame [] [0xFF]) initial_state)
  = out initial_state ++ [StdoutWrite (frame 1 (utf8_decode [0xFF]))]
  /\ out (on_tcp_data Sample.parse (raw_frame [] [0xFF]) initial_state)
     = out initial_state ++ [StdoutWrite (frame 3 (utf8_decode [0xFF]))].
Proof.
  apply (declared_length_of_relayed_body Sample.parse [0xFF] initial_state eq_refl eq_refl).
Defined.

(** ** The handshake filter *)

From Stdlib Require Import Permutation.

Section HandshakeFacts.
Variable JSON_parse : jsstring -> option json.
Variable JSON_stringify : json -> jsstring.

Lemma handle_one_accounted c len st :
  exists relayed,
    out (handleGodotMessage JSON_parse c len st) = out st ++ map relay relayed
    /\ Permutation
         (relayed ++ map content (bufferedNotifications (handleGodotMessage JSON_parse c len st)))
         (map content (bufferedNotifications st) ++ [c]).
Proof.
  assert (Hpass :
    exists relayed,
      out (writeToStdout c len st) = out st ++ map relay relayed
      /\ Permutation (relayed ++ map content (bufferedNotifications (writeToStdout c len st)))
           (map content (bufferedNotifications st) ++ [c])).
  { exists [c]. split; [reflexivity|]. unfold writeToStdout, emit. fields.
    apply Permutation_cons_append. }
  destruct (waitingForInitialize st) eqn:Hw.
  - rewrite handle_while_waiting by exact Hw.
    destruct (awaited JSON_parse (initializeRequestId st) c).
    + exists (c :: map content (bufferedNotifications st)).
      rewrite flush_notifications_eq. unfold writeToStdout, emit. fields.
      split.
      * rewrite <- app_assoc. cbn [map app]. now rewrite map_map.
      * rewrite app_nil_r. apply Permutation_cons_append.
    + destruct (notification JSON_parse c); [|exact Hpass].
      exists []. fields. split; [now rewrite app_nil_r|].
      cbn [app]. rewrite map_app. reflexivity.
  - rewrite handle_pass_through by exact Hw. exact Hpass.
Qed.

(** X17. The handshake filter neither drops nor duplicates: after any run
    of messages from the peer, the payloads printed and the payloads still
    held are, together, the payloads held before and the payloads
    received. *)
Theorem peer_messages_are_relayed_or_held (msgs : list message) (st : state) :
  exists relayed,
    out (handle_all JSON_parse msgs st) = out st ++ map relay relayed
    /\ Permutation
         (relayed ++ map content (bufferedNotifications (handle_all JSON_parse msgs st)))
         (map content (bufferedNotifications st) ++ map content msgs).
Proof.
  unfold handle_all. revert st.
  induction msgs as [|m msgs IH]; intros st; cbn [fold_left map].
  - exists []. cbn [map app]. now rewrite !app_nil_r.
  - destruct (handle_one_accounted (content m) (contentLength m) st) as [r1 [H1 P1]].
    destruct (IH (handleGodotMessage JSON_parse (content m) (contentLength m) st))
      as [r2 [H2 P2]].
    exists (r1 ++ r2). split.
    + now rewrite H2, H1, map_app, app_assoc.
    + rewrite <- app_assoc.
      etransitivity; [apply Permutation_app_head; exact P2|].
      rewrite app_assoc.
      etransitivity; [apply Permutation_app_tail; exact P1|].
      rewrite <- app_assoc. reflexivity.
Qed.

Lemma flush_pending_only_writes st : flush_pending st = set_out (out (flush_pending st)) st.
Proof.
  destruct (tcpSocket st) as [sock|] eqn:Hs.
  - rewrite (flush_pending_eq st sock Hs). now destruct st.
  - rewrite flush_pending_no_socket by exact Hs. now rewrite set_out_id.
Qed.

Lemma tracked_keeps_invariant c st :
  held_only_in_handshake st -> held_only_in_handshake (tracked JSON_parse c st).
Proof.
  unfold held_only_in_handshake, tracked. intros H.
  destruct (JSON_parse c) as [msg|]; [|exact H].
  destruct msg; try exact H; destruct (is_initialize_request _); try exact H;
    left; reflexivity.
Qed.

Lemma stdin_message_keeps_invariant c len st :
  held_only_in_handshake st ->
  held_only_in_handshake (stdin_message JSON_parse JSON_stringify c len st).
Proof.
  intros H. unfold stdin_message.
  destruct (negb (tcpConnected st) || isWarmingUp st); [exact H|].
  rewrite sendToGodot_eq.
  pose proof (tracked_keeps_invariant c st H) as Ht.
  destruct (tcpConnected st && socket_usable st).
  - unfold socket_write. destruct (tcpSocket _); exact Ht.
  - exact Ht.
Qed.

Lemma handleGodotMessage_keeps_invariant c len st :
  held_only_in_handshake st ->
  held_only_in_handshake (handleGodotMessage JSON_parse c len st).
Proof.
  intros H. destruct (waitingForInitialize st) eqn:Hw.
  - rewrite handle_while_waiting by exact Hw.
    destruct (awaited JSON_parse (initializeRequestId st) c); [right; reflexivity|].
    destruct (notification JSON_parse c); [left; exact Hw | left; exact Hw].
  - rewrite handle_pass_through by exact Hw. exact H.
Qed.

Lemma step_keeps_invariant st e :
  held_only_in_handshake st ->
  held_only_in_handshake (step JSON_parse JSON_stringify st e).
Proof.
  intros H. destruct e; cbn [step].
  - rewrite on_stdin_data_eq.
    apply (extractMessages_preserves (stdin_message JSON_parse JSON_stringify)
             held_only_in_handshake stdin_message_keeps_invariant
             (stdinBuffer st ++ chunk) st H).
  - rewrite on_tcp_data_eq.
    apply (extractMessages_preserves (handleGodotMessage JSON_parse)
             held_only_in_handshake handleGodotMessage_keeps_invariant
             (tcpBuffer st ++ data) st H).
  - unfold on_connect. fields. destruct (isReconnecting st).
    + destruct (wasInitialized st); exact H.
    + rewrite flush_pending_only_writes. exact H.
  - unfold on_close, scheduleReconnect.
    destruct (tcpSocket st); fields; destruct (shouldKeepRunning st); exact H.
  - unfold on_warmup_elapsed. rewrite flush_pending_only_writes. exact H.
  - unfold on_reconnect_elapsed. fields.
    destruct (shouldKeepRunning st); [right; reflexivity|exact H].
  - unfold on_reconnect_failed, scheduleReconnect. fields.
    destruct (shouldKeepRunning st); exact H.
Qed.

(** X18. In every state the bridge can reach, whatever the events and
    their order, notifications are held back only while a handshake is
    open: once [waitingForInitialize] is false nothing is left in
    [bufferedNotifications]. *)
Theorem notifications_held_only_during_handshake (evs : list event) :
  waitingForInitialize (run JSON_parse JSON_stringify evs initial_state) = true
  \/ bufferedNotifications (run JSON_parse JSON_stringify evs initial_state) = [].
Proof.
  change (held_only_in_handshake (run JSON_parse JSON_stringify evs initial_state)).
  unfold run.
  assert (H : forall st, held_only_in_handshake st ->
              held_only_in_handshake (fold_left (step JSON_parse JSON_stringify) evs st)).
  { induction evs as [|e evs IH]; intros st Hst; [exact Hst|].
    cbn [fold_left]. apply IH. now apply step_keeps_invariant. }
  apply H. right. reflexivity.
Qed.

(** X19. A payload that is not JSON, or is JSON without properties, is
    never held and never lost: in every state it is printed once and the
    handshake is left as it was; on its way to the peer it starts no
    handshake. *)
Theorem payload_without_properties_passes (c : jsstring) (len : N) (st : state) :
  without_properties JSON_parse c = true ->
  handleGodotMessage JSON_parse c len st = writeToStdout c len st
  /\ waitingForInitialize (sendToGodot JSON_parse JSON_stringify c len st)
     = waitingForInitialize st
  /\ initializeRequestId (sendToGodot JSON_parse JSON_stringify c len st)
     = initializeRequestId st
  /\ wasInitialized (sendToGodot JSON_parse JSON_stringify c len st) = wasInitialized st.
Proof.
  unfold without_properties. intros H.
  assert (Ht : tracked JSON_parse c st = st).
  { unfold tracked. destruct (JSON_parse c) as [[| b | x | s | items | props]|];
      try reflexivity; discriminate. }
  split.
  - unfold handleGodotMessage.
    destruct (JSON_parse c) as [[| b | x | s | items | props]|]; try reflexivity;
      try discriminate; destruct (waitingForInitialize st); try reflexivity;
      unfold is_awaited_response, is_notification; cbn [get_prop strict_eq is_defined andb];
      reflexivity.
  - rewrite sendToGodot_eq, Ht.
    destruct (tcpConnected st && socket_usable st).
    + unfold socket_write. destruct (tcpSocket st); now repeat split.
    + now repeat split.
Qed.

End HandshakeFacts.

Lemma payload_without_properties_passes_witness :
  handleGodotMessage Sample.parse (str "oops") 4 Sample.awaiting
  = writeToStdout (str "oops") 4 Sample.awaiting
  /\ waitingForInitialize
       (sendToGodot Sample.parse Sample.stringify (str "oops") 4 Sample.awaiting)
     = waitingForInitialize Sample.awaiting
  /\ initializeRequestId
       (sendToGodot Sample.parse Sample.stringify (str "oops") 4 Sample.awaiting)
     = initializeRequestId Sample.awaiting
  /\ wasInitialized (sendToGodot Sample.parse Sample.stringify (str "oops") 4 Sample.awaiting)
     = wasInitialized Sample.awaiting.
Proof.
  apply (payload_without_properties_passes Sample.parse Sample.stringify
           (str "oops") 4 Sample.awaiting eq_refl).
Defined.

(** ** Messages from the client and the connection life cycle *)

Lemma same_connection_refl s : same_connection s s.
Proof. unfold same_connection. now repeat split. Qed.

Lemma same_connection_trans a b c :
  same_connection a b -> same_connection b c -> same_connection a c.
Proof.
  unfold same_connection.
  intros (A1 & A2 & A3 & A4 & A5 & A6 & A7 & A8 & A9 & A10)
         (B1 & B2 & B3 & B4 & B5 & B6 & B7 & B8 & B9 & B10).
  repeat split; congruence.
Qed.

Section LifeCycleFacts.
Variable JSON_parse : jsstring -> option json.
Variable JSON_stringify : json -> jsstring.

Lemma tracked_same_connection c st : same_connection st (tracked JSON_parse c st).
Proof.
  unfold tracked. destruct (JSON_parse c) as [msg|]; [|apply same_connection_refl].
  destruct msg; try apply same_connection_refl;
    destruct (is_initialize_request _); try apply same_connection_refl;
    unfold same_connection; fields; now repeat split.
Qed.

Lemma stdin_message_same_connection c len st :
  same_connection st (stdin_message JSON_parse JSON_stringify c len st).
Proof.
  unfold stdin_message. destruct (negb (tcpConnected st) || isWarmingUp st).
  - unfold same_connection. fields. now repeat split.
  - rewrite sendToGodot_eq.
    apply (same_connection_trans _ _ _ (tracked_same_connection c st)).
    destruct (tcpConnected st && socket_usable st).
    + unfold socket_write. destruct (tcpSocket _); [|apply same_connection_refl].
      unfold same_connection, emit. fields. now repeat split.
    + unfold same_connection. fields. now repeat split.
Qed.

Lemma handleGodotMessage_same_connection c len st :
  same_connection st (handleGodotMessage JSON_parse c len st).
Proof.
  destruct (waitingForInitialize st) eqn:Hw.
  - rewrite handle_while_waiting by exact Hw.
    destruct (awaited _ _ _).
    + rewrite flush_notifications_eq. unfold same_connection, writeToStdout, emit. fields.
      now repeat split.
    + destruct (notification _ _); unfold same_connection, writeToStdout, emit; fields;
        now repeat split.
  - rewrite handle_pass_through by exact Hw.
    unfold same_connection, writeToStdout, emit. fields. now repeat split.
Qed.

Lemma on_tcp_data_same_connection data st :
  same_connection st (on_tcp_data JSON_parse data st).
Proof.
  rewrite on_tcp_data_eq.
  pose proof (extractMessages_preserves (handleGodotMessage JSON_parse) (same_connection st)
                (fun c len s H =>
                   same_connection_trans _ _ _ H (handleGodotMessage_same_connection c len s))
                (tcpBuffer st ++ data) st (same_connection_refl st)) as H.
  unfold same_connection in *. fields. exact H.
Qed.

(** X20. Every message the stdin reader extracts is handled exactly once:
    either one frame is written to the open socket and the queue is left
    alone, or nothing is written and one entry is added at the end of the
    queue. *)
Theorem client_message_is_written_or_staged (c : jsstring) (len : N) (st : state) :
  let st' := stdin_message JSON_parse JSON_stringify c len st in
  (exists sock,
      tcpSocket st = Some sock /\ destroyed sock = false /\ not_deliverable st = false
      /\ out st' = out st ++ [sent sock (forwarded_payload JSON_parse JSON_stringify c)]
      /\ pendingMessages st' = pendingMessages st)
  \/ (not_deliverable st = false /\ socket_usable st = false
      /\ out st' = out st
      /\ pendingMessages st'
         = pendingMessages st ++ [entry (forwarded_payload JSON_parse JSON_stringify c)])
  \/ (not_deliverable st = true
      /\ out st' = out st
      /\ pendingMessages st' = pendingMessages st ++ [{| content := c; contentLength := len |}]).
Proof.
  cbv zeta. unfold stdin_message, not_deliverable.
  destruct (negb (tcpConnected st) || isWarmingUp st) eqn:Hn.
  - right. right. fields. now repeat split.
  - apply orb_false_iff in Hn. destruct Hn as [Hc _]. apply negb_false_iff in Hc.
    destruct (socket_usable st) eqn:Hu.
    + left. unfold socket_usable in Hu.
      destruct (tcpSocket st) as [sock|] eqn:Hs; [|discriminate].
      apply negb_true_iff in Hu. exists sock.
      destruct (sendToGodot_direct JSON_parse JSON_stringify c len st sock Hc Hs Hu)
        as [Ho Hp].
      now repeat split.
    + right. left.
      assert (Hd : tcpConnected st && socket_usable st = false) by now rewrite Hc, Hu.
      destruct (sendToGodot_staged JSON_parse JSON_stringify c len st Hd) as [Ho Hp].
      now repeat split.
Qed.

Lemma offline_step st e :
  offline_event e = true -> tcpConnected st = false ->
  tcpConnected (step JSON_parse JSON_stringify st e) = false
  /\ out (step JSON_parse JSON_stringify st e) = out st
  /\ exists staged,
       pendingMessages (step JSON_parse JSON_stringify st e) = pendingMessages st ++ staged.
Proof.
  intros He Hc. destruct e; try discriminate; cbn [step].
  - rewrite on_stdin_data_eq. fields.
    apply (extractMessages_preserves (stdin_message JSON_parse JSON_stringify)
             (fun s => tcpConnected s = false /\ out s = out st
                       /\ exists staged, pendingMessages s = pendingMessages st ++ staged)).
    + intros c len s (H1 & H2 & l & H3). unfold stdin_message. rewrite H1. cbn [negb orb].
      fields. repeat split; [exact H1|exact H2|].
      exists (l ++ [{| content := c; contentLength := len |}]).
      now rewrite H3, <- app_assoc.
    + repeat split; [exact Hc|]. exists []. now rewrite app_nil_r.
  - unfold on_close, scheduleReconnect.
    destruct (tcpSocket st); fields; destruct (shouldKeepRunning st); fields;
      (split; [first [reflexivity | exact Hc]
              | split; [reflexivity | exists []; now rewrite app_nil_r]]).
  - unfold on_reconnect_elapsed, resetConnectionState, connectToGodot. fields.
    destruct (shouldKeepRunning st); fields;
      (split; [first [reflexivity | exact Hc]
              | split; [reflexivity | exists []; now rewrite app_nil_r]]).
  - unfold on_reconnect_failed, scheduleReconnect. fields.
    destruct (shouldKeepRunning st); fields;
      (split; [first [reflexivity | exact Hc]
              | split; [reflexivity | exists []; now rewrite app_nil_r]]).
Qed.

(** X21. While the peer is away nothing is written anywhere: through any
    sequence of input from the client, closed sockets, expired and failed
    reconnection attempts, the trace stays as it is, the bridge stays
    disconnected and the queue only grows at its end. *)
Theorem nothing_is_written_while_offline (evs : list event) (st : state) :
  tcpConnected st = false ->
  forallb offline_event evs = true ->
  tcpConnected (run JSON_parse JSON_stringify evs st) = false
  /\ out (run JSON_parse JSON_stringify evs st) = out st
  /\ exists staged,
       pendingMessages (run JSON_parse JSON_stringify evs st) = pendingMessages st ++ staged.
Proof.
  unfold run. revert st. induction evs as [|e evs IH]; intros st Hc He; cbn [fold_left].
  - repeat split; [exact Hc|]. exists []. now rewrite app_nil_r.
  - cbn [forallb] in He. apply andb_true_iff in He. destruct He as [He Hevs].
    destruct (offline_step st e He Hc) as (H1 & H2 & l1 & H3).
    destruct (IH _ H1 Hevs) as (H4 & H5 & l2 & H6).
    repeat split; [exact H4|congruence|].
    exists (l1 ++ l2). now rewrite H6, H3, <- app_assoc.
Qed.

Lemma armed_step st e :
  is_expiry e = false ->
  shouldKeepRunning st = true -> reconnectTimer st = true ->
  shouldKeepRunning (step JSON_parse JSON_stringify st e) = true
  /\ reconnectTimer (step JSON_parse JSON_stringify st e) = true
  /\ socketsCreated (step JSON_parse JSON_stringify st e) = socketsCreated st.
Proof.
  intros He Hk Ht. destruct e; try discriminate; cbn [step].
  - rewrite on_stdin_data_eq. fields.
    pose proof (extractMessages_preserves (stdin_message JSON_parse JSON_stringify)
                  (same_connection st)
                  (fun c len s H =>
                     same_connection_trans _ _ _ H (stdin_message_same_connection c len s))
                  (stdinBuffer st ++ chunk) st (same_connection_refl st)) as H.
    destruct H as (_ & _ & _ & _ & H5 & _ & H7 & _ & H9 & _).
    repeat split; congruence.
  - destruct (on_tcp_data_same_connection data st) as (_ & _ & _ & _ & H5 & _ & H7 & _ & H9 & _).
    repeat split; congruence.
  - unfold on_connect. fields. destruct (isReconnecting st).
    + unfold restart_notification, sendNotificationToClient, writeToStdout, emit.
      destruct (wasInitialized st); fields; now repeat split.
    + rewrite flush_pending_only_writes. fields. now repeat split.
  - unfold on_close, scheduleReconnect.
    destruct (tcpSocket st); fields; rewrite Hk; fields; now repeat split.
  - unfold on_warmup_elapsed. rewrite flush_pending_only_writes. fields. now repeat split.
  - unfold on_reconnect_failed, scheduleReconnect. fields. rewrite Hk. fields.
    now repeat split.
Qed.

(** X22. Nothing cancels an armed reconnection timeout: not a successful
    connect, not traffic in either direction.  When it expires it tears
    the connection down, open or not: the state is reset and a new socket
    replaces the current one. *)
Theorem armed_retry_is_never_cancelled (evs : list event) (st : state) :
  shouldKeepRunning st = true ->
  reconnectTimer st = true ->
  forallb (fun e => negb (is_expiry e)) evs = true ->
  let st' := run JSON_parse JSON_stringify evs st in
  reconnectTimer st' = true
  /\ tcpConnected (on_reconnect_elapsed st') = false
  /\ tcpBuffer (on_reconnect_elapsed st') = []
  /\ waitingForInitialize (on_reconnect_elapsed st') = false
  /\ tcpSocket (on_reconnect_elapsed st')
     = Some {| sock_id := socketsCreated st; destroyed := false |}.
Proof.
  intros Hk Ht He. cbv zeta.
  assert (H : shouldKeepRunning (run JSON_parse JSON_stringify evs st) = true
              /\ reconnectTimer (run JSON_parse JSON_stringify evs st) = true
              /\ socketsCreated (run JSON_parse JSON_stringify evs st) = socketsCreated st).
  { unfold run. revert st Hk Ht. induction evs as [|e evs IH]; intros st Hk Ht;
      cbn [fold_left]; [now repeat split|].
    cbn [forallb] in He. apply andb_true_iff in He. destruct He as [He Hevs].
    apply negb_true_iff in He.
    destruct (armed_step st e He Hk Ht) as (H1 & H2 & H3).
    destruct (IH Hevs _ H1 H2) as (H4 & H5 & H6).
    repeat split; congruence. }
  destruct H as (H1 & H2 & H3).
  remember (run JSON_parse JSON_stringify evs st) as s eqn:E. clear E.
  split; [exact H2|].
  unfold on_reconnect_elapsed, resetConnectionState, connectToGodot. fields.
  rewrite H1. fields. rewrite H3. now repeat split.
Qed.

Lemma on_close_socket st :
  tcpSocket (on_close st) = option_map destroyed_socket (tcpSocket st)
  /\ pendingMessages (on_close st) = pendingMessages st
  /\ out (on_close st) = out st.
Proof.
  unfold on_close, scheduleReconnect.
  destruct (tcpSocket st) as [sock|] eqn:Hs; fields; destruct (shouldKeepRunning st);
    cbn [negb]; fields; rewrite ?Hs; (split; [reflexivity|split; reflexivity]).
Qed.

Lemma on_warmup_elapsed_flush st sock :
  tcpSocket st = Some sock ->
  out (on_warmup_elapsed st) = out st ++ map (fun m => sent sock (content m)) (pendingMessages st)
  /\ pendingMessages (on_warmup_elapsed st) = [].
Proof.
  intros Hs. unfold on_warmup_elapsed. fields.
  rewrite (flush_pending_eq _ sock) by (fields; exact Hs). fields. now split.
Qed.

(** X23. The warm-up timeout is not cancelled when the connection closes:
    messages staged during the warm-up are then written to the destroyed
    socket and removed from the queue. *)
Theorem warmup_flush_after_close (payloads : list jsstring) (st : state) (sock : socket) :
  isWarmingUp st = true ->
  tcpSocket st = Some sock ->
  stdinBuffer st = [] ->
  forallb well_formed payloads = true ->
  let st' := run JSON_parse JSON_stringify
               [StdinData (frames_bytes payloads); TcpClosed; WarmupElapsed] st in
  out st' = out st ++ map (sent (destroyed_socket sock))
                        (map content (pendingMessages st) ++ payloads)
  /\ pendingMessages st' = [].
Proof.
  intros Hw Hs Hb Hwf. cbv zeta. unfold run. cbn [fold_left step].
  rewrite (on_stdin_staged JSON_parse JSON_stringify payloads st Hb Hwf)
    by (unfold not_deliverable; rewrite Hw; apply orb_true_r).
  remember (set_pendingMessages (pendingMessages st ++ map entry payloads) st) as s1 eqn:E1.
  assert (Hs1 : tcpSocket s1 = Some sock) by (subst s1; exact Hs).
  assert (Hp1 : pendingMessages s1 = pendingMessages st ++ map entry payloads)
    by (subst s1; reflexivity).
  assert (Ho1 : out s1 = out st) by (subst s1; reflexivity).
  clear E1.
  destruct (on_close_socket s1) as (Hs2 & Hp2 & Ho2). rewrite Hs1 in Hs2. cbn [option_map] in Hs2.
  destruct (on_warmup_elapsed_flush (on_close s1) _ Hs2) as [Ho3 Hp3].
  split; [|exact Hp3].
  rewrite Ho3, Ho2, Ho1, Hp2, Hp1. f_equal.
  rewrite !map_app, !map_map. reflexivity.
Qed.

Lemma step_keeps_stdinBuffer st e :
  is_stdin e = false ->
  stdinBuffer (step JSON_parse JSON_stringify st e) = stdinBuffer st.
Proof.
  intros He. destruct e; try discriminate; cbn [step].
  - now destruct (on_tcp_data_same_connection data st) as (_ & _ & _ & _ & _ & _ & _ & _ & _ & H).
  - unfold on_connect. fields. destruct (isReconnecting st).
    + unfold restart_notification, sendNotificationToClient, writeToStdout, emit.
      destruct (wasInitialized st); reflexivity.
    + now rewrite flush_pending_only_writes.
  - unfold on_close, scheduleReconnect.
    destruct (tcpSocket st); fields; destruct (shouldKeepRunning st); reflexivity.
  - unfold on_warmup_elapsed. now rewrite flush_pending_only_writes.
  - unfold on_reconnect_elapsed, resetConnectionState, connectToGodot. fields.
    destruct (shouldKeepRunning st); reflexivity.
  - unfold on_reconnect_failed, scheduleReconnect. fields.
    destruct (shouldKeepRunning st); reflexivity.
Qed.

(** X24. A frame from the client that is interrupted half-way is not lost
    by what happens before its end arrives: no other event touches the
    stdin buffer, not even a reconnection, and the message is handled when
    the last bytes come in. *)
Theorem client_frame_survives_other_events (evs : list event) (c : jsstring)
    (chunk : Buffer) (st : state) :
  well_formed c = true ->
  stdinBuffer st ++ chunk = frame_bytes c ->
  forallb (fun e => negb (is_stdin e)) evs = true ->
  run JSON_parse JSON_stringify (evs ++ [StdinData chunk]) st
  = set_stdinBuffer []
      (stdin_message JSON_parse JSON_stringify c (byteLength c)
         (run JSON_parse JSON_stringify evs st)).
Proof.
  intros Hwf Hf He.
  assert (H : forall s, stdinBuffer (run JSON_parse JSON_stringify evs s) = stdinBuffer s).
  { unfold run. clear Hf. induction evs as [|e evs IH]; intros s; [reflexivity|].
    cbn [forallb] in He. apply andb_true_iff in He. destruct He as [He Hevs].
    apply negb_true_iff in He. cbn [fold_left].
    rewrite (IH Hevs). now apply step_keeps_stdinBuffer. }
  specialize (H st).
  unfold run in *. rewrite fold_left_app. cbn [fold_left step].
  rewrite on_stdin_data_eq, H, Hf.
  unfold frame_bytes. rewrite <- (app_nil_r (wire _)).
  rewrite extractMessages_frame by exact Hwf.
  reflexivity.
Qed.

End LifeCycleFacts.

Lemma nothing_is_written_while_offline_witness :
  let evs := [StdinData (frame_bytes Sample.initialize_text); TcpClosed; ReconnectElapsed;
              ReconnectFailed; StdinData (frame_bytes (Sample.notification_text "A"))] in
  tcpConnected (run Sample.parse Sample.stringify evs Sample.connecting) = false
  /\ out (run Sample.parse Sample.stringify evs Sample.connecting) = out Sample.connecting
  /\ exists staged,
       pendingMessages (run Sample.parse Sample.stringify evs Sample.connecting)
       = pendingMessages Sample.connecting ++ staged.
Proof.
  intros evs.
  apply (nothing_is_written_while_offline Sample.parse Sample.stringify evs Sample.connecting
           eq_refl eq_refl).
Defined.

Lemma armed_retry_is_never_cancelled_witness :
  let st := connectToGodot (on_close Sample.connecting) in
  let evs := [TcpConnected; TcpData (frame_bytes Sample.response_text)] in
  let st' := run Sample.parse Sample.stringify evs st in
  reconnectTimer st' = true
  /\ tcpConnected (on_reconnect_elapsed st') = false
  /\ tcpBuffer (on_reconnect_elapsed st') = []
  /\ waitingForInitialize (on_reconnect_elapsed st') = false
  /\ tcpSocket (on_reconnect_elapsed st')
     = Some {| sock_id := socketsCreated st; destroyed := false |}.
Proof.
  intros st evs.
  apply (armed_retry_is_never_cancelled Sample.parse Sample.stringify evs st
           eq_refl eq_refl eq_refl).
Defined.

Lemma warmup_flush_after_close_witness :
  let st := run Sample.parse Sample.stringify [TcpClosed; ReconnectElapsed; TcpConnected]
              Sample.initialized in
  let payloads := [Sample.initialize_text] in
  let st' := run Sample.parse Sample.stringify
               [StdinData (frames_bytes payloads); TcpClosed; WarmupElapsed] st in
  out st' = out st ++ map (sent (destroyed_socket {| sock_id := 1; destroyed := false |}))
                        (map content (pendingMessages st) ++ payloads)
  /\ pendingMessages st' = [].
Proof.
  intros st payloads.
  apply (warmup_flush_after_close Sample.parse Sample.stringify payloads st
           {| sock_id := 1; destroyed := false |} eq_refl eq_refl eq_refl eq_refl).
Defined.

Lemma client_frame_survives_other_events_witness :
  let c := Sample.initialize_text in
  let st := set_stdinBuffer (firstn 10 (frame_bytes c)) Sample.initialized in
  let evs := [TcpClosed; ReconnectElapsed; TcpConnected; WarmupElapsed] in
  run Sample.parse Sample.stringify (evs ++ [StdinData (skipn 10 (frame_bytes c))]) st
  = set_stdinBuffer []
      (stdin_message Sample.parse Sample.stringify c (byteLength c)
         (run Sample.parse Sample.stringify evs st)).
Proof.
  intros c st evs.
  apply (client_frame_survives_other_events Sample.parse Sample.stringify evs c
           (skipn 10 (frame_bytes c)) st eq_refl eq_refl eq_refl).
Defined.

(** ** Staging in the variant without reconnection *)

Section SimpleStaging.
Variable JSON_parse : jsstring -> option json.

Local Notation "'track_all'" :=
  (fold_left (fun s m => simple_tracked JSON_parse (content m) s)).

Lemma simple_sendToGodot_eq c len st :
  Simple.sendToGodot JSON_parse c len st
  = if tcpConnected st && socket_usable st
    then socket_write (frame len c) (simple_tracked JSON_parse c st)
    else set_pendingMessages
           (pendingMessages st ++ [{| content := c; contentLength := len |}])
           (simple_tracked JSON_parse c st).
Proof.
  unfold Simple.sendToGodot, simple_tracked.
  destruct (JSON_parse c) as [[| b | x | s | items | props]|]; try reflexivity;
    destruct (is_initialize_request _); reflexivity.
Qed.

Lemma simple_tracked_commutes (g : state -> state) c st :
  (forall s, waitingForInitialize (g s) = waitingForInitialize s) ->
  (forall v s, set_waitingForInitialize v (g s) = g (set_waitingForInitialize v s)) ->
  (forall v s, set_initializeRequestId v (g s) = g (set_initializeRequestId v s)) ->
  simple_tracked JSON_parse c (g st) = g (simple_tracked JSON_parse c st).
Proof.
  intros _ Hw Hi. unfold simple_tracked.
  destruct (JSON_parse c) as [[| b | x | s | items | props]|]; try reflexivity;
    destruct (is_initialize_request _); try reflexivity; now rewrite Hw, Hi.
Qed.

Lemma simple_tracked_connection c st :
  tcpConnected (simple_tracked JSON_parse c st) = tcpConnected st
  /\ tcpSocket (simple_tracked JSON_parse c st) = tcpSocket st
  /\ pendingMessages (simple_tracked JSON_parse c st) = pendingMessages st
  /\ out (simple_tracked JSON_parse c st) = out st.
Proof.
  unfold simple_tracked.
  destruct (JSON_parse c) as [[| b | x | s | items | props]|]; try (now repeat split);
    destruct (is_initialize_request _); now repeat split.
Qed.

Lemma simple_send_all_staged msgs : forall st,
  tcpConnected st = false ->
  simple_send_all JSON_parse msgs st
  = set_pendingMessages (pendingMessages st ++ msgs) (track_all msgs st).
Proof.
  unfold simple_send_all.
  induction msgs as [|m msgs IH]; intros st Hc; cbn [fold_left].
  - rewrite app_nil_r. now destruct st.
  - rewrite simple_sendToGodot_eq, Hc. cbn [andb].
    destruct (simple_tracked_connection (content m) st) as (H1 & H2 & H3 & H4).
    rewrite IH by (fields; congruence). fields.
    rewrite <- app_assoc. cbn [app].
    replace {| content := content m; contentLength := contentLength m |} with m
      by now destruct m.
    generalize (pendingMessages st ++ m :: msgs) as p. intros p.
    generalize (simple_tracked JSON_parse (content m) st) as t. intros t. clear.
    revert t. induction msgs as [|m' msgs IH]; intros t; cbn [fold_left].
    + now destruct t.
    + rewrite (simple_tracked_commutes (set_pendingMessages _)) by reflexivity.
      rewrite IH. now destruct (fold_left _ msgs _).
Qed.

Lemma simple_send_all_direct msgs sock : forall st,
  tcpConnected st = true -> tcpSocket st = Some sock -> destroyed sock = false ->
  simple_send_all JSON_parse msgs st
  = set_out (out st ++ map (fun m => SocketWrite sock (frame (contentLength m) (content m))) msgs)
      (track_all msgs st).
Proof.
  unfold simple_send_all.
  induction msgs as [|m msgs IH]; intros st Hc Hs Hd; cbn [fold_left map].
  - rewrite app_nil_r. now destruct st.
  - rewrite simple_sendToGodot_eq, Hc. unfold socket_usable. rewrite Hs, Hd. cbn [andb negb].
    destruct (simple_tracked_connection (content m) st) as (H1 & H2 & H3 & H4).
    unfold socket_write. rewrite H2, Hs.
    rewrite IH by (unfold emit; fields; congruence). unfold emit. fields.
    rewrite H4, <- app_assoc. cbn [app].
    generalize (out st ++ SocketWrite sock (frame (contentLength m) (content m))
                  :: map (fun m0 => SocketWrite sock (frame (contentLength m0) (content m0))) msgs)
      as o.
    intros o.
    generalize (simple_tracked JSON_parse (content m) st) as t. intros t. clear.
    generalize (out t ++ [SocketWrite sock (frame (contentLength m) (content m))]) as o'.
    intros o'. revert t. induction msgs as [|m' msgs IH]; intros t; cbn [fold_left].
    + now destruct t.
    + rewrite (simple_tracked_commutes (set_out _)) by reflexivity.
      rewrite IH. now destruct (fold_left _ msgs _).
Qed.

Lemma track_all_commutes (g : state -> state) msgs :
  (forall s, waitingForInitialize (g s) = waitingForInitialize s) ->
  (forall v s, set_waitingForInitialize v (g s) = g (set_waitingForInitialize v s)) ->
  (forall v s, set_initializeRequestId v (g s) = g (set_initializeRequestId v s)) ->
  forall st, track_all msgs (g st) = g (track_all msgs st).
Proof.
  intros H1 H2 H3. induction msgs as [|m msgs IH]; intros st; cbn [fold_left]; [reflexivity|].
  now rewrite (simple_tracked_commutes g) by assumption.
Qed.

Lemma track_all_connection msgs : forall st,
  tcpConnected (track_all msgs st) = tcpConnected st
  /\ tcpSocket (track_all msgs st) = tcpSocket st
  /\ pendingMessages (track_all msgs st) = pendingMessages st
  /\ out (track_all msgs st) = out st.
Proof.
  induction msgs as [|m msgs IH]; intros st; cbn [fold_left]; [now repeat split|].
  destruct (IH (simple_tracked JSON_parse (content m) st)) as (A1 & A2 & A3 & A4).
  destruct (simple_tracked_connection (content m) st) as (B1 & B2 & B3 & B4).
  repeat split; congruence.
Qed.

Lemma simple_on_connect_eq st sock :
  tcpSocket st = Some sock ->
  Simple.on_connect st
  = set_pendingMessages []
      (set_out (out st ++ map (fun m => SocketWrite sock (frame (contentLength m) (content m)))
                            (pendingMessages st))
         (set_tcpConnected true st)).
Proof.
  intros Hs. unfold Simple.on_connect.
  assert (Hflush : forall l s,
            tcpSocket s = Some sock ->
            fold_left (fun s0 msg => socket_write (frame (contentLength msg) (content msg)) s0)
              l s
            = set_out (out s ++ map (fun m => SocketWrite sock
                                               (frame (contentLength m) (content m))) l) s).
  { induction l as [|m l IH]; intros s Hsock; cbn [fold_left map].
    - rewrite app_nil_r. now destruct s.
    - unfold socket_write at 2. rewrite Hsock.
      rewrite IH by (unfold emit; fields; exact Hsock).
      unfold emit. fields. rewrite <- app_assoc. now destruct s. }
  rewrite Hflush by exact Hs. reflexivity.
Qed.

(** X25. In the variant without reconnection staging is transparent:
    messages that arrive before the connection and are flushed by the
    connect callback leave the bridge in the very state, trace included,
    that it reaches when the connection is there first and the messages
    are sent directly. *)
Theorem simple_staging_is_transparent (msgs : list message) (st : state) (sock : socket) :
  tcpConnected st = false ->
  pendingMessages st = [] ->
  tcpSocket st = Some sock ->
  destroyed sock = false ->
  Simple.on_connect (simple_send_all JSON_parse msgs st)
  = simple_send_all JSON_parse msgs (Simple.on_connect st).
Proof.
  intros Hc Hp Hs Hd.
  destruct (track_all_connection msgs st) as (T1 & T2 & T3 & T4).
  rewrite (simple_on_connect_eq st sock Hs), Hp. cbn [map].
  rewrite (simple_send_all_staged msgs st Hc), Hp. cbn [app].
  rewrite (simple_send_all_direct msgs sock) by first [reflexivity | assumption].
  rewrite (simple_on_connect_eq _ sock) by (exact (eq_trans T2 Hs)).
  rewrite (track_all_commutes (set_pendingMessages [])) by reflexivity.
  rewrite (track_all_commutes (set_out _)) by reflexivity.
  rewrite (track_all_commutes (set_tcpConnected true)) by reflexivity.
  change (out (set_pendingMessages msgs (track_all msgs st))) with (out (track_all msgs st)).
  change (pendingMessages (set_pendingMessages msgs (track_all msgs st))) with msgs.
  rewrite T4. rewrite app_nil_r.
  change (out (set_pendingMessages [] (set_out (out st) (set_tcpConnected true
            (track_all msgs st))))) with (out st).
  now destruct (track_all msgs st).
Qed.

End SimpleStaging.

Lemma simple_staging_is_transparent_witness :
  let msgs := [entry Sample.initialize_text; entry (Sample.notification_text "A")] in
  Simple.on_connect (simple_send_all Sample.parse msgs Sample.connecting)
  = simple_send_all Sample.parse msgs (Simple.on_connect Sample.connecting).
Proof.
  intros msgs.
  apply (simple_staging_is_transparent Sample.parse msgs Sample.connecting Sample.a_socket
           eq_refl eq_refl eq_refl eq_refl).
Defined.

(** ** The handshake filter of the variant without reconnection *)

Section SimpleHandshake.
Variable JSON_parse : jsstring -> option json.

Lemma simple_handle_pass_through c len st :
  waitingForInitialize st = false ->
  Simple.handleGodotMessage JSON_parse c len st = Simple.writeToStdout c len st.
Proof.
  intros Hw. unfold Simple.handleGodotMessage. rewrite Hw. now destruct (JSON_parse c).
Qed.

Lemma simple_handle_one_accounted (m : message) st :
  exists relayed,
    out (Simple.handleGodotMessage JSON_parse (content m) (contentLength m) st)
    = out st ++ map relay_as_received relayed
    /\ Permutation
         (relayed ++ bufferedNotifications
                       (Simple.handleGodotMessage JSON_parse (content m) (contentLength m) st))
         (bufferedNotifications st ++ [m]).
Proof.
  assert (Hm : {| content := content m; contentLength := contentLength m |} = m)
    by now destruct m.
  assert (Hpass :
    exists relayed,
      out (Simple.writeToStdout (content m) (contentLength m) st)
      = out st ++ map relay_as_received relayed
      /\ Permutation
           (relayed ++ bufferedNotifications
                         (Simple.writeToStdout (content m) (contentLength m) st))
           (bufferedNotifications st ++ [m])).
  { exists [m]. split; [reflexivity|]. unfold Simple.writeToStdout, emit. fields.
    apply Permutation_cons_append. }
  destruct (waitingForInitialize st) eqn:Hw.
  - rewrite simple_handle_while_waiting by exact Hw.
    destruct (awaited JSON_parse (initializeRequestId st) (content m)).
    + exists (m :: bufferedNotifications st).
      rewrite simple_flush_notifications_eq. unfold Simple.writeToStdout, emit. fields.
      split.
      * rewrite <- app_assoc. reflexivity.
      * rewrite app_nil_r. apply Permutation_cons_append.
    + destruct (notification JSON_parse (content m)); [|exact Hpass].
      exists []. fields. rewrite Hm. split; [now rewrite app_nil_r|reflexivity].
  - rewrite simple_handle_pass_through by exact Hw. exact Hpass.
Qed.

(** X26. The handshake filter of the variant without reconnection neither
    drops nor duplicates: after any run of messages from the peer, the
    messages printed, each under the length it was received with, and the
    messages still held are together the messages held before and the
    messages received. *)
Theorem simple_peer_messages_are_relayed_or_held (msgs : list message) (st : state) :
  let handle := fun s m =>
    Simple.handleGodotMessage JSON_parse (content m) (contentLength m) s in
  exists relayed,
    out (fold_left handle msgs st) = out st ++ map relay_as_received relayed
    /\ Permutation (relayed ++ bufferedNotifications (fold_left handle msgs st))
         (bufferedNotifications st ++ msgs).
Proof.
  cbv zeta. revert st.
  induction msgs as [|m msgs IH]; intros st; cbn [fold_left].
  - exists []. cbn [map app]. now rewrite !app_nil_r.
  - destruct (simple_handle_one_accounted m st) as [r1 [H1 P1]].
    destruct (IH (Simple.handleGodotMessage JSON_parse (content m) (contentLength m) st))
      as [r2 [H2 P2]].
    exists (r1 ++ r2). split.
    + now rewrite H2, H1, map_app, app_assoc.
    + rewrite <- app_assoc.
      etransitivity; [apply Permutation_app_head; exact P2|].
      rewrite app_assoc.
      etransitivity; [apply Permutation_app_tail; exact P1|].
      rewrite <- app_assoc. reflexivity.
Qed.

End SimpleHandshake.
